(** * Medify: retrying fetch, local booking store and search controller

    A shallow embedding of [src/App.js]: the helpers [fetchWithRetry],
    [getBookings] and [saveBookings], and the state controller of the
    [App] component (the three fetch stages, the booking handlers).

    - Values. What travels through the program is JSON data: the
      responses of the remote API and the content of the [bookings]
      slot. [undefined] only arises from reading an absent property or
      from leaving the retry loop, and is [None]. Numbers are the
      integers, strings are sequences of code units below 256.
    - Platform. [JSON.stringify] and [JSON.parse] are an executable
      printer and parser; [localStorage] is a finite map with a quota;
      [fetch] asks an oracle for the outcome of each call in turn; the
      console and the timers are logs.
    - Effects. Helpers and handlers are computations over a state that
      may throw; [try]/[catch]/[finally] are combinators.
    - Time. An [async] function is split at its first [await]: what
      runs before it, the call of [fetch] included, and a continuation
      that is kept among the calls in flight until an event settles it. *)

From Stdlib Require Import ZArith Ascii String Decimal DecimalN DecimalPos Lia Sorted.
From stdpp Require Import base option list strings gmap.

Local Open Scope string_scope.

(** ** JSON values *)

Module Json.

(** Numbers are the integers among the JavaScript numbers; strings are
    sequences of code units below 256; an object is its list of own
    properties in insertion order. *)
#[warnings="-register-all"]
Inductive json : Type :=
| JNull
| JBool (b : bool)
| JNum (n : Z)
| JStr (s : string)
| JArr (elems : list json)
| JObj (props : list (string * json)).

(** [ToBoolean]: the falsy JSON values are [null], [false], [0] and [""]. *)
Definition truthy (v : json) : bool :=
  match v with
  | JNull => false
  | JBool b => b
  | JNum n => negb (n =? 0)%Z
  | JStr s => negb (String.eqb s "")
  | JArr _ | JObj _ => true
  end.

(** Truthiness of a possibly [undefined] value. *)
Definition truthy_opt (o : option json) : bool :=
  match o with
  | Some v => truthy v
  | None => false
  end.

(** [a || b] where [a] may be [undefined]. *)
Definition or_else (a : option json) (b : json) : json :=
  match a with
  | Some v => if truthy v then v else b
  | None => b
  end.

(** Own-property lookup in a property list. *)
Fixpoint assoc (k : string) (props : list (string * json)) : option json :=
  match props with
  | [] => None
  | (k', v) :: rest => if String.eqb k k' then Some v else assoc k rest
  end.

(** [o[k] = v] on a property list: an existing key keeps its position. *)
Fixpoint obj_set (k : string) (v : json) (props : list (string * json))
  : list (string * json) :=
  match props with
  | [] => [(k, v)]
  | (k', v') :: rest =>
      if String.eqb k k' then (k, v) :: rest else (k', v') :: obj_set k v rest
  end.

(** The object built from a sequence of members, later duplicates winning. *)
Definition obj_of_members (ms : list (string * json)) : list (string * json) :=
  fold_left (fun acc kv => obj_set (fst kv) (snd kv) acc) ms [].

Fixpoint mem_string (k : string) (l : list string) : bool :=
  match l with
  | [] => false
  | k' :: rest => String.eqb k k' || mem_string k rest
  end.

Fixpoint nodup_keys (l : list string) : bool :=
  match l with
  | [] => true
  | k :: rest => negb (mem_string k rest) && nodup_keys rest
  end.

(** A JSON term denotes a JavaScript value when no object lists a key twice. *)
Fixpoint wf (v : json) : bool :=
  match v with
  | JArr l => forallb wf l
  | JObj ps => nodup_keys (map fst ps) && forallb (fun kv => wf (snd kv)) ps
  | _ => true
  end.

(** Number of constructors, the measure that bounds the parser's fuel. *)
Fixpoint size (v : json) : nat :=
  match v with
  | JArr l => S (list_sum (map (fun x => S (size x)) l))
  | JObj ps => S (list_sum (map (fun kv => S (size (snd kv))) ps))
  | _ => 1
  end.

(** *** [JSON.stringify] *)

Definition hex_digit (n : N) : ascii :=
  if (n <? 10)%N then ascii_of_N (48 + n) else ascii_of_N (87 + n).

(** [QuoteJSONString], one code unit at a time. *)
Definition escape_char (c : ascii) : string :=
  let n := N_of_ascii c in
  if (n =? 8)%N then "\b"
  else if (n =? 9)%N then "\t"
  else if (n =? 10)%N then "\n"
  else if (n =? 12)%N then "\f"
  else if (n =? 13)%N then "\r"
  else if (n =? 34)%N then String "\" (String "034" "")
  else if (n =? 92)%N then "\\"
  else if (n <? 32)%N then
    "\u00" ++ String (hex_digit (n / 16)) (String (hex_digit (n mod 16)) "")
  else String c "".

Fixpoint escape (s : string) : string :=
  match s with
  | EmptyString => ""
  | String c rest => escape_char c ++ escape rest
  end.

Definition quote (s : string) : string :=
  String "034" "" ++ escape s ++ String "034" "".

Fixpoint string_of_uint (u : uint) : string :=
  match u with
  | Nil => ""
  | D0 u => String "0" (string_of_uint u)
  | D1 u => String "1" (string_of_uint u)
  | D2 u => String "2" (string_of_uint u)
  | D3 u => String "3" (string_of_uint u)
  | D4 u => String "4" (string_of_uint u)
  | D5 u => String "5" (string_of_uint u)
  | D6 u => String "6" (string_of_uint u)
  | D7 u => String "7" (string_of_uint u)
  | D8 u => String "8" (string_of_uint u)
  | D9 u => String "9" (string_of_uint u)
  end.

(** [Number::toString] on an integer: decimal digits, a sign when negative. *)
Definition string_of_Z (n : Z) : string :=
  match n with
  | Z0 => "0"
  | Zpos p => string_of_uint (Pos.to_uint p)
  | Zneg p => String "-" (string_of_uint (Pos.to_uint p))
  end.

Fixpoint stringify (v : json) : string :=
  match v with
  | JNull => "null"
  | JBool true => "true"
  | JBool false => "false"
  | JNum n => string_of_Z n
  | JStr s => quote s
  | JArr l =>
      "[" ++
      (fix elems (l : list json) : string :=
         match l with
         | [] => ""
         | [x] => stringify x
         | x :: rest => stringify x ++ "," ++ elems rest
         end) l ++ "]"
  | JObj ps =>
      "{" ++
      (fix members (ps : list (string * json)) : string :=
         match ps with
         | [] => ""
         | [(k, x)] => quote k ++ ":" ++ stringify x
         | (k, x) :: rest => quote k ++ ":" ++ stringify x ++ "," ++ members rest
         end) ps ++ "}"
  end.

(** The element and member lists of [stringify], as functions of their own. *)
Fixpoint stringify_elems (l : list json) : string :=
  match l with
  | [] => ""
  | [x] => stringify x
  | x :: rest => stringify x ++ "," ++ stringify_elems rest
  end.

Fixpoint stringify_members (ps : list (string * json)) : string :=
  match ps with
  | [] => ""
  | [(k, x)] => quote k ++ ":" ++ stringify x
  | (k, x) :: rest => quote k ++ ":" ++ stringify x ++ "," ++ stringify_members rest
  end.

(** *** [JSON.parse] *)

Definition is_ws (c : ascii) : bool :=
  let n := N_of_ascii c in
  (n =? 32)%N || (n =? 9)%N || (n =? 10)%N || (n =? 13)%N.

Fixpoint skip_ws (s : string) : string :=
  match s with
  | EmptyString => ""
  | String c rest => if is_ws c then skip_ws rest else s
  end.

Definition digit_of_char (c : ascii) : option (uint -> uint) :=
  match c with
  | "0"%char => Some D0
  | "1"%char => Some D1
  | "2"%char => Some D2
  | "3"%char => Some D3
  | "4"%char => Some D4
  | "5"%char => Some D5
  | "6"%char => Some D6
  | "7"%char => Some D7
  | "8"%char => Some D8
  | "9"%char => Some D9
  | _ => None
  end.

Definition is_digit (c : ascii) : bool :=
  match digit_of_char c with Some _ => true | None => false end.

Definition is_minus (c : ascii) : bool := Ascii.eqb c "-".

Definition is_num_start (c : ascii) : bool := is_minus c || is_digit c.

(** The longest run of digits at the head of [s], and what follows it. *)
Fixpoint parse_digits (s : string) : uint * string :=
  match s with
  | EmptyString => (Nil, "")
  | String c rest =>
      match digit_of_char c with
      | Some d => let '(u, r) := parse_digits rest in (d u, r)
      | None => (Nil, s)
      end
  end.

(** No digit may follow a leading zero. *)
Definition leading_zero (u : uint) : bool :=
  match u with
  | D0 Nil => false
  | D0 _ => true
  | _ => false
  end.

(** A fraction or an exponent would leave the integers: such a text
    is outside the numbers modelled and is not read. *)
Definition starts_fraction (s : string) : bool :=
  match s with
  | String c _ => Ascii.eqb c "." || Ascii.eqb c "e" || Ascii.eqb c "E"
  | EmptyString => false
  end.

Definition parse_unsigned (s : string) : option (Z * string) :=
  match parse_digits s with
  | (Nil, _) => None
  | (u, r) =>
      if leading_zero u || starts_fraction r then None
      else Some (Z.of_N (N.of_uint u), r)
  end.

Definition parse_number (s : string) : option (Z * string) :=
  match s with
  | String c rest =>
      if is_minus c then
        match parse_unsigned rest with
        | Some (n, r) => Some (Z.opp n, r)
        | None => None
        end
      else parse_unsigned s
  | EmptyString => None
  end.

Definition hex_val (c : ascii) : option N :=
  let n := N_of_ascii c in
  if (48 <=? n)%N && (n <=? 57)%N then Some (n - 48)%N
  else if (97 <=? n)%N && (n <=? 102)%N then Some (n - 87)%N
  else if (65 <=? n)%N && (n <=? 70)%N then Some (n - 55)%N
  else None.

Definition hex4 (a b c d : ascii) : option N :=
  match hex_val a, hex_val b, hex_val c, hex_val d with
  | Some x, Some y, Some z, Some w => Some (((x * 16 + y) * 16 + z) * 16 + w)%N
  | _, _, _, _ => None
  end.

Definition cons_char (c : ascii) (o : option (string * string))
  : option (string * string) :=
  match o with
  | Some (s, r) => Some (String c s, r)
  | None => None
  end.

(** The characters of a string literal after its opening quote, up to
    and including the closing quote. An escape [\uXXXX] is read when it
    denotes a code unit below 256. *)
Fixpoint parse_string_body (s : string) : option (string * string) :=
  match s with
  | EmptyString => None
  | String c r =>
      if Ascii.eqb c "034" then Some ("", r)
      else if Ascii.eqb c "\" then
        match r with
        | String e r' =>
            match e with
            | "034"%char => cons_char "034" (parse_string_body r')
            | "\"%char => cons_char "\" (parse_string_body r')
            | "/"%char => cons_char "/" (parse_string_body r')
            | "b"%char => cons_char "008" (parse_string_body r')
            | "t"%char => cons_char "009" (parse_string_body r')
            | "n"%char => cons_char "010" (parse_string_body r')
            | "f"%char => cons_char "012" (parse_string_body r')
            | "r"%char => cons_char "013" (parse_string_body r')
            | "u"%char =>
                match r' with
                | String h1 (String h2 (String h3 (String h4 r''))) =>
                    match hex4 h1 h2 h3 h4 with
                    | Some n =>
                        if (n <? 256)%N
                        then cons_char (ascii_of_N n) (parse_string_body r'')
                        else None
                    | None => None
                    end
                | _ => None
                end
            | _ => None
            end
        | EmptyString => None
        end
      else if (N_of_ascii c <? 32)%N then None
      else cons_char c (parse_string_body r)
  end.

Fixpoint strip_prefix (p s : string) : option string :=
  match p with
  | EmptyString => Some s
  | String a p' =>
      match s with
      | String b s' => if Ascii.eqb a b then strip_prefix p' s' else None
      | EmptyString => None
      end
  end.

Definition parse_literal (lit : string) (v : json) (s : string)
  : option (json * string) :=
  match strip_prefix lit s with
  | Some r => Some (v, r)
  | None => None
  end.

(** Recursive descent; [fuel] bounds the nesting and the number of
    elements, [parse] supplies the length of the text. *)
Fixpoint parse_value (fuel : nat) (s : string) {struct fuel}
  : option (json * string) :=
  match fuel with
  | O => None
  | S fuel' =>
      match skip_ws s with
      | EmptyString => None
      | String c r =>
          if is_num_start c then
            match parse_number (String c r) with
            | Some (n, r') => Some (JNum n, r')
            | None => None
            end
          else
            match c with
            | "n"%char => parse_literal "ull" JNull r
            | "t"%char => parse_literal "rue" (JBool true) r
            | "f"%char => parse_literal "alse" (JBool false) r
            | "034"%char =>
                match parse_string_body r with
                | Some (str, r') => Some (JStr str, r')
                | None => None
                end
            | "["%char =>
                match skip_ws r with
                | EmptyString => None
                | String c1 r1 =>
                    if Ascii.eqb c1 "]" then Some (JArr [], r1)
                    else
                      match parse_elements fuel' (String c1 r1) with
                      | Some (l, r') => Some (JArr l, r')
                      | None => None
                      end
                end
            | "{"%char =>
                match skip_ws r with
                | EmptyString => None
                | String c1 r1 =>
                    if Ascii.eqb c1 "}" then Some (JObj [], r1)
                    else
                      match parse_members fuel' (String c1 r1) with
                      | Some (ms, r') => Some (JObj (obj_of_members ms), r')
                      | None => None
                      end
                end
            | _ => None
            end
      end
  end
with parse_elements (fuel : nat) (s : string) {struct fuel}
  : option (list json * string) :=
  match fuel with
  | O => None
  | S fuel' =>
      match parse_value fuel' s with
      | Some (v, r) =>
          match skip_ws r with
          | String "," r' =>
              match parse_elements fuel' r' with
              | Some (l, r'') => Some (v :: l, r'')
              | None => None
              end
          | String "]" r' => Some ([v], r')
          | _ => None
          end
      | None => None
      end
  end
with parse_members (fuel : nat) (s : string) {struct fuel}
  : option (list (string * json) * string) :=
  match fuel with
  | O => None
  | S fuel' =>
      match skip_ws s with
      | String "034" r =>
          match parse_string_body r with
          | Some (k, r1) =>
              match skip_ws r1 with
              | String ":" r2 =>
                  match parse_value fuel' r2 with
                  | Some (v, r3) =>
                      match skip_ws r3 with
                      | String "," r4 =>
                          match parse_members fuel' r4 with
                          | Some (ms, r5) => Some ((k, v) :: ms, r5)
                          | None => None
                          end
                      | String "}" r4 => Some ([(k, v)], r4)
                      | _ => None
                      end
                  | None => None
                  end
              | _ => None
              end
          | None => None
          end
      | _ => None
      end
  end.

(** [JSON.parse]: one value, then nothing but white space. *)
Definition parse (s : string) : option json :=
  match parse_value (S (String.length s)) s with
  | Some (v, r) =>
      match skip_ws r with
      | EmptyString => Some v
      | _ => None
      end
  | None => None
  end.

(** *** The grammar of JSON

    [parse] reads the texts whose values are among those modelled. A
    number with a fraction or an exponent and a string with an escape of
    a code unit from 256 on are JSON as well, with values that are not
    modelled. [valid] recognises the whole grammar, so that a text that
    is not JSON, at which [JSON.parse] throws, is told from those. *)

Fixpoint skip_digits (s : string) : string :=
  match s with
  | EmptyString => ""
  | String c rest => if is_digit c then skip_digits rest else s
  end.

(** [0], or a digit that is not [0] and the digits after it. *)
Definition lex_int (s : string) : option string :=
  match s with
  | String c rest =>
      if Ascii.eqb c "0" then Some rest
      else if is_digit c then Some (skip_digits rest)
      else None
  | EmptyString => None
  end.

(** A fraction, if there is one: a point and at least one digit. *)
Definition lex_frac (s : string) : option string :=
  match s with
  | String c rest =>
      if Ascii.eqb c "." then
        match rest with
        | String d rest' => if is_digit d then Some (skip_digits rest') else None
        | EmptyString => None
        end
      else Some s
  | EmptyString => Some s
  end.

(** An exponent, if there is one: [e] or [E], a sign or none, and at
    least one digit. *)
Definition lex_exp (s : string) : option string :=
  match s with
  | String c rest =>
      if Ascii.eqb c "e" || Ascii.eqb c "E" then
        let unsigned :=
          match rest with
          | String sign rest' =>
              if Ascii.eqb sign "+" || Ascii.eqb sign "-" then rest' else rest
          | EmptyString => rest
          end in
        match unsigned with
        | String d rest' => if is_digit d then Some (skip_digits rest') else None
        | EmptyString => None
        end
      else Some s
  | EmptyString => Some s
  end.

Definition lex_number (s : string) : option string :=
  let unsigned :=
    match s with
    | String c rest => if is_minus c then rest else s
    | EmptyString => s
    end in
  match lex_int unsigned with
  | Some r1 =>
      match lex_frac r1 with
      | Some r2 => lex_exp r2
      | None => None
      end
  | None => None
  end.

(** The characters of a string literal after its opening quote, up to
    and including the closing quote, whatever code units its escapes
    denote. *)
Fixpoint lex_string_body (s : string) : option string :=
  match s with
  | EmptyString => None
  | String c r =>
      if Ascii.eqb c "034" then Some r
      else if Ascii.eqb c "\" then
        match r with
        | String e r' =>
            match e with
            | "034"%char => lex_string_body r'
            | "\"%char => lex_string_body r'
            | "/"%char => lex_string_body r'
            | "b"%char => lex_string_body r'
            | "t"%char => lex_string_body r'
            | "n"%char => lex_string_body r'
            | "f"%char => lex_string_body r'
            | "r"%char => lex_string_body r'
            | "u"%char =>
                match r' with
                | String h1 (String h2 (String h3 (String h4 r''))) =>
                    match hex4 h1 h2 h3 h4 with
                    | Some _ => lex_string_body r''
                    | None => None
                    end
                | _ => None
                end
            | _ => None
            end
        | EmptyString => None
        end
      else if (N_of_ascii c <? 32)%N then None
      else lex_string_body r
  end.

(** The descent of [parse_value], without the values. *)
Fixpoint valid_value (fuel : nat) (s : string) {struct fuel} : option string :=
  match fuel with
  | O => None
  | S fuel' =>
      match skip_ws s with
      | EmptyString => None
      | String c r =>
          if is_num_start c then lex_number (String c r)
          else
            match c with
            | "n"%char => strip_prefix "ull" r
            | "t"%char => strip_prefix "rue" r
            | "f"%char => strip_prefix "alse" r
            | "034"%char => lex_string_body r
            | "["%char =>
                match skip_ws r with
                | EmptyString => None
                | String c1 r1 =>
                    if Ascii.eqb c1 "]" then Some r1
                    else valid_elements fuel' (String c1 r1)
                end
            | "{"%char =>
                match skip_ws r with
                | EmptyString => None
                | String c1 r1 =>
                    if Ascii.eqb c1 "}" then Some r1
                    else valid_members fuel' (String c1 r1)
                end
            | _ => None
            end
      end
  end
with valid_elements (fuel : nat) (s : string) {struct fuel} : option string :=
  match fuel with
  | O => None
  | S fuel' =>
      match valid_value fuel' s with
      | Some r =>
          match skip_ws r with
          | String "," r' => valid_elements fuel' r'
          | String "]" r' => Some r'
          | _ => None
          end
      | None => None
      end
  end
with valid_members (fuel : nat) (s : string) {struct fuel} : option string :=
  match fuel with
  | O => None
  | S fuel' =>
      match skip_ws s with
      | String "034" r =>
          match lex_string_body r with
          | Some r1 =>
              match skip_ws r1 with
              | String ":" r2 =>
                  match valid_value fuel' r2 with
                  | Some r3 =>
                      match skip_ws r3 with
                      | String "," r4 => valid_members fuel' r4
                      | String "}" r4 => Some r4
                      | _ => None
                      end
                  | None => None
                  end
              | _ => None
              end
          | None => None
          end
      | _ => None
      end
  end.

(** The texts at which [JSON.parse] does not throw: one value of the
    grammar, then nothing but white space. *)
Definition valid (s : string) : bool :=
  match valid_value (S (String.length s)) s with
  | Some r =>
      match skip_ws r with
      | EmptyString => true
      | _ => false
      end
  | None => false
  end.

End Json.
Import Json.

(** ** Built-in operations on values *)

Module Js.

(** What a [throw] carries. *)
Inductive exn : Type :=
| HttpError (status : Z)
| NetworkError (msg : string)
| SyntaxError
| TypeError
| QuotaExceededError
| SecurityError.

Inductive result (A : Type) : Type :=
| Ok (a : A)
| Throw (e : exn).

Arguments Ok {A} a.
Arguments Throw {A} e.

(** [JSON.parse] throws a [SyntaxError] on malformed text. The values
    modelled bound what is read: a text that is JSON with a value beyond
    them (see [Json.valid]) is not read either. *)
Definition JSON_parse (text : string) : result json :=
  match Json.parse text with
  | Some v => Ok v
  | None => Throw SyntaxError
  end.

(** [JSON.stringify]: JSON data always serializes. *)
Definition JSON_stringify (v : json) : result string := Ok (Json.stringify v).

(** [v[k]] for a key that is neither [length] nor an index: only objects
    have such properties, and reading from [null] throws. *)
Definition get_prop (v : json) (k : string) : result (option json) :=
  match v with
  | JNull => Throw TypeError
  | JObj ps => Ok (assoc k ps)
  | _ => Ok None
  end.

(** [ToString], the key of the default [Array.prototype.sort] order,
    for the integers below [1e21] in size, which print in full, and for
    objects without an own property [toString] or [valueOf]. *)
Fixpoint to_string (v : json) : string :=
  match v with
  | JNull => "null"
  | JBool true => "true"
  | JBool false => "false"
  | JNum n => string_of_Z n
  | JStr s => s
  | JArr l =>
      (fix join (l : list json) : string :=
         match l with
         | [] => ""
         | [x] => match x with JNull => "" | _ => to_string x end
         | x :: rest =>
             match x with JNull => "" | _ => to_string x end ++ "," ++ join rest
         end) l
  | JObj _ => "[object Object]"
  end.

Fixpoint insert_sorted (x : json) (l : list json) : list json :=
  match l with
  | [] => [x]
  | y :: rest =>
      if String.leb (to_string x) (to_string y)
      then x :: y :: rest
      else y :: insert_sorted x rest
  end.

(** [l.sort()] without a comparator: by [ToString], stable. *)
Definition sort (l : list json) : list json := foldr insert_sorted [] l.

(** The same on an array that may hold [undefined], which sorts last. *)
Definition sort_holes (l : list (option json)) : list (option json) :=
  map Some (sort (omap id l)) ++ filter (fun o => o = None) l.

Definition unreserved (c : ascii) : bool :=
  let n := N_of_ascii c in
  ((48 <=? n) && (n <=? 57) || (65 <=? n) && (n <=? 90)
   || (97 <=? n) && (n <=? 122))%N
  || existsb (Ascii.eqb c) (list_ascii_of_string "-_.!~*'()").

Definition upper_hex (n : N) : ascii :=
  if (n <? 10)%N then ascii_of_N (48 + n) else ascii_of_N (55 + n).

Definition percent (n : N) : string :=
  String "%" (String (upper_hex (n / 16)) (String (upper_hex (n mod 16)) "")).

(** [encodeURIComponent]: the UTF-8 octets of every reserved code unit,
    percent-encoded. *)
Fixpoint encodeURIComponent (s : string) : string :=
  match s with
  | EmptyString => ""
  | String c rest =>
      let n := N_of_ascii c in
      (if unreserved c then String c ""
       else if (n <? 128)%N then percent n
       else percent (192 + n / 64) ++ percent (128 + n mod 64))
      ++ encodeURIComponent rest
  end.

End Js.
Import Js.

(** ** The browser: console, storage, network, timers *)

Module Browser.

(** [localStorage]. Access is refused altogether when the site may not
    use storage; a write is refused when the stored keys and values would
    outgrow the quota. *)
Record Storage : Type := {
  items : gmap string string;
  quota : nat;
  denied : bool
}.

Definition usage (m : gmap string string) : nat :=
  map_fold (fun k v acc => String.length k + String.length v + acc) 0 m.

Definition getItem (k : string) (st : Storage) : result (option string) :=
  if denied st then Throw SecurityError else Ok (items st !! k).

Definition setItem (k v : string) (st : Storage) : result Storage :=
  if denied st then Throw SecurityError
  else if (usage (<[k := v]> (items st)) <=? quota st)%nat
  then Ok {| items := <[k := v]> (items st); quota := quota st; denied := false |}
  else Throw QuotaExceededError.

(** What one call of [fetch] comes to: the promise rejects, or it
    resolves to a response with a status and a body text. *)
Inductive outcome : Type :=
| Rejected (e : exn)
| Response (status : Z) (body : string).

(** [response.ok] *)
Definition ok (status : Z) : bool := (200 <=? status)%Z && (status <=? 299)%Z.

(** A line of the console: [console.warn(msg)] or [console.error(msg, e)]. *)
Inductive entry : Type :=
| Warned (msg : string)
| Errored (msg : string) (e : exn).

Record World : Type := {
  localStorage : Storage;
  (** the answer to the [n]-th call of [fetch], given its URL and options *)
  network : nat -> string -> json -> outcome;
  (** the calls of [fetch] so far, oldest first *)
  requests : list (string * json);
  (** the delays of the timers waited for, in milliseconds, oldest first *)
  timers : list Z;
  console : list entry
}.

Definition with_storage (st : Storage) (w : World) : World :=
  {| localStorage := st; network := network w; requests := requests w;
     timers := timers w; console := console w |}.

Definition with_request (rq : string * json) (w : World) : World :=
  {| localStorage := localStorage w; network := network w;
     requests := requests w ++ [rq]; timers := timers w; console := console w |}.

Definition with_timer (ms : Z) (w : World) : World :=
  {| localStorage := localStorage w; network := network w;
     requests := requests w; timers := timers w ++ [ms]; console := console w |}.

Definition with_log (line : entry) (w : World) : World :=
  {| localStorage := localStorage w; network := network w;
     requests := requests w; timers := timers w; console := console w ++ [line] |}.

End Browser.
Import Browser.

(** ** Computations that read and change a state and may throw *)

Module Eff.

(** The state survives a [throw]: what was done before it stays done. *)
Definition M (S A : Type) : Type := S -> result A * S.

Definition ret {S A} (a : A) : M S A := fun s => (Ok a, s).

Definition throw {S A} (e : exn) : M S A := fun s => (Throw e, s).

Definition bind {S A B} (m : M S A) (f : A -> M S B) : M S B :=
  fun s =>
    match m s with
    | (Ok a, s') => f a s'
    | (Throw e, s') => (Throw e, s')
    end.

(** [try { body } catch (error) { handler }] *)
Definition try_catch {S A} (body : M S A) (handler : exn -> M S A) : M S A :=
  fun s =>
    match body s with
    | (Ok a, s') => (Ok a, s')
    | (Throw e, s') => handler e s'
    end.

(** [try { body } finally { cleanup }] *)
Definition try_finally {S A} (body : M S A) (cleanup : M S unit) : M S A :=
  fun s =>
    match body s with
    | (r, s') =>
        match cleanup s' with
        | (Ok _, s'') => (r, s'')
        | (Throw e, s'') => (Throw e, s'')
        end
    end.

Definition get {S} : M S S := fun s => (Ok s, s).

Definition modify {S} (f : S -> S) : M S unit := fun s => (Ok tt, f s).

(** A value that is already a result: rethrow or continue. *)
Definition lift {S A} (r : result A) : M S A := fun s => (r, s).

(** Run inside a component of the state. *)
Definition zoom {S T A} (proj : S -> T) (inj : T -> S -> S) (m : M T A) : M S A :=
  fun s => match m (proj s) with (r, t) => (r, inj t s) end.

Definition exec {S A} (m : M S A) (s : S) : S := snd (m s).

Definition eval {S A} (m : M S A) (s : S) : result A := fst (m s).

End Eff.
Import Eff.

#[global] Instance M_ret {S} : MRet (M S) := fun A a => ret a.
#[global] Instance M_bind {S} : MBind (M S) := fun A B f m => bind m f.

(** ** [src/App.js]: constants and helpers *)

Definition API_BASE_URL : string := "https://meddata-backend.onrender.com".

Definition console_warn (msg : string) : M World unit :=
  modify (with_log (Warned msg)).

Definition console_error (msg : string) (e : exn) : M World unit :=
  modify (with_log (Errored msg e)).

(** [await fetch(url, options)]: the call is recorded, the promise
    resolves to the status and body of a response or rejects. *)
Definition fetch (url : string) (options : json) : M World (Z * string) :=
  fun w =>
    let w' := with_request (url, options) w in
    match network w (length (requests w)) url options with
    | Rejected e => (Throw e, w')
    | Response status body => (Ok (status, body), w')
    end.

(** [await response.json()] *)
Definition response_json (body : string) : M World json := lift (JSON_parse body).

(** [await new Promise(resolve => setTimeout(resolve, delay))] *)
Definition sleep (delay : Z) : M World unit := modify (with_timer delay).

(** How one turn of a loop body ends: by [return], or by falling through. *)
Inductive completion (A : Type) : Type :=
| Return (a : A)
| Normal.

Arguments Return {A} a.
Arguments Normal {A}.

(** One turn of the loop of [fetchWithRetry], at counter [i]. *)
Definition attempt (url : string) (options : json) (retries i : Z)
  : M World (completion json) :=
  try_catch
    (response ← fetch url options;
     if negb (ok (fst response)) then throw (HttpError (fst response))
     else data ← response_json (snd response); mret (Return data))
    (fun error =>
       if (i =? retries - 1)%Z then throw error
       else
         let delay := (2 ^ i * 1000)%Z in
         console_warn ("Request failed. Retrying in "
                       ++ string_of_Z (delay / 1000) ++ "s...");;
         sleep delay;;
         mret Normal).

(** [for (let i = 0; i < retries; i++)] from counter [i] on. The
    recursion is on [fuel], an upper bound of the turns still to come;
    [fetchWithRetry] starts it with the budget itself, and then the
    guard [i < retries] fails no later than the fuel runs out. Leaving
    the loop, the function returns [undefined]. *)
Fixpoint retry_loop (fuel : nat) (url : string) (options : json)
    (retries i : Z) : M World (option json) :=
  match fuel with
  | O => mret None
  | S k =>
      if (i <? retries)%Z then
        c ← attempt url options retries i;
        match c with
        | Return data => mret (Some data)
        | Normal => retry_loop k url options retries (i + 1)%Z
        end
      else mret None
  end.

Definition fetchWithRetry (url : string) (options : json) (retries : Z)
  : M World (option json) :=
  retry_loop (Z.to_nat retries) url options retries 0%Z.

(** A call with the URL alone, as every call site has it: the
    defaults [options = {}] and [retries = 3] apply. *)
Definition fetchWithRetry_default (url : string) : M World (option json) :=
  fetchWithRetry url (JObj []) 3%Z.

(** *** [fetchWithRetry], split at its first [await]

    A caller that awaits [fetchWithRetry(url)] runs on while the first
    request is under way. Up to its first [await] the function has
    entered the loop, if the budget lets it, and has called [fetch]: the
    request is made. What follows, from the settling of that call on, runs
    when the caller resumes. *)

(** [fetch(url, options)] up to the promise it returns: the call is
    recorded, and its number among the calls is what is awaited. *)
Definition fetch_begin (url : string) (options : json) : M World nat :=
  fun w => (Ok (length (requests w)), with_request (url, options) w).

(** [await] on the promise of the [n]-th call. *)
Definition fetch_resume (n : nat) (url : string) (options : json)
  : M World (Z * string) :=
  fun w =>
    match network w n url options with
    | Rejected e => (Throw e, w)
    | Response status body => (Ok (status, body), w)
    end.

(** The turn of the loop at counter [i], from the settling of its call
    of [fetch] on. *)
Definition attempt_resume (url : string) (options : json) (retries i : Z)
    (n : nat) : M World (completion json) :=
  try_catch
    (response ← fetch_resume n url options;
     if negb (ok (fst response)) then throw (HttpError (fst response))
     else data ← response_json (snd response); mret (Return data))
    (fun error =>
       if (i =? retries - 1)%Z then throw error
       else
         let delay := (2 ^ i * 1000)%Z in
         console_warn ("Request failed. Retrying in "
                       ++ string_of_Z (delay / 1000) ++ "s...");;
         sleep delay;;
         mret Normal).

(** [fetchWithRetry] up to its first [await]: the number of the call it
    waits for, or nothing when the loop is not entered. *)
Definition fetchWithRetry_begin (url : string) (options : json) (retries : Z)
  : M World (option nat) :=
  if (0 <? retries)%Z then n ← fetch_begin url options; mret (Some n)
  else mret None.

(** [fetchWithRetry] from its first [await] on. *)
Definition fetchWithRetry_resume (url : string) (options : json) (retries : Z)
    (call : option nat) : M World (option json) :=
  match call with
  | Some n =>
      c ← attempt_resume url options retries 0%Z n;
      match c with
      | Return data => mret (Some data)
      | Normal => retry_loop (Z.to_nat retries - 1) url options retries 1%Z
      end
  | None => mret None
  end.

Definition fetchWithRetry_default_begin (url : string) : M World (option nat) :=
  fetchWithRetry_begin url (JObj []) 3%Z.

Definition fetchWithRetry_default_resume (url : string) (call : option nat)
  : M World (option json) :=
  fetchWithRetry_resume url (JObj []) 3%Z call.

Definition getBookings : M World json :=
  try_catch
    (w ← get;
     stored ← lift (getItem "bookings" (localStorage w));
     match stored with
     | Some text =>
         if negb (String.eqb text "") then lift (JSON_parse text)
         else mret (JArr [])
     | None => mret (JArr [])
     end)
    (fun error =>
       console_error "Error retrieving bookings:" error;;
       mret (JArr [])).

Definition saveBookings (bookings : json) : M World unit :=
  try_catch
    (text ← lift (JSON_stringify bookings);
     w ← get;
     st ← lift (setItem "bookings" text (localStorage w));
     modify (with_storage st))
    (fun error => console_error "Error saving bookings:" error).

(** ** [src/App.js]: the [App] component *)

Module Loading.

(** The object held by [isLoading]. *)
Record flags : Type := {
  states : bool;
  cities : bool;
  hospitals : bool
}.

Definition set_states (b : bool) (prev : flags) : flags :=
  {| states := b; cities := cities prev; hospitals := hospitals prev |}.

Definition set_cities (b : bool) (prev : flags) : flags :=
  {| states := states prev; cities := b; hospitals := hospitals prev |}.

Definition set_hospitals (b : bool) (prev : flags) : flags :=
  {| states := states prev; cities := cities prev; hospitals := b |}.

End Loading.

Module App.

(** The state variables of the component that the controller and the
    booking handlers use ([route] and [mobileMenuOpen] only serve the
    navigation bar). *)
Record State : Type := {
  states : list (option json);
  cities : list json;
  selectedState : option string;
  selectedCity : option string;
  searchResults : list json;
  bookings : json;
  bookingHospital : option json;
  isLoading : Loading.flags
}.

(** A call suspended at [await fetchWithRetry(url)], with the values
    its closure holds. *)
Inductive task : Type :=
| FetchStates
| FetchCities (selectedState : string)
| SearchHospitals (selectedState selectedCity : string).

(** The component in its browser, with the calls in flight: each
    suspended call with the number of the call of [fetch] that it waits
    for. *)
Record System : Type := {
  ui : State;
  world : World;
  pending : list (task * option nat)
}.

Definition with_ui (f : State -> State) (s : System) : System :=
  {| ui := f (ui s); world := world s; pending := pending s |}.

Definition with_world (w : World) (s : System) : System :=
  {| ui := ui s; world := w; pending := pending s |}.

Definition with_pending (f : list (task * option nat) -> list (task * option nat))
    (s : System) : System :=
  {| ui := ui s; world := world s; pending := f (pending s) |}.

(** The state setters. *)
Definition setStates (v : list (option json)) : M System unit :=
  modify (with_ui (fun a =>
    {| states := v; cities := cities a; selectedState := selectedState a;
       selectedCity := selectedCity a; searchResults := searchResults a;
       bookings := bookings a; bookingHospital := bookingHospital a;
       isLoading := isLoading a |})).

Definition setCities (v : list json) : M System unit :=
  modify (with_ui (fun a =>
    {| states := states a; cities := v; selectedState := selectedState a;
       selectedCity := selectedCity a; searchResults := searchResults a;
       bookings := bookings a; bookingHospital := bookingHospital a;
       isLoading := isLoading a |})).

Definition setSelectedState (v : option string) : M System unit :=
  modify (with_ui (fun a =>
    {| states := states a; cities := cities a; selectedState := v;
       selectedCity := selectedCity a; searchResults := searchResults a;
       bookings := bookings a; bookingHospital := bookingHospital a;
       isLoading := isLoading a |})).

Definition setSelectedCity (v : option string) : M System unit :=
  modify (with_ui (fun a =>
    {| states := states a; cities := cities a; selectedState := selectedState a;
       selectedCity := v; searchResults := searchResults a;
       bookings := bookings a; bookingHospital := bookingHospital a;
       isLoading := isLoading a |})).

Definition setSearchResults (v : list json) : M System unit :=
  modify (with_ui (fun a =>
    {| states := states a; cities := cities a; selectedState := selectedState a;
       selectedCity := selectedCity a; searchResults := v;
       bookings := bookings a; bookingHospital := bookingHospital a;
       isLoading := isLoading a |})).

Definition setBookings (v : json) : M System unit :=
  modify (with_ui (fun a =>
    {| states := states a; cities := cities a; selectedState := selectedState a;
       selectedCity := selectedCity a; searchResults := searchResults a;
       bookings := v; bookingHospital := bookingHospital a;
       isLoading := isLoading a |})).

Definition setBookingHospital (v : option json) : M System unit :=
  modify (with_ui (fun a =>
    {| states := states a; cities := cities a; selectedState := selectedState a;
       selectedCity := selectedCity a; searchResults := searchResults a;
       bookings := bookings a; bookingHospital := v;
       isLoading := isLoading a |})).

(** [setIsLoading(prev => ...)] *)
Definition setIsLoading (f : Loading.flags -> Loading.flags) : M System unit :=
  modify (with_ui (fun a =>
    {| states := states a; cities := cities a; selectedState := selectedState a;
       selectedCity := selectedCity a; searchResults := searchResults a;
       bookings := bookings a; bookingHospital := bookingHospital a;
       isLoading := f (isLoading a) |})).

(** A helper runs in the browser of the system. *)
Definition browser {A} (m : M World A) : M System A := zoom world with_world m.

(** Suspend at an [await]: the call joins those in flight. *)
Definition await (t : task) (call : option nat) : M System unit :=
  modify (with_pending (fun l => (l ++ [(t, call)])%list)).

(** [!v] for a state variable holding [null] or a string. *)
Definition falsy (v : option string) : bool :=
  match v with
  | Some s => String.eqb s ""
  | None => true
  end.

(** [data.map(f)]: [data] has to be an array. *)
Definition array_map {B} (f : json -> result B) (data : option json)
  : result (list B) :=
  match data with
  | Some (JArr l) =>
      foldr (fun x acc =>
               match f x with
               | Ok y => match acc with Ok ys => Ok (y :: ys) | Throw e => Throw e end
               | Throw e => Throw e
               end) (Ok []) l
  | _ => Throw TypeError
  end.

(** [data.sort()]: [data] has to be an array. *)
Definition array_sort (data : option json) : result (list json) :=
  match data with
  | Some (JArr l) => Ok (Js.sort l)
  | _ => Throw TypeError
  end.

(** The URLs of the three requests. *)
Definition states_url : string := API_BASE_URL ++ "/states".

Definition cities_url (selectedState : string) : string :=
  API_BASE_URL ++ "/cities/" ++ encodeURIComponent selectedState.

Definition hospitals_url (selectedState selectedCity : string) : string :=
  API_BASE_URL ++ "/data?state=" ++ encodeURIComponent selectedState
  ++ "&city=" ++ encodeURIComponent selectedCity.

(** *** Stage 1: the states, fetched once on mount *)

Definition fetchStates_begin : M System unit :=
  setIsLoading (Loading.set_states true);;
  call ← browser (fetchWithRetry_default_begin states_url);
  await FetchStates call.

Definition fetchStates_resume (call : option nat) : M System unit :=
  try_finally
    (try_catch
       (data ← browser (fetchWithRetry_default_resume states_url call);
        l ← lift (array_map (fun item => get_prop item "state") data);
        setStates (sort_holes l))
       (fun e => browser (console_error "Failed to fetch states:" e)))
    (setIsLoading (Loading.set_states false)).

(** *** Stage 2: the cities, fetched when the selected state changes *)

Definition fetchCities_begin (selectedState : string) : M System unit :=
  setIsLoading (Loading.set_cities true);;
  setCities [];;
  setSelectedCity None;;
  setSearchResults [];;
  let url := cities_url selectedState in
  call ← browser (fetchWithRetry_default_begin url);
  await (FetchCities selectedState) call.

Definition fetchCities_resume (selectedState : string) (call : option nat)
  : M System unit :=
  try_finally
    (try_catch
       (let url := cities_url selectedState in
        data ← browser (fetchWithRetry_default_resume url call);
        l ← lift (array_sort data);
        setCities l)
       (fun e => browser (console_error "Failed to fetch cities:" e)))
    (setIsLoading (Loading.set_cities false)).

(** The effect with dependency [selectedState]. *)
Definition selectedState_effect (selectedState : option string) : M System unit :=
  match selectedState with
  | Some s =>
      if String.eqb s "" then
        setCities [];; setSelectedCity None;; setSearchResults []
      else fetchCities_begin s
  | None =>
      setCities [];; setSelectedCity None;; setSearchResults []
  end.

(** *** Stage 3: the hospitals, fetched on demand *)

(** The object literal built for each hospital of the response. *)
Definition project (hospital : json) : result json :=
  match get_prop hospital "Hospital Name" with
  | Throw e => Throw e
  | Ok name =>
    match get_prop hospital "City" with
    | Throw e => Throw e
    | Ok city =>
      match get_prop hospital "State" with
      | Throw e => Throw e
      | Ok state =>
        match get_prop hospital "Hospital Type" with
        | Throw e => Throw e
        | Ok type =>
          match get_prop hospital "Hospital overall rating" with
          | Throw e => Throw e
          | Ok rating =>
              Ok (JObj [("Hospital Name", or_else name (JStr ""));
                        ("City", or_else city (JStr ""));
                        ("State", or_else state (JStr ""));
                        ("Hospital Type", or_else type (JStr ""));
                        ("Hospital overall rating", or_else rating (JStr ""))])
          end
        end
      end
    end
  end.

(** [h => h['Hospital Name']] as a filter predicate. *)
Definition has_name (h : json) : bool :=
  match get_prop h "Hospital Name" with
  | Ok v => truthy_opt v
  | Throw _ => false
  end.

Definition handleSearch_begin : M System unit :=
  s ← get;
  match selectedState (ui s), selectedCity (ui s) with
  | Some st, Some ct =>
      if String.eqb st "" || String.eqb ct "" then mret tt
      else
        setIsLoading (Loading.set_hospitals true);;
        setSearchResults [];;
        let url := hospitals_url st ct in
        call ← browser (fetchWithRetry_default_begin url);
        await (SearchHospitals st ct) call
  | _, _ => mret tt
  end.

Definition handleSearch_resume (selectedState selectedCity : string)
    (call : option nat) : M System unit :=
  try_finally
    (try_catch
       (let url := hospitals_url selectedState selectedCity in
        data ← browser (fetchWithRetry_default_resume url call);
        projected ← lift (array_map project data);
        let filteredData := List.filter has_name projected in
        setSearchResults filteredData)
       (fun e =>
          browser (console_error "Failed to fetch hospitals:" e);;
          setSearchResults []))
    (setIsLoading (Loading.set_hospitals false)).

(** *** Bookings *)

Definition openBookingModal (hospital : json) : M System unit :=
  setBookingHospital (Some hospital).

Definition closeBookingModal : M System unit := setBookingHospital None.

(** [[...v]]: arrays spread to their elements, strings to their
    characters, nothing else in JSON is iterable. *)
Definition spread (v : json) : result (list json) :=
  match v with
  | JArr l => Ok l
  | JStr s => Ok (map (fun c => JStr (String c "")) (list_ascii_of_string s))
  | _ => Throw TypeError
  end.

(** [l.filter((_, i) => i !== index)], the positions counted from [i]. *)
Fixpoint remove_index (i index : nat) (l : list json) : list json :=
  match l with
  | [] => []
  | x :: rest =>
      if Nat.eqb i index then remove_index (S i) index rest
      else x :: remove_index (S i) index rest
  end.

Definition handleBook (newBooking : json) : M System unit :=
  s ← get;
  l ← lift (spread (bookings (ui s)));
  let updatedBookings := JArr (l ++ [newBooking])%list in
  setBookings updatedBookings;;
  browser (saveBookings updatedBookings).

Definition handleCancelBooking (index : nat) : M System unit :=
  s ← get;
  match bookings (ui s) with
  | JArr l =>
      let updatedBookings := JArr (remove_index 0 index l) in
      setBookings updatedBookings;;
      browser (saveBookings updatedBookings)
  | _ => throw TypeError
  end.

(** *** The component over time *)

(** The first render and the effects that follow it: [bookings] starts
    from the store, the states are requested, and the effect on
    [selectedState] runs for [null]. *)
Definition mount (w : World) : System :=
  match getBookings w with
  | (r, w') =>
      let start :=
        {| ui := {| states := []; cities := []; selectedState := None;
                    selectedCity := None; searchResults := [];
                    bookings := match r with Ok v => v | Throw _ => JArr [] end;
                    bookingHospital := None;
                    isLoading := {| Loading.states := false;
                                    Loading.cities := false;
                                    Loading.hospitals := false |} |};
           world := w'; pending := [] |} in
      exec (fetchStates_begin;; selectedState_effect None) start
  end.

Inductive event : Type :=
| SelectState (v : option string)
| SelectCity (v : option string)
| ClickSearch
| Settle (k : nat)
| OpenModal (hospital : json)
| CloseModal
| Book (newBooking : json)
| CancelBooking (index : nat).

Definition same (a b : option string) : bool :=
  match a, b with
  | Some x, Some y => String.eqb x y
  | None, None => true
  | _, _ => false
  end.

(** The continuation of a suspended call. *)
Definition resume (t : task) (call : option nat) : M System unit :=
  match t with
  | FetchStates => fetchStates_resume call
  | FetchCities s => fetchCities_resume s call
  | SearchHospitals s c => handleSearch_resume s c call
  end.

(** [disabled={!selectedState || !selectedCity || isLoading.hospitals}] *)
Definition search_disabled (a : State) : bool :=
  falsy (selectedState a) || falsy (selectedCity a)
  || Loading.hospitals (isLoading a).

(** One event handled to completion. A state setter called with the
    value already held changes nothing and runs no effect; an effect
    runs straight after the update it depends on, and a handler or an
    effect that fetches has made its request when it suspends. A call in
    flight resumes when it settles, whatever happened meanwhile. *)
Definition step (e : event) (s : System) : System :=
  match e with
  | SelectState v =>
      if same v (selectedState (ui s)) then s
      else exec (setSelectedState v;; selectedState_effect v) s
  | SelectCity v => exec (setSelectedCity v) s
  | ClickSearch =>
      if search_disabled (ui s) then s else exec handleSearch_begin s
  | Settle k =>
      match pending s !! k with
      | Some (t, call) => exec (resume t call) (with_pending (delete k) s)
      | None => s
      end
  | OpenModal h => exec (openBookingModal h) s
  | CloseModal => exec closeBookingModal s
  | Book b => exec (handleBook b) s
  | CancelBooking i => exec (handleCancelBooking i) s
  end.

Definition run (es : list event) (s : System) : System :=
  fold_left (fun s e => step e s) es s.

End App.
Import App.

(** ** Vocabulary of the statements *)

(** What the [try] block of [fetchWithRetry] makes of the [k]-th call of
    [fetch]: the parsed body of a successful response, or the failure. *)
Definition answer (w : World) (k : nat) (url : string) (options : json)
  : result json :=
  match network w k url options with
  | Rejected e => Throw e
  | Response status body =>
      if ok status then JSON_parse body else Throw (HttpError status)
  end.

(** A text is followed by a delimiter of the JSON grammar, or by nothing. *)
Definition delimited (s : string) : bool :=
  match s with
  | EmptyString => true
  | String c _ => Ascii.eqb c "," || Ascii.eqb c "]" || Ascii.eqb c "}"
  end.

(** The printer and the parser agree on [x], whatever follows it. *)
Definition roundtrips (x : json) : Prop :=
  forall fuel rest,
    wf x = true -> size x <= fuel -> delimited rest = true ->
    parse_value fuel (stringify x ++ rest) = Some (x, rest).

(** The projection of stage 3 on the properties of an object. *)
Definition project_props (h : list (string * json)) : json :=
  JObj [("Hospital Name", or_else (assoc "Hospital Name" h) (JStr ""));
        ("City", or_else (assoc "City" h) (JStr ""));
        ("State", or_else (assoc "State" h) (JStr ""));
        ("Hospital Type", or_else (assoc "Hospital Type" h) (JStr ""));
        ("Hospital overall rating",
         or_else (assoc "Hospital overall rating" h) (JStr ""))].

(** The name of a hospital is there and truthy. *)
Definition named (h : list (string * json)) : bool :=
  truthy_opt (assoc "Hospital Name" h).

(** The five-field projection in the words of the specification: a
    missing field becomes the empty string, a field that is there is kept. *)
Definition spec_default (o : option json) : json :=
  match o with
  | Some v => v
  | None => JStr ""
  end.

Definition spec_project (h : list (string * json)) : json :=
  JObj [("Hospital Name", spec_default (assoc "Hospital Name" h));
        ("City", spec_default (assoc "City" h));
        ("State", spec_default (assoc "State" h));
        ("Hospital Type", spec_default (assoc "Hospital Type" h));
        ("Hospital overall rating",
         spec_default (assoc "Hospital overall rating" h))].

(** The filter in the words of the specification: the name field is
    neither missing nor empty. *)
Definition spec_named (h : list (string * json)) : bool :=
  match assoc "Hospital Name" h with
  | None => false
  | Some (JStr s) => negb (String.eqb s "")
  | Some _ => true
  end.

Definition spec_results (hs : list (list (string * json))) : list json :=
  map spec_project (List.filter spec_named hs).

(** ** Sample data *)

Definition empty_storage : Storage :=
  {| items := ∅; quota := 5000; denied := false |}.

(** A storage without room, as in a private window. *)
Definition full_storage : Storage :=
  {| items := ∅; quota := 0; denied := false |}.

Definition offline (e : exn) : nat -> string -> json -> outcome :=
  fun _ _ _ => Rejected e.

(** Two transport failures, then the body for good. *)
Definition flaky (body : string) : nat -> string -> json -> outcome :=
  fun n _ _ =>
    if (n <? 2)%nat then Rejected (NetworkError "Failed to fetch")
    else Response 200 body.

(** The two records that the sample server knows for Austin. *)
Definition austin_records : list (list (string * json)) :=
  [[("Hospital Name", JStr "Austin General"); ("City", JStr "Austin");
    ("State", JStr "TX"); ("Hospital Type", JStr "Acute Care");
    ("Hospital overall rating", JNum 0)];
   [("City", JStr "Austin"); ("State", JStr "TX")]].

(** A server that knows two states. *)
Definition meddata : nat -> string -> json -> outcome :=
  fun _ url _ =>
    if String.eqb url states_url then
      Response 200
        (stringify (JArr [JObj [("state", JStr "Texas")];
                          JObj [("state", JStr "Alabama")]]))
    else if String.eqb url (cities_url "Texas") then
      Response 200 (stringify (JArr [JStr "Dallas"; JStr "Austin"]))
    else if String.eqb url (cities_url "Alabama") then
      Response 200 (stringify (JArr [JStr "Mobile"]))
    else if String.eqb url (hospitals_url "Texas" "Austin") then
      Response 200 (stringify (JArr (map JObj austin_records)))
    else Response 404 "Not Found".

Definition fresh_world (st : Storage) (net : nat -> string -> json -> outcome)
  : World :=
  {| localStorage := st; network := net; requests := []; timers := [];
     console := [] |}.

Definition austin_general : json :=
  JObj [("Hospital Name", JStr "Austin General"); ("City", JStr "Austin");
        ("State", JStr "TX"); ("Hospital Type", JStr "Acute Care");
        ("Hospital overall rating", JNum 3)].

Definition sample_booking : json :=
  JObj (obj_set "bookingTime" (JStr "02:00 PM")
          (obj_set "bookingDate" (JStr "2026-11-04")
             (match austin_general with JObj ps => ps | _ => [] end))).

(** A session: Texas is selected and its cities arrive, then Austin
    is selected. *)
Definition ready : System :=
  run [SelectState (Some "Texas"); Settle 1; SelectCity (Some "Austin")]
      (mount (fresh_world empty_storage meddata)).

(** The session with its search started and still in flight. *)
Definition searching : System := step ClickSearch ready.

(** The session with the result of its search. *)
Definition searched : System := step (Settle 1) searching.

(** The session after its search, with one booking made. *)
Definition booked : System := step (Book sample_booking) searched.

(** The searching session, the connection lost before the answer. *)
Definition cut_off : System :=
  with_world
    {| localStorage := localStorage (world searching);
       network := offline (NetworkError "Failed to fetch");
       requests := requests (world searching);
       timers := timers (world searching);
       console := console (world searching) |}
    searching.

(** A session in which Alabama is selected while the search for Austin
    is still in flight. *)
Definition abandoned : System :=
  step (SelectState (Some "Alabama")) searching.

(** A session in which Alabama is selected while the cities of Texas
    are still in flight, and the cities of Alabama arrive first. *)
Definition overtaken : System :=
  run [SelectState (Some "Texas"); SelectState (Some "Alabama"); Settle 2]
      (mount (fresh_world empty_storage meddata)).

(** The session once the states have arrived, nothing selected yet. *)
Definition loaded : System :=
  step (Settle 0) (mount (fresh_world empty_storage meddata)).

(** A storage whose slot holds JSON that is no array. *)
Definition null_storage : Storage :=
  {| items := <["bookings" := "null"]> ∅; quota := 5000; denied := false |}.

(** A storage that already holds a booking list. *)
Definition stocked_text : string := stringify (JArr [austin_general]).

Definition stocked_storage : Storage :=
  {| items := <["bookings" := stocked_text]> ∅; quota := 5000; denied := false |}.

(** The empty storage after a booking list has been saved. *)
Definition stored (l : list json) : Storage :=
  {| items := <["bookings" := stringify (JArr l)]> ∅; quota := 5000;
     denied := false |}.

(** ** [src/App.js]: the rest of the interface *)

Module Text.

(** [toLowerCase] on a code unit below 256: the capital letters of
    ASCII and of Latin-1 (not the multiplication sign) move up by 32. *)
Definition lower_char (c : ascii) : ascii :=
  let n := N_of_ascii c in
  if ((65 <=? n) && (n <=? 90)
      || (192 <=? n) && (n <=? 222) && negb (n =? 215))%N
  then ascii_of_N (n + 32) else c.

Fixpoint toLowerCase (s : string) : string :=
  match s with
  | EmptyString => ""
  | String c rest => String (lower_char c) (toLowerCase rest)
  end.

(** [s.includes(t)]: [t] starts at some position of [s]. *)
Fixpoint includes (s t : string) : bool :=
  match strip_prefix t s with
  | Some _ => true
  | None =>
      match s with
      | EmptyString => false
      | String _ rest => includes rest t
      end
  end.

End Text.
Import Text.

Module Dropdown.

(** The state of one dropdown. *)
Record State : Type := {
  isOpen : bool;
  searchTerm : string
}.

Definition initial : State := {| isOpen := false; searchTerm := "" |}.

(** The options on offer: the strings among [options] that contain the
    search term, case put aside. The array may hold [undefined]. *)
Definition filteredOptions (options : list (option json)) (searchTerm : string)
  : list (option json) :=
  List.filter
    (fun option =>
       match option with
       | Some (JStr s) => includes (toLowerCase s) (toLowerCase searchTerm)
       | _ => false
       end)
    options.

(** [onClick={() => setIsOpen(prev => !prev)}] *)
Definition toggle (d : State) : State :=
  {| isOpen := negb (isOpen d); searchTerm := searchTerm d |}.

(** [onChange={(e) => setSearchTerm(e.target.value)}] *)
Definition type (term : string) (d : State) : State :=
  {| isOpen := isOpen d; searchTerm := term |}.

(** The effect on [options]: a new list empties the search box. *)
Definition options_changed (d : State) : State :=
  {| isOpen := isOpen d; searchTerm := "" |}.

(** A click on the [i]-th item of the list. The list is there when the
    dropdown is open and its options are not loading; [handleSelect]
    hands the option to [onSelect] and closes the dropdown. *)
Definition click (options : list (option json)) (isLoading : bool)
    (i : nat) (d : State) : option (option json * State) :=
  if isOpen d && negb isLoading then
    match filteredOptions options (searchTerm d) !! i with
    | Some option => Some (option, {| isOpen := false; searchTerm := searchTerm d |})
    | None => None
    end
  else None.

End Dropdown.

(** ** The days of the booking modal

    [BookingModal] offers seven days, made with [new Date()],
    [getDate] and [setDate], and stores the one chosen as
    [toISOString().split('T')[0]]. A [Date] is its time value, the
    milliseconds since the epoch; the zone of the browser is the
    function [LocalTZA] of the language, the offset of local time at a
    time value that is UTC ([true]) or local ([false]). *)

Module Dates.

Local Open Scope Z_scope.

Definition msPerDay : Z := 86400000.

Definition Day (t : Z) : Z := t / msPerDay.

Definition TimeWithinDay (t : Z) : Z := t mod msPerDay.

(** The day numbered [z] from the epoch in the Gregorian calendar:
    year, month from 1 and day of the month. *)
Definition civil_from_days (z : Z) : Z * Z * Z :=
  let z := z + 719468 in
  let era := z / 146097 in
  let doe := z mod 146097 in
  let yoe := (doe - doe / 1460 + doe / 36524 - doe / 146096) / 365 in
  let doy := doe - (365 * yoe + yoe / 4 - yoe / 100) in
  let mp := (5 * doy + 2) / 153 in
  let d := doy - (153 * mp + 2) / 5 + 1 in
  let m := if mp <? 10 then mp + 3 else mp - 9 in
  let y := yoe + era * 400 in
  (if m <=? 2 then y + 1 else y, m, d).

(** The number of the day [d] of month [m] of year [y]; [d] may lie
    outside the month. *)
Definition days_from_civil (y m d : Z) : Z :=
  let y := if m <=? 2 then y - 1 else y in
  let era := y / 400 in
  let yoe := y mod 400 in
  let doy := (153 * (if 2 <? m then m - 3 else m + 9) + 2) / 5 + d - 1 in
  let doe := yoe * 365 + yoe / 4 - yoe / 100 + doy in
  era * 146097 + doe - 719468.

Definition YearFromTime (t : Z) : Z := fst (fst (civil_from_days (Day t))).

(** Months count from 0 in the language. *)
Definition MonthFromTime (t : Z) : Z := snd (fst (civil_from_days (Day t))) - 1.

Definition DateFromTime (t : Z) : Z := snd (civil_from_days (Day t)).

Definition MakeDay (year month date : Z) : Z :=
  days_from_civil (year + month / 12) (month mod 12 + 1) 1 + date - 1.

Definition MakeDate (day time : Z) : Z := day * msPerDay + time.

Definition LocalTime (LocalTZA : Z -> bool -> Z) (t : Z) : Z := t + LocalTZA t true.

Definition UTC (LocalTZA : Z -> bool -> Z) (t : Z) : Z := t - LocalTZA t false.

(** [date.getDate()] *)
Definition getDate (LocalTZA : Z -> bool -> Z) (tv : Z) : Z :=
  DateFromTime (LocalTime LocalTZA tv).

(** [date.setDate(dt)], the new time value. *)
Definition setDate (LocalTZA : Z -> bool -> Z) (tv dt : Z) : Z :=
  let t := LocalTime LocalTZA tv in
  let newDate := MakeDate (MakeDay (YearFromTime t) (MonthFromTime t) dt)
                          (TimeWithinDay t) in
  UTC LocalTZA newDate.

(** The time values that a [Date] can hold. *)
Definition in_range (t : Z) : Prop :=
  -8640000000000000 <= t <= 8640000000000000.

(** [dates]: for [i] from 0 to 6, a copy of [today] with
    [setDate(today.getDate() + i)]. *)
Definition dates (LocalTZA : Z -> bool -> Z) (today : Z) : list Z :=
  map (fun i => setDate LocalTZA today (getDate LocalTZA today + Z.of_nat i))
      (seq 0 7).

Local Open Scope string_scope.

(** A number that is not negative in at least [width] digits. *)
Definition pad (width : nat) (n : Z) : string :=
  let digits := string_of_Z n in
  string_of_list_ascii (repeat "0"%char (width - String.length digits))
  ++ digits.

(** The date part of [toISOString] for the day numbered [z]: four
    digits for the years from 0 to 9999, a sign and six digits for the
    others. *)
Definition iso_of_day (z : Z) : string :=
  match civil_from_days z with
  | (y, m, d) =>
      (if (0 <=? y)%Z && (y <=? 9999)%Z then pad 4 y
       else (if (y <? 0)%Z then "-" else "+") ++ pad 6 (Z.abs y))
      ++ "-" ++ pad 2 m ++ "-" ++ pad 2 d
  end.

(** [date.toISOString().split('T')[0]] for a time value in range. *)
Definition toISODate (tv : Z) : string := iso_of_day (Day tv).

End Dates.

Module BookingModal.

(** The state of the modal. The chosen day is held as the text that
    [toISOString().split('T')[0]] makes of it; a [Date] is always truthy. *)
Record State : Type := {
  selectedDate : string;
  selectedTimeSlot : option string
}.

(** The modal opens on the first day of its range, with no slot chosen. *)
Definition initial (today : string) : State :=
  {| selectedDate := today; selectedTimeSlot := None |}.

Definition timeSlots : list (string * list string) :=
  [("Morning", ["09:00 AM"; "10:00 AM"; "11:00 AM"]);
   ("Afternoon", ["01:00 PM"; "02:00 PM"; "03:00 PM"]);
   ("Evening", ["05:00 PM"; "06:00 PM"; "07:00 PM"])].

Definition setSelectedDate (day : string) (m : State) : State :=
  {| selectedDate := day; selectedTimeSlot := selectedTimeSlot m |}.

Definition setSelectedTimeSlot (slot : string) (m : State) : State :=
  {| selectedDate := selectedDate m; selectedTimeSlot := Some slot |}.

(** The own properties that [{...v}] copies: those of an object, the
    indexed elements of an array, the indexed characters of a string. *)
Definition own_props (v : json) : list (string * json) :=
  match v with
  | JObj ps => ps
  | JArr l => imap (fun i x => (string_of_Z (Z.of_nat i), x)) l
  | JStr s =>
      imap (fun i c => (string_of_Z (Z.of_nat i), JStr (String c "")))
           (list_ascii_of_string s)
  | _ => []
  end.

(** [{...hospital, bookingDate: formattedDate, bookingTime: selectedTimeSlot}] *)
Definition booking_record (hospital : json) (formattedDate slot : string) : json :=
  JObj (obj_set "bookingTime" (JStr slot)
          (obj_set "bookingDate" (JStr formattedDate) (own_props hospital))).

(** The handler of the confirm button, with [onBook] and [onClose] as
    the component passes them. *)
Definition handleBook (hospital : json) (m : State) : M System unit :=
  match selectedTimeSlot m with
  | Some slot =>
      if String.eqb slot "" then mret tt
      else
        App.handleBook (booking_record hospital (selectedDate m) slot);;
        closeBookingModal
  | None => mret tt
  end.

(** [disabled={!selectedDate || !selectedTimeSlot}] *)
Definition confirm_disabled (m : State) : bool := falsy (selectedTimeSlot m).

End BookingModal.

(** The confirm button of the modal, which is on the page while
    [bookingHospital] is truthy. *)
Definition confirm (m : BookingModal.State) (s : System) : System :=
  match bookingHospital (ui s) with
  | Some hospital =>
      if truthy hospital then exec (BookingModal.handleBook hospital m) s else s
  | None => s
  end.

Module Navigation.

Inductive Route : Type := Home | MyBookings.

(** The session history of the page: the path shown, the paths behind
    it and ahead of it, nearest first. *)
Record History : Type := {
  behind : list string;
  pathname : string;
  ahead : list string
}.

(** The state variables of [App] that serve the navigation bar, and the
    history of the window. *)
Record State : Type := {
  route : Route;
  mobileMenuOpen : bool;
  history : History
}.

(** [window.location.pathname === '/my-bookings' ? 'MyBookings' : 'Home'] *)
Definition route_of_path (path : string) : Route :=
  if String.eqb path "/my-bookings" then MyBookings else Home.

Definition path_of_route (newRoute : Route) : string :=
  match newRoute with
  | MyBookings => "/my-bookings"
  | Home => "/"
  end.

(** The first render. *)
Definition initial (h : History) : State :=
  {| route := route_of_path (pathname h); mobileMenuOpen := false; history := h |}.

(** [window.history.pushState({}, '', path)]: a new entry after the
    current one, those ahead are dropped. *)
Definition pushState (path : string) (h : History) : History :=
  {| behind := pathname h :: behind h; pathname := path; ahead := [] |}.

Definition navigate (newRoute : Route) (n : State) : State :=
  {| route := newRoute; mobileMenuOpen := false;
     history := pushState (path_of_route newRoute) (history n) |}.

(** [setMobileMenuOpen(!mobileMenuOpen)] *)
Definition toggle_menu (n : State) : State :=
  {| route := route n; mobileMenuOpen := negb (mobileMenuOpen n);
     history := history n |}.

(** [handlePopState], the listener of [popstate]. *)
Definition handlePopState (n : State) : State :=
  {| route := route_of_path (pathname (history n));
     mobileMenuOpen := mobileMenuOpen n; history := history n |}.

(** The back and forward buttons of the browser: the history moves by
    one entry and [popstate] fires; with no entry of the page on that
    side nothing of the page is left to run. *)
Definition back (n : State) : option State :=
  match behind (history n) with
  | [] => None
  | p :: rest =>
      Some (handlePopState
              {| route := route n; mobileMenuOpen := mobileMenuOpen n;
                 history := {| behind := rest; pathname := p;
                               ahead := pathname (history n) :: ahead (history n) |} |})
  end.

Definition forward (n : State) : option State :=
  match ahead (history n) with
  | [] => None
  | p :: rest =>
      Some (handlePopState
              {| route := route n; mobileMenuOpen := mobileMenuOpen n;
                 history := {| behind := pathname (history n) :: behind (history n);
                               pathname := p; ahead := rest |} |})
  end.

Inductive action : Type :=
| Navigate (newRoute : Route)
| ToggleMenu
| Back
| Forward.

(** One action of the user; a button of the browser that has nowhere to
    go leaves the page as it is. *)
Definition act (a : action) (n : State) : State :=
  match a with
  | Navigate r => navigate r n
  | ToggleMenu => toggle_menu n
  | Back => match back n with Some n' => n' | None => n end
  | Forward => match forward n with Some n' => n' | None => n end
  end.

End Navigation.

Module Render.

(** [v['Hospital Name'].toLowerCase()]: only a string has the method. *)
Definition title (v : json) : result string :=
  match get_prop v "Hospital Name" with
  | Ok (Some (JStr s)) => Ok (toLowerCase s)
  | Ok _ => Throw TypeError
  | Throw e => Throw e
  end.

Definition titles (l : list json) : result (list string) :=
  foldr (fun x acc =>
           match title x with
           | Ok t => match acc with Ok ts => Ok (t :: ts) | Throw e => Throw e end
           | Throw e => Throw e
           end) (Ok []) l.

(** The heading above the results of [HomePage]: their number and the
    selected city in lower case, when there are results. *)
Definition results_heading (a : App.State) : result (option (nat * string)) :=
  if (0 <? length (searchResults a))%nat then
    match selectedCity a with
    | Some c => Ok (Some (length (searchResults a), toLowerCase c))
    | None => Throw TypeError
    end
  else Ok None.

(** The titles of the hospital cards of [HomePage]. *)
Definition cards (a : App.State) : result (list string) :=
  titles (searchResults a).

(** Whether [HomePage] says that no medical centers were found. *)
Definition no_results_message (a : App.State) : bool :=
  (length (searchResults a) =? 0)%nat
  && negb (falsy (selectedCity a)) && negb (falsy (selectedState a))
  && negb (Loading.hospitals (isLoading a)).

(** The titles of the bookings of [MyBookingsPage]:
    [bookings.length === 0 ? ... : bookings.map(...)]. *)
Definition bookings_page (bookings : json) : result (list string) :=
  match bookings with
  | JArr l => titles l
  | JStr s => if String.eqb s "" then Ok [] else Throw TypeError
  | JObj ps =>
      match assoc "length" ps with
      | Some (JNum 0) => Ok []
      | _ => Throw TypeError
      end
  | _ => Throw TypeError
  end.

End Render.

(** ** More vocabulary *)

(** The first among [count] calls of [fetch], from the [n]-th on, that
    the [try] block of [fetchWithRetry] gets a body from: how many calls
    failed before it, and the body. *)
Fixpoint first_success (w : World) (url : string) (options : json)
    (n count : nat) : option (nat * json) :=
  match count with
  | O => None
  | S c =>
      match answer w n url options with
      | Ok v => Some (0%nat, v)
      | Throw _ =>
          match first_success w url options (S n) c with
          | Some (j, v) => Some (S j, v)
          | None => None
          end
      end
  end.

(** The delays of the first [m] retries, in milliseconds. *)
Definition backoff (m : nat) : list Z :=
  map (fun k => (2 ^ Z.of_nat k * 1000)%Z) (seq 0 m).

(** The warnings of the first [m] retries. *)
Definition warnings (m : nat) : list entry :=
  map (fun k => Warned ("Request failed. Retrying in "
                        ++ string_of_Z (2 ^ Z.of_nat k) ++ "s..."))
      (seq 0 m).

(** The error of a call that is known to fail. *)
Definition error_of (r : result json) : exn :=
  match r with
  | Throw e => e
  | Ok _ => TypeError
  end.

(** A storage with room for an empty booking list and little more. *)
Definition tight_storage : Storage :=
  {| items := ∅; quota := 20; denied := false |}.

(** A storage whose [bookings] slot holds JSON that is no array. *)
Definition odd_storage : Storage :=
  {| items := <["bookings" := stringify (JObj [("version", JNum 2)])]> ∅;
     quota := 5000; denied := false |}.

(** Neither an array nor a string: nothing that [[...v]] could spread. *)
Definition not_iterable (v : json) : bool :=
  match v with
  | JArr _ | JStr _ => false
  | _ => true
  end.

Definition is_array (v : json) : bool :=
  match v with
  | JArr _ => true
  | _ => false
  end.

(** What the handler of a response makes of the result of the fetch. *)
Definition handled {A} (f : option json -> result A) (r : result (option json))
  : result A :=
  match r with
  | Ok data => f data
  | Throw e => Throw e
  end.

Definition is_search (p : task * option nat) : bool :=
  match fst p with
  | SearchHospitals _ _ => true
  | _ => false
  end.

Definition is_states (p : task * option nat) : bool :=
  match fst p with
  | FetchStates => true
  | _ => false
  end.

(** The URL that a suspended call has asked. *)
Definition url_of (t : task) : string :=
  match t with
  | FetchStates => states_url
  | FetchCities s => cities_url s
  | SearchHospitals s c => hospitals_url s c
  end.

(** A call in flight asks for a state and a city that are not empty,
    and the call of [fetch] that it waits for is among the calls made,
    with its URL and no options. *)
Definition task_ok (w : World) (p : task * option nat) : Prop :=
  match fst p with
  | FetchStates => True
  | FetchCities s => s <> ""
  | SearchHospitals s c => s <> "" /\ c <> ""
  end
  /\ exists n, snd p = Some n
               /\ requests w !! n = Some (url_of (fst p), JObj []).

(** A value as the projection of stage 3 leaves it: truthy, or the
    empty string. *)
Definition defaulted (v : json) : Prop := truthy v = true \/ v = JStr "".

(** A search result as the hospital card expects it: the five fields in
    their order, and a name that is truthy. *)
Definition card_ready (h : json) : Prop :=
  exists name city state type rating,
    h = JObj [("Hospital Name", name); ("City", city); ("State", state);
              ("Hospital Type", type); ("Hospital overall rating", rating)]
    /\ truthy name = true
    /\ defaulted city /\ defaulted state /\ defaulted type /\ defaulted rating.

(** The states reached from a first render by the events of [step]. *)
Definition reachable (s : System) : Prop :=
  exists w es, s = run es (mount w).

(** The order of [Array.prototype.sort] without a comparator. *)
Definition string_order (x y : json) : Prop :=
  String.leb (to_string x) (to_string y) = true.

(** The properties of a response item, as the projection reads them. *)
Definition props_of (x : json) : list (string * json) :=
  match x with
  | JObj ps => ps
  | _ => []
  end.

Definition is_string (o : option json) : bool :=
  match o with
  | Some (JStr _) => true
  | _ => false
  end.

(** A first render at [/my-bookings], reached from the home page. *)
Definition deep_link : Navigation.State :=
  Navigation.initial
    {| Navigation.behind := ["/"]; Navigation.pathname := "/my-bookings";
       Navigation.ahead := [] |}.

(** A server whose records carry a number for a name. *)
Definition numbered : nat -> string -> json -> outcome :=
  fun _ _ _ => Response 200 (stringify (JArr [JObj [("Hospital Name", JNum 7)]])).

(** The code unit that a text produced by [encodeURIComponent] starts
    with, and the rest of the text: the reading that undoes one step of
    the encoding. *)
Definition decode_unit (s : string) : option (ascii * string) :=
  match s with
  | String "%" (String a (String b r)) =>
      match hex_val a, hex_val b with
      | Some x, Some y =>
          let n := (x * 16 + y)%N in
          if (n <? 128)%N then Some (ascii_of_N n, r)
          else
            match r with
            | String "%" (String a' (String b' r')) =>
                match hex_val a', hex_val b' with
                | Some x', Some y' =>
                    Some (ascii_of_N ((n - 192) * 64 + (x' * 16 + y' - 128)), r')
                | _, _ => None
                end
            | _ => None
            end
      | _, _ => None
      end
  | String c r => if unreserved c then Some (c, r) else None
  | EmptyString => None
  end.

(** A browser five hours behind UTC, half an hour before its midnight. *)
Definition behind_utc : Z -> bool -> Z := fun _ _ => (-18000000)%Z.

Definition late_evening : Z := 1762317000000%Z.

(** * Proofs *)

(** ** Strings *)

Lemma list_sum_cons a l : list_sum (a :: l) = a + list_sum l.
Proof. reflexivity. Qed.

Lemma app_String c s t : String c s ++ t = String c (s ++ t).
Proof. reflexivity. Qed.

Lemma app_empty_l (t : string) : "" ++ t = t.
Proof. reflexivity. Qed.

Lemma string_app_assoc (a b c : string) : (a ++ b) ++ c = a ++ (b ++ c).
Proof.
  induction a as [|x a IH]; [reflexivity|].
  rewrite !app_String, IH. reflexivity.
Qed.

Lemma parse_escape_char c t :
  parse_string_body (escape_char c ++ t) = cons_char c (parse_string_body t).
Proof.
  destruct c as [[] [] [] [] [] [] [] []]; reflexivity.
Qed.

Lemma parse_escape s rest :
  parse_string_body (escape s ++ String "034" rest) = Some (s, rest).
Proof.
  induction s as [|c s IH]; [reflexivity|].
  cbn [escape]. rewrite string_app_assoc, parse_escape_char, IH. reflexivity.
Qed.

Lemma parse_digits_uint u rest :
  (match rest with String c _ => is_digit c | EmptyString => false end) = false ->
  parse_digits (string_of_uint u ++ rest) = (u, rest).
Proof.
  intros Hr. induction u; cbn [string_of_uint];
    try (rewrite app_String; cbn [parse_digits digit_of_char]; rewrite IHu; reflexivity).
  change (parse_digits rest = (Nil, rest)). destruct rest as [|c r]; [reflexivity|].
  cbn [parse_digits]. unfold is_digit in Hr. destruct (digit_of_char c); [discriminate|reflexivity].
Qed.

Lemma nzhead_no_leading_zero d :
  match Decimal.nzhead d with D0 _ => False | _ => True end.
Proof. induction d; simpl; auto. Qed.

Lemma to_uint_unorm p : Pos.to_uint p = Decimal.unorm (Pos.to_uint p).
Proof.
  pose proof (DecimalPos.Unsigned.to_of (Pos.to_uint p)) as H.
  rewrite DecimalPos.Unsigned.of_to in H. exact H.
Qed.

Lemma leading_zero_to_uint p : leading_zero (Pos.to_uint p) = false.
Proof.
  rewrite to_uint_unorm. unfold Decimal.unorm.
  pose proof (nzhead_no_leading_zero (Pos.to_uint p)) as H.
  destruct (Decimal.nzhead (Pos.to_uint p)); try reflexivity. contradiction.
Qed.

Lemma delimited_no_digit rest :
  delimited rest = true ->
  (match rest with String c _ => is_digit c | EmptyString => false end) = false.
Proof.
  destruct rest as [|c r]; [reflexivity|]. cbn [delimited].
  destruct c as [[] [] [] [] [] [] [] []]; vm_compute; congruence.
Qed.

Lemma delimited_no_fraction rest :
  delimited rest = true -> starts_fraction rest = false.
Proof.
  destruct rest as [|c r]; [reflexivity|]. cbn [delimited starts_fraction].
  destruct c as [[] [] [] [] [] [] [] []]; vm_compute; congruence.
Qed.

Lemma string_of_uint_head u :
  u <> Nil ->
  exists c r, string_of_uint u = String c r /\ is_digit c = true.
Proof. destruct u; [congruence|..]; intros _; eexists _, _; split; reflexivity. Qed.

Lemma digit_not_minus c : is_digit c = true -> is_minus c = false.
Proof. destruct c as [[] [] [] [] [] [] [] []]; vm_compute; congruence. Qed.

Lemma digit_not_ws c : is_digit c = true -> is_ws c = false.
Proof. destruct c as [[] [] [] [] [] [] [] []]; vm_compute; congruence. Qed.

Lemma digit_not_bracket c : is_digit c = true -> Ascii.eqb c "]" = false.
Proof. destruct c as [[] [] [] [] [] [] [] []]; vm_compute; congruence. Qed.

Lemma parse_unsigned_pos p rest :
  delimited rest = true ->
  parse_unsigned (string_of_uint (Pos.to_uint p) ++ rest) = Some (Zpos p, rest).
Proof.
  intros Hd. unfold parse_unsigned.
  rewrite parse_digits_uint by (apply delimited_no_digit; exact Hd).
  rewrite leading_zero_to_uint, (delimited_no_fraction _ Hd).
  pose proof (DecimalPos.Unsigned.to_uint_nonnil p) as Hn.
  assert (Hz : Z.of_N (N.of_uint (Pos.to_uint p)) = Zpos p).
  { unfold N.of_uint. rewrite DecimalPos.Unsigned.of_to. reflexivity. }
  rewrite Hz. destruct (Pos.to_uint p); try reflexivity. congruence.
Qed.

Lemma parse_number_Z n rest :
  delimited rest = true ->
  parse_number (string_of_Z n ++ rest) = Some (n, rest).
Proof.
  intros Hd. destruct n as [|p|p]; cbn [string_of_Z].
  - rewrite app_String. cbn [parse_number]. change (is_minus "0") with false. cbv iota.
    unfold parse_unsigned. cbn [parse_digits digit_of_char].
    change ("" ++ rest) with rest.
    assert (Hp : parse_digits rest = (Nil, rest)).
    { apply (parse_digits_uint Nil). apply delimited_no_digit; exact Hd. }
    rewrite Hp. cbn [leading_zero orb]. rewrite (delimited_no_fraction _ Hd). reflexivity.
  - destruct (string_of_uint_head (Pos.to_uint p)) as (c & r & Hs & Hc);
      [apply DecimalPos.Unsigned.to_uint_nonnil|].
    pose proof (parse_unsigned_pos p rest Hd) as Hp.
    rewrite Hs in *. rewrite app_String in *. cbn [parse_number].
    rewrite (digit_not_minus _ Hc). exact Hp.
  - rewrite app_String. cbn [parse_number]. change (is_minus "-") with true. cbv iota.
    rewrite parse_unsigned_pos by exact Hd. reflexivity.
Qed.

Lemma string_of_Z_head n :
  exists c r, string_of_Z n = String c r /\ is_num_start c = true
              /\ is_ws c = false /\ Ascii.eqb c "]" = false.
Proof.
  destruct n as [|p|p]; cbn [string_of_Z].
  - eexists _, _; repeat split; reflexivity.
  - destruct (string_of_uint_head (Pos.to_uint p)) as (c & r & Hs & Hc);
      [apply DecimalPos.Unsigned.to_uint_nonnil|].
    exists c, r. unfold is_num_start. rewrite Hc, orb_true_r.
    auto using digit_not_ws, digit_not_bracket.
  - eexists _, _; repeat split; reflexivity.
Qed.

(** Induction on JSON values, through arrays and objects. *)
Lemma json_ind' (P : json -> Prop) :
  P JNull -> (forall b, P (JBool b)) -> (forall n, P (JNum n)) ->
  (forall s, P (JStr s)) ->
  (forall l, Forall P l -> P (JArr l)) ->
  (forall ps, Forall (fun kv => P (snd kv)) ps -> P (JObj ps)) ->
  forall v, P v.
Proof.
  intros Hnull Hbool Hnum Hstr Harr Hobj.
  fix IH 1.
  intros [ | b | n | s | l | ps ];
    [exact Hnull | apply Hbool | apply Hnum | apply Hstr | | ].
  - apply Harr. induction l as [|x l IHl]; constructor; [apply IH | exact IHl].
  - apply Hobj. induction ps as [|[k x] ps IHps]; constructor; [apply IH | exact IHps].
Qed.

Lemma stringify_arr l : stringify (JArr l) = "[" ++ stringify_elems l ++ "]".
Proof. reflexivity. Qed.

Lemma stringify_obj ps : stringify (JObj ps) = "{" ++ stringify_members ps ++ "}".
Proof. reflexivity. Qed.

Lemma stringify_head v :
  exists c r, stringify v = String c r /\ is_ws c = false /\ Ascii.eqb c "]" = false.
Proof.
  destruct v as [ | [] | n | s | l | ps ];
    try (eexists _, _; repeat split; reflexivity).
  destruct (string_of_Z_head n) as (c & r & Hs & _ & Hw & Hb).
  exists c, r. auto.
Qed.

Lemma obj_set_fresh k v ps :
  mem_string k (map fst ps) = false -> obj_set k v ps = (ps ++ [(k, v)])%list.
Proof.
  induction ps as [|[k' v'] ps IH]; [reflexivity|].
  cbn [map fst mem_string obj_set]. intros H.
  apply orb_false_iff in H as [H1 H2]. rewrite H1, IH by exact H2. reflexivity.
Qed.

Lemma mem_string_app k l1 l2 :
  mem_string k (l1 ++ l2)%list = mem_string k l1 || mem_string k l2.
Proof.
  induction l1 as [|x l1 IH]; [reflexivity|].
  cbn [app mem_string]. rewrite IH, orb_assoc. reflexivity.
Qed.

Lemma nodup_keys_app l1 l2 :
  nodup_keys (l1 ++ l2)%list = true ->
  nodup_keys l2 = true /\ forall k, mem_string k l1 = true -> mem_string k l2 = false.
Proof.
  induction l1 as [|x l1 IH]; cbn [app nodup_keys mem_string].
  - intros H; split; [exact H | discriminate].
  - intros H. apply andb_true_iff in H as [H1 H2].
    destruct (IH H2) as [Hn Hm]. split; [exact Hn|].
    intros k Hk. apply orb_true_iff in Hk as [Hk|Hk]; [|auto].
    apply String.eqb_eq in Hk as ->.
    rewrite mem_string_app in H1. apply negb_true_iff, orb_false_iff in H1. tauto.
Qed.

Lemma fold_obj_set acc ms :
  nodup_keys (map fst (acc ++ ms)%list) = true ->
  fold_left (fun a kv => obj_set (fst kv) (snd kv) a) ms acc = (acc ++ ms)%list.
Proof.
  revert acc. induction ms as [|[k v] ms IH]; intros acc H.
  - cbn. rewrite app_nil_r. reflexivity.
  - cbn [fold_left fst snd].
    assert (Hf : mem_string k (map fst acc) = false).
    { rewrite map_app in H. cbn [map fst] in H.
      destruct (mem_string k (map fst acc)) eqn:E; [|reflexivity].
      destruct (nodup_keys_app _ _ H) as [_ Hm].
      specialize (Hm k E). cbn [mem_string] in Hm. rewrite String.eqb_refl in Hm. discriminate. }
    rewrite (obj_set_fresh _ _ _ Hf).
    replace (acc ++ (k, v) :: ms)%list with ((acc ++ [(k, v)]) ++ ms)%list
      by (rewrite <- app_assoc; reflexivity).
    apply IH. rewrite <- app_assoc. exact H.
Qed.

Lemma obj_of_members_nodup ms :
  nodup_keys (map fst ms) = true -> obj_of_members ms = ms.
Proof. intros H. unfold obj_of_members. apply (fold_obj_set []). exact H. Qed.

Ltac fuel_lia :=
  cbn [size map snd] in *; unfold list_sum in *; cbn [map fold_right snd] in *; lia.

Lemma quote_app k t : quote k ++ t = String "034" (escape k ++ String "034" t).
Proof.
  unfold quote. rewrite !string_app_assoc. reflexivity.
Qed.

Lemma parse_elements_stringify l :
  l <> [] -> Forall roundtrips l ->
  forall fuel rest,
    forallb wf l = true ->
    list_sum (map (fun x => S (size x)) l) <= fuel ->
    parse_elements fuel (stringify_elems l ++ String "]" rest) = Some (l, rest).
Proof.
  intros Hne HF. induction HF as [|x l Hx HF IH]; [congruence|].
  intros fuel rest Hwf Hfuel. cbn [forallb] in Hwf. apply andb_true_iff in Hwf as [Hwx Hwl].
  destruct fuel as [|fuel]; [fuel_lia|]. cbn [parse_elements].
  destruct l as [|y l'].
  - cbn [stringify_elems]. rewrite Hx; [reflexivity | exact Hwx | fuel_lia | reflexivity].
  - change (stringify_elems (x :: y :: l'))
      with (stringify x ++ "," ++ stringify_elems (y :: l')).
    rewrite !string_app_assoc. rewrite app_String. rewrite ?app_empty_l.
    rewrite Hx; [ | exact Hwx | fuel_lia | reflexivity].
    change (skip_ws (String "," ?t)) with (String "," t). cbv iota beta.
    rewrite IH; [reflexivity | congruence | exact Hwl | fuel_lia].
Qed.

Lemma parse_members_stringify ps :
  ps <> [] -> Forall (fun kv => roundtrips (snd kv)) ps ->
  forall fuel rest,
    forallb (fun kv => wf (snd kv)) ps = true ->
    list_sum (map (fun kv => S (size (snd kv))) ps) <= fuel ->
    parse_members fuel (stringify_members ps ++ String "}" rest) = Some (ps, rest).
Proof.
  intros Hne HF. induction HF as [|[k x] ps Hx HF IH]; [congruence|].
  intros fuel rest Hwf Hfuel. cbn [forallb snd] in Hwf.
  apply andb_true_iff in Hwf as [Hwx Hwl].
  cbn [snd] in Hx.
  destruct fuel as [|fuel]; [fuel_lia|]. cbn [parse_members].
  destruct ps as [|[k' y] ps'].
  - cbn [stringify_members]. rewrite !string_app_assoc, quote_app.
    change (skip_ws (String "034" ?t)) with (String "034" t). cbv iota beta.
    rewrite parse_escape. rewrite app_String. rewrite ?app_empty_l.
    change (skip_ws (String ":" ?t)) with (String ":" t). cbv iota beta.
    rewrite Hx; [reflexivity | exact Hwx | fuel_lia | reflexivity].
  - change (stringify_members ((k, x) :: (k', y) :: ps'))
      with (quote k ++ ":" ++ stringify x ++ "," ++ stringify_members ((k', y) :: ps')).
    rewrite !string_app_assoc, quote_app.
    change (skip_ws (String "034" ?t)) with (String "034" t). cbv iota beta.
    rewrite parse_escape. rewrite !app_String. rewrite ?app_empty_l.
    change (skip_ws (String ":" ?t)) with (String ":" t). cbv iota beta.
    rewrite Hx; [ | exact Hwx | fuel_lia | reflexivity].
    change (skip_ws (String "," ?t)) with (String "," t). cbv iota beta.
    rewrite IH; [reflexivity | congruence | exact Hwl | fuel_lia].
Qed.

(** The parser reads a printed value back and stops right after it. *)
Lemma parse_value_stringify v : roundtrips v.
Proof.
  induction v as [ | b | n | s | l IHl | ps IHps ] using json_ind';
    intros fuel rest Hwf Hfuel Hd; (destruct fuel as [|fuel]; [fuel_lia|]).
  - reflexivity.
  - destruct b; reflexivity.
  - cbn [stringify parse_value].
    destruct (string_of_Z_head n) as (c & r & Hs & Hn & Hw & _).
    pose proof (parse_number_Z n rest Hd) as Hp.
    rewrite Hs in *. rewrite app_String in *. cbn [skip_ws]. rewrite Hw, Hn, Hp. reflexivity.
  - cbn [stringify]. rewrite quote_app. cbn [parse_value].
    change (skip_ws (String "034" ?t)) with (String "034" t). cbv iota beta.
    change (is_num_start "034") with false. cbv iota.
    rewrite parse_escape. reflexivity.
  - rewrite stringify_arr. rewrite !app_String. rewrite ?app_empty_l.
    rewrite string_app_assoc, app_String. rewrite ?app_empty_l.
    cbn [parse_value].
    change (skip_ws (String "[" ?t)) with (String "[" t). cbv iota beta.
    change (is_num_start "[") with false. cbv iota.
    destruct l as [|x l].
    + reflexivity.
    + destruct (stringify_head x) as (c & r & Hs & Hw & Hb).
      assert (He : exists t, stringify_elems (x :: l) = String c t).
      { destruct l; cbn [stringify_elems]; rewrite Hs; eexists; rewrite ?app_String; reflexivity. }
      destruct He as [t He].
      pose proof (parse_elements_stringify (x :: l) ltac:(congruence) IHl fuel rest) as Hp.
      rewrite He in *. rewrite app_String in *. cbn [skip_ws]. rewrite Hw, Hb.
      rewrite Hp; [reflexivity | exact Hwf | fuel_lia].
  - rewrite stringify_obj. rewrite !app_String. rewrite ?app_empty_l.
    rewrite string_app_assoc, app_String. rewrite ?app_empty_l.
    cbn [parse_value].
    change (skip_ws (String "{" ?t)) with (String "{" t). cbv iota beta.
    change (is_num_start "{") with false. cbv iota.
    cbn [wf] in Hwf. apply andb_true_iff in Hwf as [Hnd Hwf].
    destruct ps as [|[k x] ps].
    + reflexivity.
    + assert (He : exists t, stringify_members ((k, x) :: ps) = String "034" t).
      { destruct ps as [|[? ?] ?]; cbn [stringify_members]; rewrite quote_app; eexists; reflexivity. }
      destruct He as [t He].
      pose proof (parse_members_stringify ((k, x) :: ps) ltac:(congruence) IHps fuel rest) as Hp.
      rewrite He in *. rewrite app_String in *.
      change (skip_ws (String "034" ?t)) with (String "034" t). cbv iota beta.
      change (Ascii.eqb "034" "}") with false. cbv iota.
      rewrite Hp; [ | exact Hwf | fuel_lia].
      rewrite obj_of_members_nodup by exact Hnd. reflexivity.
Qed.

Lemma string_length_app (a b : string) :
  String.length (a ++ b) = String.length a + String.length b.
Proof.
  induction a as [|c a IH]; [reflexivity|].
  rewrite app_String. cbn [String.length]. rewrite IH. reflexivity.
Qed.

Lemma app_empty_r (a : string) : a ++ "" = a.
Proof. induction a as [|c a IH]; [reflexivity|]. rewrite app_String, IH. reflexivity. Qed.

Lemma length_quote k : String.length (quote k) = S (S (String.length (escape k))).
Proof.
  unfold quote. rewrite !string_length_app. change (String.length (String "034" "")) with 1. lia.
Qed.

Lemma size_le_length v : size v <= String.length (stringify v).
Proof.
  induction v as [ | b | n | s | l IHl | ps IHps ] using json_ind'.
  - cbn. lia.
  - destruct b; cbn; lia.
  - destruct (string_of_Z_head n) as (c & r & Hs & _).
    cbn [stringify size]. rewrite Hs. cbn [String.length]. lia.
  - cbn [stringify size]. rewrite length_quote. lia.
  - rewrite stringify_arr. rewrite !string_length_app.
    change (String.length "[") with 1. change (String.length "]") with 1.
    cbn [size].
    enough (list_sum (map (fun x => S (size x)) l)
            <= S (String.length (stringify_elems l))) by lia.
    induction IHl as [|x l Hx HF IH]; [cbn; lia|].
    destruct l as [|y l'].
    + cbn [stringify_elems]. fuel_lia.
    + change (stringify_elems (x :: y :: l'))
        with (stringify x ++ "," ++ stringify_elems (y :: l')).
      rewrite !string_length_app. change (String.length ",") with 1.
      rewrite map_cons, list_sum_cons. lia.
  - rewrite stringify_obj. rewrite !string_length_app.
    change (String.length "{") with 1. change (String.length "}") with 1.
    cbn [size].
    enough (list_sum (map (fun kv => S (size (snd kv))) ps)
            <= S (String.length (stringify_members ps))) by lia.
    induction IHps as [|[k x] ps Hx HF IH]; [cbn; lia|].
    cbn [snd] in Hx.
    destruct ps as [|[k' y] ps'].
    + cbn [stringify_members]. rewrite !string_length_app, length_quote.
      change (String.length ":") with 1. fuel_lia.
    + change (stringify_members ((k, x) :: (k', y) :: ps'))
        with (quote k ++ ":" ++ stringify x ++ "," ++ stringify_members ((k', y) :: ps')).
      rewrite !string_length_app, length_quote.
      change (String.length ",") with 1. change (String.length ":") with 1.
      rewrite map_cons, list_sum_cons. cbn [snd]. lia.
Qed.

(** [JSON.parse] reads back what [JSON.stringify] prints. *)
Lemma parse_stringify v : wf v = true -> parse (stringify v) = Some v.
Proof.
  intros Hwf. unfold parse.
  pose proof (parse_value_stringify v (S (String.length (stringify v))) "" Hwf) as H.
  rewrite app_empty_r in H. rewrite H; [reflexivity | | reflexivity].
  pose proof (size_le_length v). lia.
Qed.

(** ** The parser reads only JSON *)

Lemma digit_not_nil c d u : digit_of_char c = Some d -> d u <> Nil.
Proof.
  destruct c as [[] [] [] [] [] [] [] []]; cbn; intros H; try discriminate;
    injection H as <-; discriminate.
Qed.

Lemma parse_digits_skip s :
  snd (parse_digits s) = skip_digits s
  /\ (fst (parse_digits s) = Nil -> skip_digits s = s).
Proof.
  induction s as [|c s [IH1 IH2]]; [split; reflexivity|].
  cbn [parse_digits skip_digits]. unfold is_digit.
  destruct (digit_of_char c) as [d|] eqn:Hd; [|split; reflexivity].
  destruct (parse_digits s) as [u r]. cbn [fst snd] in *. split; [exact IH1|].
  intros H. exfalso. exact (digit_not_nil _ _ _ Hd H).
Qed.

Lemma no_fraction_lex r :
  starts_fraction r = false -> lex_frac r = Some r /\ lex_exp r = Some r.
Proof.
  destruct r as [|c r]; [split; reflexivity|]. cbn [starts_fraction lex_frac lex_exp].
  destruct (Ascii.eqb c "."), (Ascii.eqb c "e"), (Ascii.eqb c "E");
    try discriminate. split; reflexivity.
Qed.

Lemma parse_unsigned_lex s n r :
  parse_unsigned s = Some (n, r) ->
  lex_int s = Some r /\ lex_frac r = Some r /\ lex_exp r = Some r.
Proof.
  unfold parse_unsigned. destruct s as [|c s]; [discriminate|].
  cbn [parse_digits lex_int]. unfold is_digit.
  destruct (digit_of_char c) as [d|] eqn:Hd; [|discriminate].
  destruct (parse_digits_skip s) as [H1 H2].
  destruct (parse_digits s) as [u r']. cbn [fst snd] in *.
  pose proof (digit_not_nil _ _ u Hd) as Hn.
  destruct (d u) as [|u0|u0|u0|u0|u0|u0|u0|u0|u0|u0] eqn:Hdu; [contradiction| | | | | | | | | |];
    intros H;
    (destruct (leading_zero _) eqn:Hz; [discriminate|]);
    (destruct (starts_fraction r') eqn:Hf; [discriminate|]);
    injection H as _ <-;
    (split; [|exact (no_fraction_lex _ Hf)]).
  all: destruct (Ascii.eqb_spec c "0") as [->|Hc]; [|rewrite H1; reflexivity].
  all: cbn in Hd; injection Hd as <-.
  all: try discriminate Hdu.
  injection Hdu as ->. destruct u0; try discriminate Hz.
  rewrite H1, (H2 eq_refl). reflexivity.
Qed.

Lemma parse_number_lex s n r :
  parse_number s = Some (n, r) -> lex_number s = Some r.
Proof.
  unfold parse_number, lex_number. destruct s as [|c s]; [discriminate|].
  destruct (is_minus c).
  - destruct (parse_unsigned s) as [[n' r']|] eqn:E; [|discriminate].
    intros H. injection H as _ <-.
    destruct (parse_unsigned_lex _ _ _ E) as (-> & -> & ->). reflexivity.
  - intros E. destruct (parse_unsigned_lex _ _ _ E) as (-> & -> & ->). reflexivity.
Qed.

Lemma cons_char_some c o str r :
  cons_char c o = Some (str, r) -> exists str', o = Some (str', r).
Proof.
  destruct o as [[s' r']|]; [|discriminate]. cbn. intros H. injection H as _ <-. eauto.
Qed.

Lemma parse_string_body_lex n :
  forall s str r,
    (String.length s <= n)%nat ->
    parse_string_body s = Some (str, r) -> lex_string_body s = Some r.
Proof.
  induction n as [|n IH]; intros s str r Hlen H.
  - destruct s; [discriminate|cbn in Hlen; lia].
  - destruct s as [|c s]; [discriminate|]. cbn [String.length] in Hlen.
    cbn [parse_string_body lex_string_body] in *.
    destruct (Ascii.eqb c "034"); [injection H as _ <-; reflexivity|].
    destruct (Ascii.eqb c "\").
    + destruct s as [|e s]; [discriminate|]. cbn [String.length] in Hlen.
      destruct e as [[] [] [] [] [] [] [] []]; try discriminate H;
        try (apply cons_char_some in H as [str' H]; (eapply IH; [|exact H]; lia)).
      destruct s as [|h1 s]; [discriminate H|].
      destruct s as [|h2 s]; [discriminate H|].
      destruct s as [|h3 s]; [discriminate H|].
      destruct s as [|h4 s]; [discriminate H|].
      cbn [String.length] in Hlen.
      destruct (hex4 h1 h2 h3 h4) as [k|]; [|discriminate].
      destruct (k <? 256)%N; [|discriminate].
      apply cons_char_some in H as [str' H]. (eapply IH; [|exact H]; lia).
    + destruct (N_of_ascii c <? 32)%N; [discriminate|].
      apply cons_char_some in H as [str' H]. (eapply IH; [|exact H]; lia).
Qed.

Lemma parse_literal_lex lit v s v' r :
  parse_literal lit v s = Some (v', r) -> strip_prefix lit s = Some r.
Proof.
  unfold parse_literal. destruct (strip_prefix lit s); [|discriminate].
  intros H. injection H as _ <-. reflexivity.
Qed.

Lemma parse_fuel_valid fuel :
  (forall s v r, parse_value fuel s = Some (v, r) -> valid_value fuel s = Some r)
  /\ (forall s l r, parse_elements fuel s = Some (l, r) -> valid_elements fuel s = Some r)
  /\ (forall s ms r, parse_members fuel s = Some (ms, r) -> valid_members fuel s = Some r).
Proof.
  induction fuel as [|fuel (IHv & IHe & IHm)]; [repeat split; discriminate|].
  split; [|split].
  - intros s v r. cbn [parse_value valid_value].
    destruct (skip_ws s) as [|c t]; [discriminate|].
    destruct (is_num_start c).
    + destruct (parse_number (String c t)) as [[n r']|] eqn:E; [|discriminate].
      intros H. injection H as _ <-. exact (parse_number_lex _ _ _ E).
    + destruct c as [[] [] [] [] [] [] [] []]; try discriminate;
        lazymatch goal with
        | |- parse_literal _ _ _ = _ -> _ => apply parse_literal_lex
        | |- context [parse_string_body t] =>
            destruct (parse_string_body t) as [[str r']|] eqn:E; [|discriminate];
            intros H; injection H as _ <-;
            exact (parse_string_body_lex _ _ _ _ (le_n _) E)
        | |- context [parse_members] =>
            destruct (skip_ws t) as [|c1 t1]; [discriminate|];
            destruct (Ascii.eqb c1 "}"); [intros H; injection H as _ <-; reflexivity|];
            destruct (parse_members fuel (String c1 t1)) as [[ms r']|] eqn:E;
              [|discriminate];
            intros H; injection H as _ <-; exact (IHm _ _ _ E)
        | |- context [parse_elements] =>
            destruct (skip_ws t) as [|c1 t1]; [discriminate|];
            destruct (Ascii.eqb c1 "]"); [intros H; injection H as _ <-; reflexivity|];
            destruct (parse_elements fuel (String c1 t1)) as [[l r']|] eqn:E;
              [|discriminate];
            intros H; injection H as _ <-; exact (IHe _ _ _ E)
        end.
  - intros s l r. cbn [parse_elements valid_elements].
    destruct (parse_value fuel s) as [[v r1]|] eqn:E; [|discriminate].
    rewrite (IHv _ _ _ E).
    destruct (skip_ws r1) as [|c t]; [discriminate|].
    destruct c as [[] [] [] [] [] [] [] []]; try discriminate;
      first [ intros H; injection H as _ <-; reflexivity
            | destruct (parse_elements fuel t) as [[l' r']|] eqn:E'; [|discriminate];
              intros H; injection H as _ <-; exact (IHe _ _ _ E') ].
  - intros s ms r. cbn [parse_members valid_members].
    destruct (skip_ws s) as [|c t]; [discriminate|].
    destruct c as [[] [] [] [] [] [] [] []]; try discriminate.
    destruct (parse_string_body t) as [[k r1]|] eqn:Ek; [|discriminate].
    rewrite (parse_string_body_lex _ _ _ _ (le_n _) Ek).
    destruct (skip_ws r1) as [|c2 t2]; [discriminate|].
    destruct c2 as [[] [] [] [] [] [] [] []]; try discriminate.
    destruct (parse_value fuel t2) as [[v r3]|] eqn:Ev; [|discriminate].
    rewrite (IHv _ _ _ Ev).
    destruct (skip_ws r3) as [|c4 t4]; [discriminate|].
    destruct c4 as [[] [] [] [] [] [] [] []]; try discriminate;
      first [ intros H; injection H as _ <-; reflexivity
            | destruct (parse_members fuel t4) as [[ms' r']|] eqn:E'; [|discriminate];
              intros H; injection H as _ <-; exact (IHm _ _ _ E') ].
Qed.

(** A text that [parse] reads is JSON; so at a text that is not JSON
    the parser, like [JSON.parse], gives up. *)
Lemma parse_valid s v : parse s = Some v -> valid s = true.
Proof.
  unfold parse, valid.
  destruct (parse_value (S (String.length s)) s) as [[v' r]|] eqn:E; [|discriminate].
  rewrite (proj1 (parse_fuel_valid _) _ _ _ E).
  destruct (skip_ws r); [reflexivity|discriminate].
Qed.

Lemma not_valid_throws s : valid s = false -> JSON_parse s = Throw SyntaxError.
Proof.
  intros H. unfold JSON_parse. destruct (Json.parse s) as [v|] eqn:E; [|reflexivity].
  apply parse_valid in E. congruence.
Qed.

(** ** The helpers, unfolded *)

Lemma getBookings_unfold w :
  getBookings w =
  match getItem "bookings" (localStorage w) with
  | Ok (Some text) =>
      if String.eqb text "" then (Ok (JArr []), w)
      else
        match Json.parse text with
        | Some v => (Ok v, w)
        | None =>
            (Ok (JArr []),
             with_log (Errored "Error retrieving bookings:" SyntaxError) w)
        end
  | Ok None => (Ok (JArr []), w)
  | Throw e => (Ok (JArr []), with_log (Errored "Error retrieving bookings:" e) w)
  end.
Proof.
  unfold getBookings, try_catch, mbind, M_bind, bind, get, lift, JSON_parse.
  destruct (getItem "bookings" (localStorage w)) as [[text|]|e]; try reflexivity.
  destruct (String.eqb text ""); [reflexivity|]. cbn [negb].
  destruct (Json.parse text); reflexivity.
Qed.

Lemma saveBookings_unfold bookings w :
  saveBookings bookings w =
  match setItem "bookings" (stringify bookings) (localStorage w) with
  | Ok st => (Ok tt, with_storage st w)
  | Throw e => (Ok tt, with_log (Errored "Error saving bookings:" e) w)
  end.
Proof.
  unfold saveBookings, try_catch, mbind, M_bind, bind, get, lift, JSON_stringify.
  destruct (setItem "bookings" (stringify bookings) (localStorage w)); reflexivity.
Qed.

Lemma getItem_setItem k v st st' :
  setItem k v st = Ok st' -> getItem k st' = Ok (Some v).
Proof.
  unfold setItem, getItem. destruct (denied st); [discriminate|].
  destruct (_ <=? _)%nat; [|discriminate].
  intros [= <-]. cbn. rewrite lookup_insert_eq. reflexivity.
Qed.

Lemma attempt_unfold url options retries i w :
  attempt url options retries i w =
  let w1 := with_request (url, options) w in
  match answer w (length (requests w)) url options with
  | Ok data => (Ok (Return data), w1)
  | Throw e =>
      if (i =? retries - 1)%Z then (Throw e, w1)
      else
        (Ok Normal,
         with_timer (2 ^ i * 1000)%Z
           (with_log (Warned ("Request failed. Retrying in "
                              ++ string_of_Z ((2 ^ i * 1000) / 1000) ++ "s...")) w1))
  end.
Proof.
  unfold attempt, answer, try_catch, mbind, M_bind, bind, fetch, response_json,
    lift, throw, console_warn, sleep, modify, mret, M_ret, ret.
  destruct (network w (length (requests w)) url options) as [e|status body]; cbn [fst snd].
  - destruct (i =? retries - 1)%Z; reflexivity.
  - destruct (ok status); cbn [negb].
    + destruct (JSON_parse body); [reflexivity|].
      destruct (i =? retries - 1)%Z; reflexivity.
    + destruct (i =? retries - 1)%Z; reflexivity.
Qed.

Lemma answer_ext w1 w2 k url options :
  network w1 = network w2 -> answer w1 k url options = answer w2 k url options.
Proof. unfold answer. intros ->. reflexivity. Qed.

Section Retry.
Variables (url : string) (options : json) (retries : Z).

Lemma retry_loop_success j :
  forall remaining i w v,
    (j < remaining)%nat ->
    (i + Z.of_nat remaining = retries)%Z ->
    (forall k, (k < j)%nat ->
       exists e, answer w (length (requests w) + k) url options = Throw e) ->
    answer w (length (requests w) + j) url options = Ok v ->
    exists w',
      retry_loop remaining url options retries i w = (Ok (Some v), w')
      /\ requests w' = (requests w ++ replicate (S j) (url, options))%list
      /\ timers w' = (timers w
           ++ map (fun k => 2 ^ (i + Z.of_nat k) * 1000)%Z (seq 0 j))%list
      /\ network w' = network w
      /\ localStorage w' = localStorage w.
Proof.
  induction j as [|j IH]; intros remaining i w v Hj Hi Hfail Hok;
    (destruct remaining as [|r]; [lia|]);
    cbn [retry_loop];
    (replace (i <? retries)%Z with true by (symmetry; apply Z.ltb_lt; lia));
    unfold mbind, M_bind, bind; rewrite attempt_unfold; cbv zeta.
  - rewrite Nat.add_0_r in Hok. rewrite Hok.
    eexists; split; [reflexivity|]. cbn. rewrite app_nil_r. auto.
  - destruct (Hfail 0%nat ltac:(lia)) as [e He]. rewrite Nat.add_0_r in He. rewrite He.
    assert (Hne : (i =? retries - 1)%Z = false) by (apply Z.eqb_neq; lia).
    rewrite Hne.
    match goal with |- context [retry_loop r _ _ _ _ ?w1] => set (w1' := w1) end.
    assert (Hlen : length (requests w1') = S (length (requests w))).
    { subst w1'. cbn. rewrite length_app. cbn. lia. }
    destruct (IH r (i + 1)%Z w1' v) as (w' & Hrun & Hreq & Htim & Hnet & Hst).
    + lia.
    + lia.
    + intros k Hk. destruct (Hfail (S k) ltac:(lia)) as [e' He'].
      exists e'. rewrite Hlen, <- He'.
      replace (S (length (requests w)) + k)%nat with (length (requests w) + S k)%nat by lia.
      apply answer_ext. reflexivity.
    + rewrite Hlen, <- Hok.
      replace (S (length (requests w)) + j)%nat with (length (requests w) + S j)%nat by lia.
      apply answer_ext. reflexivity.
    + exists w'. split; [exact Hrun|]. rewrite Hreq, Htim, Hnet, Hst.
      subst w1'. cbn [requests timers network localStorage with_timer with_log with_request].
      rewrite <- !app_assoc. cbn [replicate app seq map].
      rewrite Z.add_0_r. rewrite <- seq_shift, map_map.
      repeat split; try reflexivity.
      f_equal. f_equal. apply map_ext. intros k.
      replace (i + 1 + Z.of_nat k)%Z with (i + Z.of_nat (S k))%Z by lia. reflexivity.
Qed.

Lemma retry_loop_exhausted :
  forall remaining i w (err : nat -> exn),
    (0 < remaining)%nat ->
    (i + Z.of_nat remaining = retries)%Z ->
    (forall k, (k < remaining)%nat ->
       answer w (length (requests w) + k) url options = Throw (err k)) ->
    exists w',
      retry_loop remaining url options retries i w
      = (Throw (err (remaining - 1)%nat), w')
      /\ requests w' = (requests w ++ replicate remaining (url, options))%list
      /\ network w' = network w
      /\ localStorage w' = localStorage w.
Proof.
  induction remaining as [|r IH]; intros i w err Hpos Hi Hfail; [lia|].
  cbn [retry_loop].
  replace (i <? retries)%Z with true by (symmetry; apply Z.ltb_lt; lia).
  unfold mbind, M_bind, bind; rewrite attempt_unfold; cbv zeta.
  pose proof (Hfail 0%nat ltac:(lia)) as He. rewrite Nat.add_0_r in He. rewrite He.
  destruct r as [|r].
  - assert (Hlast : (i =? retries - 1)%Z = true) by (apply Z.eqb_eq; lia).
    rewrite Hlast. eexists; split; [reflexivity|]. cbn. auto.
  - assert (Hne : (i =? retries - 1)%Z = false) by (apply Z.eqb_neq; lia).
    rewrite Hne.
    match goal with |- context [retry_loop (S r) _ _ _ _ ?w1] => set (w1' := w1) end.
    assert (Hlen : length (requests w1') = S (length (requests w))).
    { subst w1'. cbn. rewrite length_app. cbn. lia. }
    destruct (IH (i + 1)%Z w1' (fun k => err (S k))) as (w' & Hrun & Hreq & Hnet & Hst).
    + lia.
    + lia.
    + intros k Hk. rewrite Hlen, <- (Hfail (S k)) by lia.
      replace (S (length (requests w)) + k)%nat with (length (requests w) + S k)%nat by lia.
      apply answer_ext. reflexivity.
    + exists w'. cbv beta in Hrun.
      replace (S (S r) - 1)%nat with (S (S r - 1))%nat by lia.
      split; [exact Hrun|]. rewrite Hreq, Hnet, Hst.
      subst w1'. cbn [requests network localStorage with_timer with_log with_request].
      rewrite <- !app_assoc. repeat split; reflexivity.
Qed.

(** The fuel never decides: any bound of the turns to come gives the
    same run, so the loop always ends on its guard, on a [return] or on
    a [throw]. *)
Lemma retry_loop_enough_fuel :
  forall fuel fuel' i w,
    (Z.to_nat (retries - i) <= fuel)%nat ->
    (Z.to_nat (retries - i) <= fuel')%nat ->
    retry_loop fuel url options retries i w
    = retry_loop fuel' url options retries i w.
Proof.
  induction fuel as [|k IH]; intros fuel' i w Hf Hf'.
  - assert (Hg : (i <? retries)%Z = false) by (apply Z.ltb_ge; lia).
    destruct fuel' as [|k']; [reflexivity|]. cbn [retry_loop]. rewrite Hg. reflexivity.
  - destruct (Z.ltb_spec i retries) as [Hlt|Hge].
    + destruct fuel' as [|k']; [lia|]. cbn [retry_loop].
      destruct (i <? retries)%Z; [|reflexivity].
      unfold mbind, M_bind, bind.
      destruct (attempt url options retries i w) as [[[data|]|e] w1]; try reflexivity.
      apply IH; lia.
    + assert (Hg : (i <? retries)%Z = false) by (apply Z.ltb_ge; lia).
      destruct fuel' as [|k']; cbn [retry_loop]; rewrite ?Hg; reflexivity.
Qed.

End Retry.

(** ** The booking store *)

(** C7, as stated, fails: what the slot holds need not be an array.
    The text [null] is JSON, and with it in the slot [getBookings]
    returns [null], which is neither the empty array nor an array that
    was stored. *)
Lemma getBookings_null_counterexample :
  getItem "bookings" (localStorage (fresh_world null_storage meddata))
  = Ok (Some "null")
  /\ valid "null" = true
  /\ eval getBookings (fresh_world null_storage meddata) = Ok JNull
  /\ JNull <> JArr []
  /\ is_array JNull = false.
Proof.
  split; [vm_compute; reflexivity|]. split; [vm_compute; reflexivity|].
  split; [vm_compute; reflexivity|]. split; [discriminate|reflexivity].
Qed.

(** C7, amended. [getBookings] never throws: whatever the browser
    holds, it returns a value. It returns the empty array when the
    [bookings] slot is absent, when it holds the empty string, when the
    storage cannot be read, and when the text of the slot is not JSON;
    in the last two cases the error is logged. Otherwise it returns what
    [JSON.parse] reads from the text, unchecked and with nothing logged
    or changed: the stored array when the slot holds the serialization of
    an array, any other JSON value when the slot holds that. *)
Theorem getBookings_never_throws :
  (forall w, exists v, eval getBookings w = Ok v)
  /\ (forall w,
        getItem "bookings" (localStorage w) = Ok None ->
        eval getBookings w = Ok (JArr []))
  /\ (forall w,
        getItem "bookings" (localStorage w) = Ok (Some "") ->
        eval getBookings w = Ok (JArr []))
  /\ (forall w e,
        getItem "bookings" (localStorage w) = Throw e ->
        eval getBookings w = Ok (JArr [])
        /\ console (exec getBookings w)
           = (console w ++ [Errored "Error retrieving bookings:" e])%list)
  /\ (forall w text,
        getItem "bookings" (localStorage w) = Ok (Some text) ->
        text <> "" ->
        valid text = false ->
        eval getBookings w = Ok (JArr [])
        /\ console (exec getBookings w)
           = (console w ++ [Errored "Error retrieving bookings:" SyntaxError])%list)
  /\ (forall w text v,
        getItem "bookings" (localStorage w) = Ok (Some text) ->
        text <> "" ->
        JSON_parse text = Ok v ->
        eval getBookings w = Ok v /\ exec getBookings w = w)
  /\ (forall w l,
        wf (JArr l) = true ->
        getItem "bookings" (localStorage w) = Ok (Some (stringify (JArr l))) ->
        eval getBookings w = Ok (JArr l)).
Proof.
  split; [|split; [|split; [|split; [|split; [|split]]]]].
  - intros w. unfold eval. rewrite getBookings_unfold.
    destruct (getItem "bookings" (localStorage w)) as [[text|]|e]; eauto.
    destruct (String.eqb text ""); eauto.
    destruct (Json.parse text); eauto.
  - intros w H. unfold eval. rewrite getBookings_unfold, H. reflexivity.
  - intros w H. unfold eval. rewrite getBookings_unfold, H. reflexivity.
  - intros w e H. unfold eval, exec. rewrite getBookings_unfold, H.
    split; reflexivity.
  - intros w text H Hne Hv. unfold eval, exec. rewrite getBookings_unfold, H.
    apply String.eqb_neq in Hne. rewrite Hne.
    destruct (Json.parse text) as [v|] eqn:E; [|split; reflexivity].
    apply parse_valid in E. congruence.
  - intros w text v H Hne Hp. unfold eval, exec. rewrite getBookings_unfold, H.
    apply String.eqb_neq in Hne. rewrite Hne.
    unfold JSON_parse in Hp. destruct (Json.parse text); [|discriminate].
    injection Hp as ->. split; reflexivity.
  - intros w l Hwf H. unfold eval. rewrite getBookings_unfold, H.
    destruct (stringify_head (JArr l)) as (c & r & Hs & _). rewrite Hs at 1.
    cbn [String.eqb]. rewrite (parse_stringify _ Hwf). reflexivity.
Qed.

Lemma getBookings_never_throws_witness :
  getItem "bookings" (localStorage (fresh_world stocked_storage meddata))
  = Ok (Some stocked_text)
  /\ stocked_text <> ""
  /\ JSON_parse stocked_text = Ok (JArr [austin_general])
  /\ eval getBookings (fresh_world stocked_storage meddata)
     = Ok (JArr [austin_general]).
Proof.
  assert (H1 : getItem "bookings" (localStorage (fresh_world stocked_storage meddata))
               = Ok (Some stocked_text)) by (vm_compute; reflexivity).
  assert (H2 : stocked_text <> "") by (vm_compute; discriminate).
  assert (H3 : JSON_parse stocked_text = Ok (JArr [austin_general]))
    by (vm_compute; reflexivity).
  repeat (split; [assumption|]).
  exact (proj1 (proj1 (proj2 (proj2 (proj2 (proj2 (proj2 getBookings_never_throws)))))
                  _ _ _ H1 H2 H3)).
Defined.

(** C2, as stated, fails: a storage that has no room refuses the write,
    [saveBookings] swallows the failure, and [getBookings] then finds
    the slot as it was. *)
Lemma store_round_trip_counterexample :
  wf (JArr [sample_booking]) = true
  /\ JSON_stringify (JArr [sample_booking])
     = Ok (stringify (JArr [sample_booking]))
  /\ eval getBookings
          (exec (saveBookings (JArr [sample_booking]))
                (fresh_world full_storage meddata))
     = Ok (JArr [])
  /\ JArr [] <> JArr [sample_booking].
Proof.
  split; [reflexivity|]. split; [reflexivity|].
  split; [vm_compute; reflexivity | discriminate].
Qed.

(** C2, amended. For every JSON value [B], in particular every booking
    array, whose serialization the storage accepts ([setItem] does not
    throw), [saveBookings B] followed by [getBookings] returns [B]. *)
Theorem store_round_trip B w st :
  wf B = true ->
  setItem "bookings" (stringify B) (localStorage w) = Ok st ->
  eval getBookings (exec (saveBookings B) w) = Ok B.
Proof.
  intros Hwf Hset. unfold exec, eval.
  rewrite saveBookings_unfold, Hset. cbn [snd].
  rewrite getBookings_unfold. cbn [localStorage with_storage].
  rewrite (getItem_setItem _ _ _ _ Hset).
  assert (Hne : String.eqb (stringify B) "" = false).
  { destruct (stringify_head B) as (c & r & Hs & _). rewrite Hs. reflexivity. }
  rewrite Hne, (parse_stringify B Hwf). reflexivity.
Qed.

Lemma store_round_trip_witness :
  wf (JArr [sample_booking]) = true
  /\ setItem "bookings" (stringify (JArr [sample_booking]))
             (localStorage (fresh_world empty_storage meddata))
     = Ok (stored [sample_booking])
  /\ eval getBookings
          (exec (saveBookings (JArr [sample_booking]))
                (fresh_world empty_storage meddata))
     = Ok (JArr [sample_booking]).
Proof.
  assert (H1 : wf (JArr [sample_booking]) = true) by reflexivity.
  assert (H2 : setItem "bookings" (stringify (JArr [sample_booking]))
                 (localStorage (fresh_world empty_storage meddata))
               = Ok (stored [sample_booking])) by (vm_compute; reflexivity).
  split; [exact H1|]. split; [exact H2|].
  exact (store_round_trip _ _ _ H1 H2).
Defined.

(** ** The retry helper *)

(** C10. With a budget of zero or less the loop body is never entered:
    no request is made, nothing is logged or waited for, and the call
    returns [undefined] rather than a result or an error. *)
Theorem fetchWithRetry_no_budget url options retries w :
  (retries <= 0)%Z ->
  fetchWithRetry url options retries w = (Ok None, w).
Proof.
  intros H. unfold fetchWithRetry.
  destruct (Z.to_nat retries) as [|k]; [reflexivity|]. cbn [retry_loop].
  replace (0 <? retries)%Z with false by (symmetry; apply Z.ltb_ge; lia).
  reflexivity.
Qed.

Lemma fetchWithRetry_no_budget_witness :
  (0 <= 0)%Z
  /\ fetchWithRetry states_url (JObj []) 0
       (fresh_world empty_storage (offline (NetworkError "Failed to fetch")))
     = (Ok None, fresh_world empty_storage (offline (NetworkError "Failed to fetch"))).
Proof.
  assert (H : (0 <= 0)%Z) by lia.
  split; [exact H|]. exact (fetchWithRetry_no_budget _ _ _ _ H).
Defined.

(** C1, as stated, fails for small budgets. With a budget of 2, a
    request that fails twice and would then succeed is given up after 2
    attempts with the second error; with a budget of 0, a request that
    always fails is never attempted and nothing is thrown. *)
Lemma fetchWithRetry_small_budget_counterexample :
  let w := fresh_world empty_storage (flaky "[1,2]") in
  let down := fresh_world empty_storage (offline (NetworkError "Failed to fetch")) in
  (answer w 0 states_url (JObj []) = Throw (NetworkError "Failed to fetch")
   /\ answer w 1 states_url (JObj []) = Throw (NetworkError "Failed to fetch")
   /\ answer w 2 states_url (JObj []) = Ok (JArr [JNum 1; JNum 2])
   /\ eval (fetchWithRetry states_url (JObj []) 2) w
      = Throw (NetworkError "Failed to fetch")
   /\ length (requests (exec (fetchWithRetry states_url (JObj []) 2) w)) = 2%nat)
  /\ ((forall k, answer down k states_url (JObj [])
                 = Throw (NetworkError "Failed to fetch"))
      /\ eval (fetchWithRetry states_url (JObj []) 0) down = Ok None
      /\ requests (exec (fetchWithRetry states_url (JObj []) 0) down) = []).
Proof.
  cbv zeta. split.
  - repeat split; vm_compute; reflexivity.
  - split; [intros k; reflexivity|]. split; reflexivity.
Qed.

(** C1, amended. For every URL, every options object and every browser:
    with a budget of at least 3, a request that fails twice and then
    succeeds takes exactly 3 attempts and returns the parsed JSON body of
    the third; with a budget of at least 1, a request every attempt of
    which fails takes exactly [retries] attempts, and the error of the
    last attempt is thrown. *)
Theorem fetchWithRetry_attempts url options retries w :
  let n := length (requests w) in
  ((3 <= retries)%Z ->
   forall e1 e2 v,
     answer w n url options = Throw e1 ->
     answer w (n + 1) url options = Throw e2 ->
     answer w (n + 2) url options = Ok v ->
     eval (fetchWithRetry url options retries) w = Ok (Some v)
     /\ requests (exec (fetchWithRetry url options retries) w)
        = (requests w ++ replicate 3 (url, options))%list
     /\ timers (exec (fetchWithRetry url options retries) w)
        = (timers w ++ [1000; 2000]%Z)%list)
  /\ ((1 <= retries)%Z ->
      forall err : nat -> exn,
        (forall k, (k < Z.to_nat retries)%nat ->
           answer w (n + k) url options = Throw (err k)) ->
        eval (fetchWithRetry url options retries) w
        = Throw (err (Z.to_nat retries - 1)%nat)
        /\ requests (exec (fetchWithRetry url options retries) w)
           = (requests w ++ replicate (Z.to_nat retries) (url, options))%list).
Proof.
  cbv zeta. unfold fetchWithRetry, eval, exec. split.
  - intros Hb e1 e2 v H1 H2 H3.
    destruct (retry_loop_success url options retries 2 (Z.to_nat retries) 0 w v)
      as (w' & Hrun & Hreq & Htim & _).
    + lia.
    + lia.
    + intros k Hk. destruct k as [|[|k]]; [| |lia].
      * exists e1. rewrite Nat.add_0_r. exact H1.
      * exists e2. exact H2.
    + exact H3.
    + rewrite Hrun. cbn [fst snd]. auto.
  - intros Hb err Hfail.
    destruct (retry_loop_exhausted url options retries (Z.to_nat retries) 0 w err)
      as (w' & Hrun & Hreq & _).
    + lia.
    + lia.
    + exact Hfail.
    + rewrite Hrun. cbn [fst snd]. auto.
Qed.

Lemma fetchWithRetry_attempts_witness :
  let w := fresh_world empty_storage (flaky "[1,2]") in
  ((3 <= 3)%Z
   /\ answer w 0 states_url (JObj []) = Throw (NetworkError "Failed to fetch")
   /\ answer w 1 states_url (JObj []) = Throw (NetworkError "Failed to fetch")
   /\ answer w 2 states_url (JObj []) = Ok (JArr [JNum 1; JNum 2])
   /\ eval (fetchWithRetry states_url (JObj []) 3) w = Ok (Some (JArr [JNum 1; JNum 2]))
   /\ requests (exec (fetchWithRetry states_url (JObj []) 3) w)
      = replicate 3 (states_url, JObj []))
  /\ ((1 <= 2)%Z
      /\ (forall k, (k < Z.to_nat 2)%nat ->
            answer w (0 + k) states_url (JObj [])
            = Throw (NetworkError "Failed to fetch"))
      /\ eval (fetchWithRetry states_url (JObj []) 2) w
         = Throw (NetworkError "Failed to fetch")).
Proof.
  cbv zeta.
  pose proof (fetchWithRetry_attempts states_url (JObj []) 3
                (fresh_world empty_storage (flaky "[1,2]"))) as [T3 _].
  pose proof (fetchWithRetry_attempts states_url (JObj []) 2
                (fresh_world empty_storage (flaky "[1,2]"))) as [_ T2].
  cbv zeta in T3, T2.
  assert (H3 : (3 <= 3)%Z) by lia.
  assert (H2 : (1 <= 2)%Z) by lia.
  assert (A0 : answer (fresh_world empty_storage (flaky "[1,2]")) 0 states_url (JObj [])
               = Throw (NetworkError "Failed to fetch")) by reflexivity.
  assert (A1 : answer (fresh_world empty_storage (flaky "[1,2]")) 1 states_url (JObj [])
               = Throw (NetworkError "Failed to fetch")) by reflexivity.
  assert (A2 : answer (fresh_world empty_storage (flaky "[1,2]")) 2 states_url (JObj [])
               = Ok (JArr [JNum 1; JNum 2])) by (vm_compute; reflexivity).
  assert (F : forall k, (k < Z.to_nat 2)%nat ->
                answer (fresh_world empty_storage (flaky "[1,2]")) (0 + k)
                  states_url (JObj [])
                = Throw (NetworkError "Failed to fetch")).
  { intros k Hk. destruct k as [|[|k]]; [reflexivity|reflexivity|].
    exfalso. change (Z.to_nat 2) with 2%nat in Hk. lia. }
  split.
  - destruct (T3 H3 _ _ _ A0 A1 A2) as (R1 & R2 & _). auto 10.
  - destruct (T2 H2 (fun _ => NetworkError "Failed to fetch") F) as (R1 & _). auto.
Defined.

(** ** The halves of [fetchWithRetry] *)

Lemma fetch_split url options w :
  fetch url options w = (n ← fetch_begin url options; fetch_resume n url options) w.
Proof.
  unfold fetch, fetch_begin, fetch_resume, mbind, M_bind, bind. cbn [network with_request].
  destruct (network w (length (requests w)) url options); reflexivity.
Qed.

Lemma attempt_split url options retries i w :
  attempt url options retries i w
  = (n ← fetch_begin url options; attempt_resume url options retries i n) w.
Proof.
  unfold attempt, attempt_resume, try_catch, mbind, M_bind, bind.
  rewrite fetch_split. unfold fetch_begin, mbind, M_bind, bind. reflexivity.
Qed.

Lemma attempt_resume_unfold url options retries i n w :
  attempt_resume url options retries i n w =
  match answer w n url options with
  | Ok data => (Ok (Return data), w)
  | Throw e =>
      if (i =? retries - 1)%Z then (Throw e, w)
      else
        (Ok Normal,
         with_timer (2 ^ i * 1000)%Z
           (with_log (Warned ("Request failed. Retrying in "
                              ++ string_of_Z ((2 ^ i * 1000) / 1000) ++ "s...")) w))
  end.
Proof.
  unfold attempt_resume, answer, try_catch, mbind, M_bind, bind, fetch_resume,
    response_json, lift, throw, console_warn, sleep, modify, mret, M_ret, ret.
  destruct (network w n url options) as [e|status body]; cbn [fst snd].
  - destruct (i =? retries - 1)%Z; reflexivity.
  - destruct (ok status); cbn [negb].
    + destruct (JSON_parse body); [reflexivity|].
      destruct (i =? retries - 1)%Z; reflexivity.
    + destruct (i =? retries - 1)%Z; reflexivity.
Qed.

(** The calls of [fetch] are only ever added to, and a run of the
    loop adds calls with its own URL and options, one a turn at most. *)
Lemma retry_loop_requests url options retries fuel :
  forall i w,
    exists m,
      (m <= fuel)%nat
      /\ requests (snd (retry_loop fuel url options retries i w))
         = (requests w ++ replicate m (url, options))%list.
Proof.
  induction fuel as [|fuel IH]; intros i w; cbn [retry_loop].
  - exists 0%nat. rewrite app_nil_r. split; [lia|reflexivity].
  - destruct (i <? retries)%Z;
      [|exists 0%nat; rewrite app_nil_r; split; [lia|reflexivity]].
    unfold mbind, M_bind, bind. rewrite attempt_unfold. cbv zeta.
    destruct (answer w (length (requests w)) url options) as [v|e].
    + exists 1%nat. split; [lia|reflexivity].
    + destruct (i =? retries - 1)%Z; [exists 1%nat; split; [lia|reflexivity]|].
      match goal with |- context [retry_loop fuel _ _ _ _ ?w1] => set (w1' := w1) end.
      destruct (IH (i + 1)%Z w1') as (m & Hm & H).
      exists (S m). split; [lia|]. rewrite H. subst w1'. cbn.
      rewrite <- app_assoc. reflexivity.
Qed.

Lemma fetchWithRetry_resume_requests url options retries call w :
  exists m,
    (m <= Z.to_nat retries - 1)%nat
    /\ requests (exec (fetchWithRetry_resume url options retries call) w)
       = (requests w ++ replicate m (url, options))%list.
Proof.
  unfold exec, fetchWithRetry_resume. destruct call as [n|];
    [|exists 0%nat; rewrite app_nil_r; split; [lia|reflexivity]].
  unfold mbind, M_bind, bind. rewrite attempt_resume_unfold.
  destruct (answer w n url options) as [v|e].
  - exists 0%nat. rewrite app_nil_r. split; [lia|reflexivity].
  - destruct (0 =? retries - 1)%Z;
      [exists 0%nat; rewrite app_nil_r; split; [lia|reflexivity]|].
    match goal with |- context [retry_loop ?f _ _ _ _ ?w1] =>
      destruct (retry_loop_requests url options retries f 1%Z w1) as (m & Hm & H) end.
    exists m. split; [exact Hm|]. rewrite H. reflexivity.
Qed.

Lemma fetchWithRetry_begin_entered url options retries w :
  (0 < retries)%Z ->
  fetchWithRetry_begin url options retries w
  = (Ok (Some (length (requests w))), with_request (url, options) w).
Proof.
  intros H. unfold fetchWithRetry_begin. apply Z.ltb_lt in H. rewrite H. reflexivity.
Qed.

Lemma fetchWithRetry_default_begin_unfold url w :
  fetchWithRetry_default_begin url w
  = (Ok (Some (length (requests w))), with_request (url, JObj []) w).
Proof. reflexivity. Qed.

(** ** The component *)

Lemma exec_finally_setIsLoading {A} (body : M System A) f s :
  exec (try_finally body (setIsLoading f)) s = exec (setIsLoading f) (exec body s).
Proof. unfold exec, try_finally. destruct (body s) as [r s']. reflexivity. Qed.

Lemma same_eq a b : same a b = true <-> a = b.
Proof.
  destruct a as [x|], b as [y|]; cbn; try (split; congruence).
  rewrite String.eqb_eq. split; congruence.
Qed.

Lemma same_neq a b : a <> b -> same a b = false.
Proof. intros H. destruct (same a b) eqn:E; [|reflexivity]. apply same_eq in E. contradiction. Qed.

Lemma remove_index_last l b i :
  remove_index i (i + length l) (l ++ [b])%list = l.
Proof.
  revert i. induction l as [|x l IH]; intros i; cbn [app length remove_index].
  - rewrite Nat.add_0_r, Nat.eqb_refl. reflexivity.
  - assert (H : Nat.eqb i (i + S (length l)) = false) by (apply Nat.eqb_neq; lia).
    rewrite H. f_equal. replace (i + S (length l))%nat with (S i + length l)%nat by lia.
    apply IH.
Qed.

Lemma array_map_project_objects hs :
  array_map project (Some (JArr (map JObj hs))) = Ok (map project_props hs).
Proof.
  unfold array_map. induction hs as [|h hs IH]; [reflexivity|].
  cbn [map foldr]. rewrite IH. reflexivity.
Qed.

Lemma has_name_project h : has_name (project_props h) = named h.
Proof.
  unfold has_name, named, project_props, get_prop. cbn [assoc String.eqb Ascii.eqb].
  change (String.eqb "Hospital Name" "Hospital Name") with true. cbv iota.
  destruct (assoc "Hospital Name" h) as [v|]; [|reflexivity].
  cbn [or_else truthy_opt]. destruct (truthy v) eqn:E; [exact E|reflexivity].
Qed.

Lemma filter_project hs :
  List.filter has_name (map project_props hs)
  = map project_props (List.filter named hs).
Proof.
  induction hs as [|h hs IH]; [reflexivity|].
  cbn [map List.filter]. rewrite has_name_project, IH.
  destruct (named h); reflexivity.
Qed.

Lemma handleSearch_resume_ok s c call sys data projected :
  eval (fetchWithRetry_default_resume (hospitals_url s c) call) (world sys) = Ok data ->
  array_map project data = Ok projected ->
  searchResults (ui (exec (handleSearch_resume s c call) sys))
  = List.filter has_name projected.
Proof.
  intros Hfetch Hmap. unfold handleSearch_resume. rewrite exec_finally_setIsLoading.
  unfold try_catch, exec, mbind, M_bind, bind, browser, zoom, lift.
  unfold eval in Hfetch.
  destruct (fetchWithRetry_default_resume _ _ (world sys)) as [r w']. cbn [fst] in Hfetch.
  subst r. rewrite Hmap. reflexivity.
Qed.

Lemma fetchCities_resume_ok s call sys l :
  eval (fetchWithRetry_default_resume (cities_url s) call) (world sys)
  = Ok (Some (JArr l)) ->
  cities (ui (exec (fetchCities_resume s call) sys)) = Js.sort l.
Proof.
  intros Hfetch. unfold fetchCities_resume. rewrite exec_finally_setIsLoading.
  unfold try_catch, exec, mbind, M_bind, bind, browser, zoom, lift.
  unfold eval in Hfetch.
  destruct (fetchWithRetry_default_resume _ _ (world sys)) as [r w']. cbn [fst] in Hfetch.
  subst r. reflexivity.
Qed.

Lemma has_name_truthy h :
  has_name (project_props h) = true ->
  exists v, assoc "Hospital Name" h = Some v /\ truthy v = true.
Proof.
  rewrite has_name_project. unfold named.
  destruct (assoc "Hospital Name" h) as [v|]; [|discriminate].
  cbn. eauto.
Qed.

Lemma search_enabled sys :
  search_disabled (ui sys) = false ->
  exists s c,
    selectedState (ui sys) = Some s /\ selectedCity (ui sys) = Some c
    /\ String.eqb s "" = false /\ String.eqb c "" = false
    /\ Loading.hospitals (isLoading (ui sys)) = false.
Proof.
  unfold search_disabled, falsy. intros H.
  destruct (selectedState (ui sys)) as [s|]; [|discriminate].
  destruct (selectedCity (ui sys)) as [c|]; [|rewrite orb_true_r in H; discriminate].
  exists s, c. destruct (String.eqb s ""); [discriminate|].
  destruct (String.eqb c ""); [discriminate|]. auto.
Qed.

Lemma handleSearch_begin_enabled sys s c :
  selectedState (ui sys) = Some s -> selectedCity (ui sys) = Some c ->
  String.eqb s "" = false -> String.eqb c "" = false ->
  exec handleSearch_begin sys
  = exec (setIsLoading (Loading.set_hospitals true);;
          setSearchResults [];;
          call ← browser (fetchWithRetry_default_begin (hospitals_url s c));
          await (SearchHospitals s c) call) sys.
Proof.
  intros Hs Hc Es Ec.
  unfold handleSearch_begin, exec, mbind, M_bind, bind, get.
  rewrite Hs, Hc, Es, Ec. reflexivity.
Qed.

(** What the start of a search comes to. *)
Lemma handleSearch_begin_unfold sys s c :
  selectedState (ui sys) = Some s -> selectedCity (ui sys) = Some c ->
  String.eqb s "" = false -> String.eqb c "" = false ->
  exec handleSearch_begin sys
  = {| ui := ui (exec (setIsLoading (Loading.set_hospitals true);;
                       setSearchResults []) sys);
       world := with_request (hospitals_url s c, JObj []) (world sys);
       pending := (pending sys
                   ++ [(SearchHospitals s c, Some (length (requests (world sys))))])%list |}.
Proof.
  intros Hs Hc Es Ec. rewrite (handleSearch_begin_enabled sys s c Hs Hc Es Ec).
  reflexivity.
Qed.

(** What the start of the fetch of the cities comes to. *)
Lemma fetchCities_begin_unfold sys s :
  exec (fetchCities_begin s) sys
  = {| ui := ui (exec (setIsLoading (Loading.set_cities true);;
                       setCities [];; setSelectedCity None;;
                       setSearchResults []) sys);
       world := with_request (cities_url s, JObj []) (world sys);
       pending := (pending sys
                   ++ [(FetchCities s, Some (length (requests (world sys))))])%list |}.
Proof. reflexivity. Qed.

(** The flags after a call has settled. *)
Lemma resume_loading t call sys :
  isLoading (ui (exec (resume t call) sys))
  = match t with
    | FetchStates => Loading.set_states false (isLoading (ui sys))
    | FetchCities _ => Loading.set_cities false (isLoading (ui sys))
    | SearchHospitals _ _ => Loading.set_hospitals false (isLoading (ui sys))
    end.
Proof.
  destruct t as [|s|s c]; cbn [resume].
  - unfold fetchStates_resume. rewrite exec_finally_setIsLoading.
    unfold try_catch, exec, mbind, M_bind, bind, browser, zoom, lift.
    destruct (fetchWithRetry_default_resume _ _ (world sys)) as [[d|e] w'];
      [|reflexivity].
    destruct (array_map _ d); reflexivity.
  - unfold fetchCities_resume. rewrite exec_finally_setIsLoading.
    unfold try_catch, exec, mbind, M_bind, bind, browser, zoom, lift.
    destruct (fetchWithRetry_default_resume _ _ (world sys)) as [[d|e] w'];
      [|reflexivity].
    destruct (array_sort d); reflexivity.
  - unfold handleSearch_resume. rewrite exec_finally_setIsLoading.
    unfold try_catch, exec, mbind, M_bind, bind, browser, zoom, lift.
    destruct (fetchWithRetry_default_resume _ _ (world sys)) as [[d|e] w'];
      [|reflexivity].
    destruct (array_map project d); reflexivity.
Qed.

(** C3. Whenever the selected state changes, to a state or to empty or
    [null], the same step empties the cities, the selected city and the
    search results. When the new value names a state, the request for
    its cities has been made by then, as the next call of [fetch], and
    nothing of its answer has been read: the browser differs by that
    request alone, and the call is in flight. Otherwise the browser is as
    it was and no call is added. *)
Theorem state_change_clears sys v :
  v <> selectedState (ui sys) ->
  let sys' := step (SelectState v) sys in
  selectedState (ui sys') = v
  /\ cities (ui sys') = []
  /\ selectedCity (ui sys') = None
  /\ searchResults (ui sys') = []
  /\ world sys'
     = match v with
       | Some s =>
           if String.eqb s "" then world sys
           else with_request (cities_url s, JObj []) (world sys)
       | None => world sys
       end
  /\ pending sys' = (pending sys ++
       match v with
       | Some s =>
           if String.eqb s "" then []
           else [(FetchCities s, Some (length (requests (world sys))))]
       | None => []
       end)%list.
Proof.
  intros Hne. cbv zeta. unfold step. rewrite (same_neq _ _ Hne).
  destruct v as [s|]; cbn [selectedState_effect].
  - destruct (String.eqb s ""); cbn; rewrite ?app_nil_r; repeat split; reflexivity.
  - cbn. rewrite app_nil_r. repeat split; reflexivity.
Qed.

Lemma state_change_clears_witness :
  Some "Alabama" <> selectedState (ui searched)
  /\ searchResults (ui searched) <> []
  /\ cities (ui (step (SelectState (Some "Alabama")) searched)) = []
  /\ selectedCity (ui (step (SelectState (Some "Alabama")) searched)) = None
  /\ searchResults (ui (step (SelectState (Some "Alabama")) searched)) = []
  /\ requests (world (step (SelectState (Some "Alabama")) searched))
     = (requests (world searched) ++ [(cities_url "Alabama", JObj [])])%list
  /\ None <> selectedState (ui searched)
  /\ searchResults (ui (step (SelectState None) searched)) = [].
Proof.
  assert (H1 : Some "Alabama" <> selectedState (ui searched))
    by (vm_compute; discriminate).
  assert (H2 : None <> selectedState (ui searched))
    by (vm_compute; discriminate).
  destruct (state_change_clears searched (Some "Alabama") H1)
    as (_ & A & B & C & W & _).
  destruct (state_change_clears searched None H2) as (_ & _ & _ & D & _).
  split; [exact H1|]. split; [vm_compute; discriminate|].
  split; [exact A|]. split; [exact B|]. split; [exact C|].
  split; [rewrite W; reflexivity|]. split; [exact H2|exact D].
Defined.

(** C4, as stated, fails: nothing clears the search results when only
    the city changes. After a search for Austin, selecting Dallas leaves
    the hospitals of Austin on display. *)
Lemma city_change_counterexample :
  selectedState (ui searched) = Some "Texas"
  /\ selectedCity (ui searched) = Some "Austin"
  /\ selectedCity (ui (step (SelectCity (Some "Dallas")) searched)) = Some "Dallas"
  /\ selectedState (ui (step (SelectCity (Some "Dallas")) searched)) = Some "Texas"
  /\ searchResults (ui (step (SelectCity (Some "Dallas")) searched))
     = [JObj [("Hospital Name", JStr "Austin General"); ("City", JStr "Austin");
              ("State", JStr "TX"); ("Hospital Type", JStr "Acute Care");
              ("Hospital overall rating", JStr "")]]
  /\ searchResults (ui (step (SelectCity (Some "Dallas")) searched)) <> [].
Proof.
  repeat split; try (vm_compute; reflexivity). vm_compute. discriminate.
Qed.

(** C4, amended. A change of the selected city, the selected state
    unchanged, leaves the search results as they are and starts no
    request; the results are cleared when the next search starts, that
    is when the search button is used with a state and a city selected
    and no search in flight. *)
Theorem city_change_keeps_results sys v :
  (let sys' := step (SelectCity v) sys in
   selectedCity (ui sys') = v
   /\ selectedState (ui sys') = selectedState (ui sys)
   /\ searchResults (ui sys') = searchResults (ui sys)
   /\ pending sys' = pending sys)
  /\ (search_disabled (ui sys) = false ->
      searchResults (ui (step ClickSearch sys)) = []).
Proof.
  split; [cbn; repeat split; reflexivity|].
  intros H. unfold step. rewrite H.
  destruct (search_enabled sys H) as (s & c & Hs & Hc & Es & Ec & _).
  rewrite (handleSearch_begin_enabled sys s c Hs Hc Es Ec). reflexivity.
Qed.

Lemma city_change_keeps_results_witness :
  search_disabled (ui (step (SelectCity (Some "Dallas")) searched)) = false
  /\ searchResults (ui (step ClickSearch (step (SelectCity (Some "Dallas")) searched)))
     = [].
Proof.
  assert (H : search_disabled (ui (step (SelectCity (Some "Dallas")) searched)) = false)
    by (vm_compute; reflexivity).
  split; [exact H|].
  exact (proj2 (city_change_keeps_results
                  (step (SelectCity (Some "Dallas")) searched) None) H).
Defined.

(** C5, as stated, fails: a field that is there but falsy is replaced
    as well. A rating of [0] comes out as the empty string, where the
    projection of the specification keeps it. *)
Lemma search_results_counterexample :
  pending searching !! 1%nat = Some (SearchHospitals "Texas" "Austin", Some 2%nat)
  /\ eval (fetchWithRetry_default_resume (hospitals_url "Texas" "Austin") (Some 2%nat))
       (world searching)
  = Ok (Some (JArr (map JObj austin_records)))
  /\ searchResults (ui (exec (handleSearch_resume "Texas" "Austin" (Some 2%nat)) searching))
     = [JObj [("Hospital Name", JStr "Austin General"); ("City", JStr "Austin");
              ("State", JStr "TX"); ("Hospital Type", JStr "Acute Care");
              ("Hospital overall rating", JStr "")]]
  /\ spec_results austin_records
     = [JObj [("Hospital Name", JStr "Austin General"); ("City", JStr "Austin");
              ("State", JStr "TX"); ("Hospital Type", JStr "Acute Care");
              ("Hospital overall rating", JNum 0)]]
  /\ searchResults (ui (exec (handleSearch_resume "Texas" "Austin" (Some 2%nat)) searching))
     <> spec_results austin_records.
Proof.
  repeat split; try (vm_compute; reflexivity). vm_compute. discriminate.
Qed.

(** C5, amended. For every array of hospital objects that the hospitals
    fetch returns, the search results are exactly the input mapped to
    the five fields, each field that is missing or falsy ([null],
    [false], [0], the empty string) replaced by the empty string, with
    every record removed whose name is missing or falsy; in particular a
    record without a name is never among the results. *)
Theorem search_results_projection s c call sys hs :
  eval (fetchWithRetry_default_resume (hospitals_url s c) call) (world sys)
  = Ok (Some (JArr (map JObj hs))) ->
  let results := searchResults (ui (exec (handleSearch_resume s c call) sys)) in
  results = List.filter has_name (map project_props hs)
  /\ results = map project_props (List.filter named hs)
  /\ (forall h, In h hs -> assoc "Hospital Name" h = None ->
        ~ In (project_props h) results).
Proof.
  intros Hfetch results.
  assert (E : results = List.filter has_name (map project_props hs)).
  { apply (handleSearch_resume_ok s c call sys _ _ Hfetch), array_map_project_objects. }
  split; [exact E|]. split; [rewrite E; apply filter_project|].
  intros h _ Hnone Hin. rewrite E in Hin. apply filter_In in Hin as [_ Hn].
  apply has_name_truthy in Hn as (v & Hv & _). congruence.
Qed.

Lemma search_results_projection_witness :
  eval (fetchWithRetry_default_resume (hospitals_url "Texas" "Austin") (Some 2%nat))
       (world searching)
  = Ok (Some (JArr (map JObj austin_records)))
  /\ searchResults (ui (exec (handleSearch_resume "Texas" "Austin" (Some 2%nat)) searching))
     = map project_props (List.filter named austin_records).
Proof.
  assert (H : eval (fetchWithRetry_default_resume (hospitals_url "Texas" "Austin")
                        (Some 2%nat))
                (world searching)
              = Ok (Some (JArr (map JObj austin_records))))
    by (vm_compute; reflexivity).
  split; [exact H|].
  exact (proj1 (proj2 (search_results_projection "Texas" "Austin" (Some 2%nat)
                         searching austin_records H))).
Defined.

(** C6. For every booking list [l] and every booking [b]: booking [b]
    with [handleBook] and then cancelling position [length l] with
    [handleCancelBooking] leaves the booking list exactly [l] again. *)
Theorem book_then_cancel sys l b :
  bookings (ui sys) = JArr l ->
  bookings (ui (step (Book b) sys)) = JArr (l ++ [b])
  /\ bookings (ui (step (CancelBooking (length l)) (step (Book b) sys))) = JArr l.
Proof.
  intros H. unfold step at 1 3. unfold handleBook, exec, mbind, M_bind, bind, get, lift.
  rewrite H. cbn [spread].
  unfold setBookings, modify, browser, zoom.
  destruct (saveBookings _ _) as [r1 w1]. cbn [snd].
  split; [reflexivity|].
  unfold step, handleCancelBooking, exec, mbind, M_bind, bind, get.
  cbn [ui with_world with_ui bookings].
  unfold setBookings, modify, browser, zoom. cbn [ui world with_ui].
  destruct (saveBookings _ _) as [r2 w2]. cbn.
  pose proof (remove_index_last l b 0) as E. cbn [Nat.add] in E. rewrite E. reflexivity.
Qed.

Lemma book_then_cancel_witness :
  bookings (ui booked) = JArr [sample_booking]
  /\ bookings (ui (step (CancelBooking 1) (step (Book austin_general) booked)))
     = JArr [sample_booking].
Proof.
  assert (H : bookings (ui booked) = JArr [sample_booking])
    by (vm_compute; reflexivity).
  split; [exact H|].
  exact (proj2 (book_then_cancel booked [sample_booking] austin_general H)).
Defined.

(** C8. Each of the three stages sets its own loading flag to [true]
    when it starts and to [false] when it ends, whether the fetch
    succeeded or failed; the other two flags are left as they were. *)
Theorem loading_flags :
  (forall sys,
     let after := isLoading (ui (exec fetchStates_begin sys)) in
     Loading.states after = true
     /\ Loading.cities after = Loading.cities (isLoading (ui sys))
     /\ Loading.hospitals after = Loading.hospitals (isLoading (ui sys)))
  /\ (forall call sys,
        let after := isLoading (ui (exec (fetchStates_resume call) sys)) in
        Loading.states after = false
        /\ Loading.cities after = Loading.cities (isLoading (ui sys))
        /\ Loading.hospitals after = Loading.hospitals (isLoading (ui sys)))
  /\ (forall s sys,
        let after := isLoading (ui (exec (fetchCities_begin s) sys)) in
        Loading.cities after = true
        /\ Loading.states after = Loading.states (isLoading (ui sys))
        /\ Loading.hospitals after = Loading.hospitals (isLoading (ui sys)))
  /\ (forall s call sys,
        let after := isLoading (ui (exec (fetchCities_resume s call) sys)) in
        Loading.cities after = false
        /\ Loading.states after = Loading.states (isLoading (ui sys))
        /\ Loading.hospitals after = Loading.hospitals (isLoading (ui sys)))
  /\ (forall sys,
        search_disabled (ui sys) = false ->
        let after := isLoading (ui (exec handleSearch_begin sys)) in
        Loading.hospitals after = true
        /\ Loading.states after = Loading.states (isLoading (ui sys))
        /\ Loading.cities after = Loading.cities (isLoading (ui sys)))
  /\ (forall s c call sys,
        let after := isLoading (ui (exec (handleSearch_resume s c call) sys)) in
        Loading.hospitals after = false
        /\ Loading.states after = Loading.states (isLoading (ui sys))
        /\ Loading.cities after = Loading.cities (isLoading (ui sys))).
Proof.
  split; [|split; [|split; [|split; [|split]]]]; intros; subst after.
  - repeat split; reflexivity.
  - pose proof (resume_loading FetchStates call sys) as E. cbn [resume] in E.
    rewrite E. repeat split; reflexivity.
  - repeat split; reflexivity.
  - pose proof (resume_loading (FetchCities s) call sys) as E. cbn [resume] in E.
    rewrite E. repeat split; reflexivity.
  - destruct (search_enabled sys H) as (s & c & Hs & Hc & Es & Ec & _).
    rewrite (handleSearch_begin_enabled sys s c Hs Hc Es Ec). repeat split; reflexivity.
  - pose proof (resume_loading (SearchHospitals s c) call sys) as E.
    cbn [resume] in E. rewrite E. repeat split; reflexivity.
Qed.

Lemma loading_flags_witness :
  search_disabled (ui ready) = false
  /\ Loading.hospitals (isLoading (ui ready)) = false
  /\ Loading.hospitals (isLoading (ui (exec handleSearch_begin ready))) = true
  /\ eval (fetchWithRetry_default_resume (hospitals_url "Texas" "Austin") (Some 2%nat))
          (world cut_off)
     = Throw (NetworkError "Failed to fetch")
  /\ Loading.hospitals (isLoading (ui cut_off)) = true
  /\ Loading.hospitals
       (isLoading (ui (exec (handleSearch_resume "Texas" "Austin" (Some 2%nat))
                         cut_off)))
     = false.
Proof.
  assert (H : search_disabled (ui ready) = false) by (vm_compute; reflexivity).
  split; [exact H|]. split; [vm_compute; reflexivity|].
  split; [exact (proj1 (proj1 (proj2 (proj2 (proj2 (proj2 loading_flags)))) ready H))|].
  split; [vm_compute; reflexivity|]. split; [vm_compute; reflexivity|].
  exact (proj1 (proj2 (proj2 (proj2 (proj2 (proj2 loading_flags))))
                  "Texas" "Austin" (Some 2%nat) cut_off)).
Defined.

Lemma step_keeps_pending e sys :
  (forall k, e <> Settle k) ->
  exists new, pending (step e sys) = (pending sys ++ new)%list.
Proof.
  intros Hns. destruct e as [v|v| |k|h| |b|i]; cbn [step].
  - destruct (same v (selectedState (ui sys))); [exists []; symmetry; apply app_nil_r|].
    destruct v as [s|]; cbn [selectedState_effect].
    + destruct (String.eqb s "");
        [exists []
        |exists [(FetchCities s, Some (length (requests (world sys))))]];
        cbn; rewrite ?app_nil_r; reflexivity.
    + exists []. cbn. rewrite app_nil_r. reflexivity.
  - exists []. cbn. rewrite app_nil_r. reflexivity.
  - destruct (search_disabled (ui sys)) eqn:E;
      [exists []; symmetry; apply app_nil_r|].
    destruct (search_enabled sys E) as (s & c & Hs & Hc & Es & Ec & _).
    rewrite (handleSearch_begin_enabled sys s c Hs Hc Es Ec).
    exists [(SearchHospitals s c, Some (length (requests (world sys))))]. reflexivity.
  - exfalso. exact (Hns k eq_refl).
  - exists []. cbn. rewrite app_nil_r. reflexivity.
  - exists []. cbn. rewrite app_nil_r. reflexivity.
  - exists []. rewrite app_nil_r.
    unfold handleBook, exec, mbind, M_bind, bind, get, lift.
    destruct (spread (bookings (ui sys))); [|reflexivity].
    unfold setBookings, modify, browser, zoom.
    destruct (saveBookings _ _). reflexivity.
  - exists []. rewrite app_nil_r.
    unfold handleCancelBooking, exec, mbind, M_bind, bind, get, throw.
    destruct (bookings (ui sys)); try reflexivity.
    unfold setBookings, modify, browser, zoom.
    destruct (saveBookings _ _). reflexivity.
Qed.

(** C9. A fetch in flight is never cancelled: no user event removes a
    suspended call, whatever selection it was made for. When such a call
    settles its result is applied without looking at the current
    selection: the cities of a state that is no longer selected replace
    the cities list, and the hospitals of an abandoned search replace the
    search results. Both happen in the sample sessions. *)
Theorem stale_fetch_overwrites :
  (forall e sys, (forall k, e <> Settle k) ->
     exists new, pending (step e sys) = (pending sys ++ new)%list)
  /\ (forall sys k s call l,
        pending sys !! k = Some (FetchCities s, call) ->
        eval (fetchWithRetry_default_resume (cities_url s) call) (world sys)
        = Ok (Some (JArr l)) ->
        cities (ui (step (Settle k) sys)) = Js.sort l
        /\ selectedState (ui (step (Settle k) sys)) = selectedState (ui sys))
  /\ (forall sys k s c call hs,
        pending sys !! k = Some (SearchHospitals s c, call) ->
        eval (fetchWithRetry_default_resume (hospitals_url s c) call) (world sys)
        = Ok (Some (JArr (map JObj hs))) ->
        searchResults (ui (step (Settle k) sys))
        = List.filter has_name (map project_props hs)
        /\ selectedState (ui (step (Settle k) sys)) = selectedState (ui sys)
        /\ selectedCity (ui (step (Settle k) sys)) = selectedCity (ui sys))
  /\ (selectedState (ui overtaken) = Some "Alabama"
      /\ cities (ui overtaken) = [JStr "Mobile"]
      /\ pending overtaken !! 1%nat = Some (FetchCities "Texas", Some 1%nat)
      /\ selectedState (ui (step (Settle 1) overtaken)) = Some "Alabama"
      /\ cities (ui (step (Settle 1) overtaken)) = [JStr "Austin"; JStr "Dallas"])
  /\ (selectedState (ui abandoned) = Some "Alabama"
      /\ selectedCity (ui abandoned) = None
      /\ searchResults (ui abandoned) = []
      /\ pending abandoned !! 1%nat
         = Some (SearchHospitals "Texas" "Austin", Some 2%nat)
      /\ selectedState (ui (step (Settle 1) abandoned)) = Some "Alabama"
      /\ searchResults (ui (step (Settle 1) abandoned))
         = [JObj [("Hospital Name", JStr "Austin General"); ("City", JStr "Austin");
                  ("State", JStr "TX"); ("Hospital Type", JStr "Acute Care");
                  ("Hospital overall rating", JStr "")]]).
Proof.
  split; [exact step_keeps_pending|].
  split; [|split; [|split]].
  - intros sys k s call l Hp Hf. cbn [step]. rewrite Hp. cbn [resume].
    split.
    + apply (fetchCities_resume_ok s call (with_pending (delete k) sys) l Hf).
    + unfold fetchCities_resume. rewrite exec_finally_setIsLoading.
      unfold try_catch, exec, mbind, M_bind, bind, browser, zoom, lift.
      cbn [world with_pending].
      destruct (fetchWithRetry_default_resume _ _ (world sys)) as [[d|e] w'];
        [|reflexivity].
      destruct (array_sort d); reflexivity.
  - intros sys k s c call hs Hp Hf. cbn [step]. rewrite Hp. cbn [resume].
    split.
    + apply (handleSearch_resume_ok s c call (with_pending (delete k) sys) _ _ Hf),
        array_map_project_objects.
    + unfold handleSearch_resume. rewrite exec_finally_setIsLoading.
      unfold try_catch, exec, mbind, M_bind, bind, browser, zoom, lift.
      cbn [world with_pending].
      destruct (fetchWithRetry_default_resume _ _ (world sys)) as [[d|e] w'];
        [|split; reflexivity].
      destruct (array_map project d); split; reflexivity.
  - repeat split; vm_compute; reflexivity.
  - repeat split; vm_compute; reflexivity.
Qed.

Lemma stale_fetch_overwrites_witness :
  pending overtaken !! 1%nat = Some (FetchCities "Texas", Some 1%nat)
  /\ eval (fetchWithRetry_default_resume (cities_url "Texas") (Some 1%nat))
          (world overtaken)
     = Ok (Some (JArr [JStr "Dallas"; JStr "Austin"]))
  /\ selectedState (ui overtaken) = Some "Alabama"
  /\ cities (ui (step (Settle 1) overtaken)) = Js.sort [JStr "Dallas"; JStr "Austin"].
Proof.
  assert (H1 : pending overtaken !! 1%nat = Some (FetchCities "Texas", Some 1%nat))
    by (vm_compute; reflexivity).
  assert (H2 : eval (fetchWithRetry_default_resume (cities_url "Texas") (Some 1%nat))
                 (world overtaken)
               = Ok (Some (JArr [JStr "Dallas"; JStr "Austin"])))
    by (vm_compute; reflexivity).
  split; [exact H1|]. split; [exact H2|]. split; [vm_compute; reflexivity|].
  exact (proj1 (proj1 (proj2 stale_fetch_overwrites) overtaken 1%nat "Texas" _ _ H1 H2)).
Defined.

(** ** More on the retry helper *)

Lemma first_success_some w url options count :
  forall n j v,
    first_success w url options n count = Some (j, v) ->
    (j < count)%nat
    /\ answer w (n + j) url options = Ok v
    /\ forall k, (k < j)%nat -> exists e, answer w (n + k) url options = Throw e.
Proof.
  induction count as [|c IH]; intros n j v H; [discriminate|].
  cbn [first_success] in H.
  destruct (answer w n url options) as [v0|e] eqn:Ha.
  - injection H as <- <-. rewrite Nat.add_0_r. repeat split; [lia|exact Ha|lia].
  - destruct (first_success w url options (S n) c) as [[j' v']|] eqn:Hf; [|discriminate].
    injection H as <- <-. destruct (IH _ _ _ Hf) as (Hlt & Hok & Hfail).
    split; [lia|]. split.
    + replace (n + S j')%nat with (S n + j')%nat by lia. exact Hok.
    + intros k Hk. destruct k as [|k].
      * exists e. rewrite Nat.add_0_r. exact Ha.
      * replace (n + S k)%nat with (S n + k)%nat by lia. apply Hfail. lia.
Qed.

Lemma first_success_none w url options count :
  forall n,
    first_success w url options n count = None ->
    forall k, (k < count)%nat -> exists e, answer w (n + k) url options = Throw e.
Proof.
  induction count as [|c IH]; intros n H k Hk; [lia|].
  cbn [first_success] in H.
  destruct (answer w n url options) as [v0|e] eqn:Ha; [discriminate|].
  destruct (first_success w url options (S n) c) as [[j' v']|] eqn:Hf; [discriminate|].
  destruct k as [|k].
  - exists e. rewrite Nat.add_0_r. exact Ha.
  - replace (n + S k)%nat with (S n + k)%nat by lia. apply (IH _ Hf). lia.
Qed.


Lemma backoff_shift i j :
  map (fun k => (2 ^ (i + Z.of_nat k) * 1000)%Z) (seq 1 j)
  = map (fun k => (2 ^ (i + 1 + Z.of_nat k) * 1000)%Z) (seq 0 j).
Proof.
  rewrite <- seq_shift, map_map. apply map_ext. intros k.
  replace (i + Z.of_nat (S k))%Z with (i + 1 + Z.of_nat k)%Z by lia. reflexivity.
Qed.

Lemma warnings_shift i j :
  map (fun k => Warned ("Request failed. Retrying in "
                        ++ string_of_Z (2 ^ (i + Z.of_nat k)) ++ "s...")) (seq 1 j)
  = map (fun k => Warned ("Request failed. Retrying in "
                          ++ string_of_Z (2 ^ (i + 1 + Z.of_nat k)) ++ "s..."))
        (seq 0 j).
Proof.
  rewrite <- seq_shift, map_map. apply map_ext. intros k.
  replace (i + Z.of_nat (S k))%Z with (i + 1 + Z.of_nat k)%Z by lia. reflexivity.
Qed.

(** What a run of the loop leaves behind, whatever the network does. *)
Lemma retry_loop_footprint url options retries remaining :
  forall i w,
    (0 < remaining)%nat ->
    (i + Z.of_nat remaining = retries)%Z ->
    exists m,
      (1 <= m <= remaining)%nat
      /\ requests (snd (retry_loop remaining url options retries i w))
         = (requests w ++ replicate m (url, options))%list
      /\ timers (snd (retry_loop remaining url options retries i w))
         = (timers w
            ++ map (fun k => (2 ^ (i + Z.of_nat k) * 1000)%Z) (seq 0 (m - 1)))%list
      /\ console (snd (retry_loop remaining url options retries i w))
         = (console w
            ++ map (fun k => Warned ("Request failed. Retrying in "
                                     ++ string_of_Z (2 ^ (i + Z.of_nat k)) ++ "s..."))
                   (seq 0 (m - 1)))%list
      /\ localStorage (snd (retry_loop remaining url options retries i w))
         = localStorage w
      /\ network (snd (retry_loop remaining url options retries i w)) = network w
      /\ fst (retry_loop remaining url options retries i w) <> Ok None
      /\ (forall e, fst (retry_loop remaining url options retries i w) = Throw e ->
            m = remaining).
Proof.
  induction remaining as [|r IH]; intros i w Hpos Hi; [lia|].
  cbn [retry_loop].
  replace (i <? retries)%Z with true by (symmetry; apply Z.ltb_lt; lia).
  unfold mbind, M_bind, bind. rewrite attempt_unfold. cbv zeta.
  destruct (answer w (length (requests w)) url options) as [v|e].
  - exists 1%nat. cbn. rewrite !app_nil_r.
    repeat split; try reflexivity; try lia; intros; discriminate.
  - destruct r as [|r].
    + replace (i =? retries - 1)%Z with true by (symmetry; apply Z.eqb_eq; lia).
      exists 1%nat. cbn. rewrite !app_nil_r.
      repeat split; try reflexivity; try lia. discriminate.
    + replace (i =? retries - 1)%Z with false by (symmetry; apply Z.eqb_neq; lia).
      rewrite (Z.div_mul (2 ^ i) 1000) by lia.
      match goal with |- context [retry_loop (S r) _ _ _ _ ?w1] => set (w1' := w1) end.
      destruct (IH (i + 1)%Z w1' ltac:(lia) ltac:(lia))
        as (m & Hm & Hreq & Htim & Hcon & Hst & Hnet & Hne & Hthrow).
      exists (S m). rewrite Hreq, Htim, Hcon, Hst, Hnet.
      subst w1'.
      cbn [requests timers console network localStorage with_timer with_log with_request].
      rewrite <- !app_assoc.
      replace (S m - 1)%nat with (S (m - 1)) by lia.
      cbn [replicate app seq map]. rewrite backoff_shift, warnings_shift, !Z.add_0_r.
      repeat split; try reflexivity; try lia; try assumption.
      intros e' He'. rewrite (Hthrow e' He'). reflexivity.
Qed.

(** X1. With a budget of at least 1, [fetchWithRetry] returns the body
    of the first attempt that succeeds within the budget, having made
    one request more than there were failures before it and waited
    1, 2, 4, ... seconds between them; when no attempt within the budget
    succeeds it throws the error of the last one after exactly [retries]
    requests. *)
Theorem fetchWithRetry_first_success url options retries w :
  (1 <= retries)%Z ->
  match first_success w url options (length (requests w)) (Z.to_nat retries) with
  | Some (j, v) =>
      eval (fetchWithRetry url options retries) w = Ok (Some v)
      /\ requests (exec (fetchWithRetry url options retries) w)
         = (requests w ++ replicate (S j) (url, options))%list
      /\ timers (exec (fetchWithRetry url options retries) w)
         = (timers w ++ backoff j)%list
  | None =>
      exists e,
        answer w (length (requests w) + (Z.to_nat retries - 1)) url options = Throw e
        /\ eval (fetchWithRetry url options retries) w = Throw e
        /\ requests (exec (fetchWithRetry url options retries) w)
           = (requests w ++ replicate (Z.to_nat retries) (url, options))%list
  end.
Proof.
  intros Hb. unfold fetchWithRetry, eval, exec.
  destruct (first_success w url options (length (requests w)) (Z.to_nat retries))
    as [[j v]|] eqn:Hf.
  - destruct (first_success_some _ _ _ _ _ _ _ Hf) as (Hlt & Hok & Hfail).
    destruct (retry_loop_success url options retries j (Z.to_nat retries) 0 w v
                Hlt ltac:(lia) Hfail Hok) as (w' & Hrun & Hreq & Htim & _).
    rewrite Hrun. cbn [fst snd]. split; [reflexivity|]. split; [exact Hreq|].
    rewrite Htim. unfold backoff. f_equal.
  - pose proof (first_success_none _ _ _ _ _ Hf) as Hall.
    destruct (Hall (Z.to_nat retries - 1)%nat ltac:(lia)) as [e He].
    exists e. split; [exact He|].
    destruct (retry_loop_exhausted url options retries (Z.to_nat retries) 0 w
                (fun k => error_of (answer w (length (requests w) + k) url options)))
      as (w' & Hrun & Hreq & _).
    + lia.
    + lia.
    + intros k Hk. destruct (Hall k Hk) as [e' He']. rewrite He'. reflexivity.
    + rewrite Hrun. cbn [fst snd]. rewrite He. cbn. auto.
Qed.

Lemma fetchWithRetry_first_success_witness :
  (1 <= 3)%Z
  /\ first_success (fresh_world empty_storage (flaky "[1,2]")) states_url (JObj [])
       0 (Z.to_nat 3)
     = Some (2%nat, JArr [JNum 1; JNum 2])
  /\ eval (fetchWithRetry states_url (JObj []) 3)
          (fresh_world empty_storage (flaky "[1,2]"))
     = Ok (Some (JArr [JNum 1; JNum 2])).
Proof.
  assert (H : (1 <= 3)%Z) by lia.
  split; [exact H|]. split; [vm_compute; reflexivity|].
  pose proof (fetchWithRetry_first_success states_url (JObj []) 3
                (fresh_world empty_storage (flaky "[1,2]")) H) as T.
  change (first_success (fresh_world empty_storage (flaky "[1,2]")) states_url
            (JObj []) (length (requests (fresh_world empty_storage (flaky "[1,2]"))))
            (Z.to_nat 3))
    with (Some (2%nat, JArr [JNum 1; JNum 2])) in T.
  exact (proj1 T).
Defined.

(** X2. With a budget of at least 1, whatever the network does,
    [fetchWithRetry] never returns [undefined], makes between 1 and
    [retries] requests, all of them for the URL and options it was given,
    waits 1000, 2000, 4000, ... milliseconds between them and before
    nothing else, logs one warning for each wait, and leaves the storage
    alone. *)
Theorem fetchWithRetry_footprint url options retries w :
  (1 <= retries)%Z ->
  exists m,
    (1 <= m <= Z.to_nat retries)%nat
    /\ eval (fetchWithRetry url options retries) w <> Ok None
    /\ requests (exec (fetchWithRetry url options retries) w)
       = (requests w ++ replicate m (url, options))%list
    /\ timers (exec (fetchWithRetry url options retries) w)
       = (timers w ++ backoff (m - 1))%list
    /\ console (exec (fetchWithRetry url options retries) w)
       = (console w ++ warnings (m - 1))%list
    /\ localStorage (exec (fetchWithRetry url options retries) w) = localStorage w
    /\ (forall e, eval (fetchWithRetry url options retries) w = Throw e ->
          m = Z.to_nat retries).
Proof.
  intros Hb. unfold fetchWithRetry, eval, exec.
  destruct (retry_loop_footprint url options retries (Z.to_nat retries) 0 w
              ltac:(lia) ltac:(lia))
    as (m & Hm & Hreq & Htim & Hcon & Hst & _ & Hne & Hthrow).
  exists m. repeat split; try assumption; try lia.
Qed.

Lemma fetchWithRetry_footprint_witness :
  (1 <= 3)%Z
  /\ exists m,
       (1 <= m <= Z.to_nat 3)%nat
       /\ timers (exec (fetchWithRetry states_url (JObj []) 3)
                       (fresh_world empty_storage (flaky "[1,2]")))
          = (timers (fresh_world empty_storage (flaky "[1,2]")) ++ backoff (m - 1))%list.
Proof.
  assert (H : (1 <= 3)%Z) by lia.
  split; [exact H|].
  destruct (fetchWithRetry_footprint states_url (JObj []) 3
              (fresh_world empty_storage (flaky "[1,2]")) H)
    as (m & Hm & _ & _ & Htim & _).
  exists m. split; [exact Hm | exact Htim].
Defined.

(** X26. Splitting [fetchWithRetry] at its first [await] loses nothing:
    the part that runs before it, which makes the first call of [fetch]
    when the budget is positive, followed by the part that runs from the
    settling of that call on, is [fetchWithRetry], for every URL, budget
    and browser. *)
Theorem fetchWithRetry_split url options retries w :
  fetchWithRetry url options retries w
  = (call ← fetchWithRetry_begin url options retries;
     fetchWithRetry_resume url options retries call) w.
Proof.
  unfold fetchWithRetry, fetchWithRetry_begin.
  destruct (0 <? retries)%Z eqn:E.
  - apply Z.ltb_lt in E.
    replace (Z.to_nat retries) with (S (Z.to_nat retries - 1)) at 1 by lia.
    cbn [retry_loop]. replace (0 <? retries)%Z with true by (symmetry; apply Z.ltb_lt; lia).
    unfold mbind, M_bind, bind. rewrite attempt_split.
    unfold mbind, M_bind, bind, fetch_begin, mret, M_ret, ret, fetchWithRetry_resume.
    unfold mbind, M_bind, bind. reflexivity.
  - apply Z.ltb_ge in E. replace (Z.to_nat retries) with 0%nat by lia. reflexivity.
Qed.

(** ** More on the booking store *)

Lemma setItem_items k v st st' :
  setItem k v st = Ok st' ->
  items st' = <[k := v]> (items st) /\ quota st' = quota st /\ denied st' = false.
Proof.
  unfold setItem. destruct (denied st); [discriminate|].
  destruct (_ <=? _)%nat; [|discriminate]. intros [= <-]. auto.
Qed.

Lemma stringify_not_empty v : String.eqb (stringify v) "" = false.
Proof. destruct (stringify_head v) as (c & r & Hs & _). rewrite Hs. reflexivity. Qed.

(** Reading the slot back after an accepted write. *)
Lemma load_after_accepted_save B w st :
  wf B = true ->
  setItem "bookings" (stringify B) (localStorage w) = Ok st ->
  getBookings (exec (saveBookings B) w) = (Ok B, with_storage st w).
Proof.
  intros Hwf Hset. unfold exec. rewrite saveBookings_unfold, Hset. cbn [snd].
  rewrite getBookings_unfold. cbn [localStorage with_storage].
  rewrite (getItem_setItem _ _ _ _ Hset), stringify_not_empty, (parse_stringify B Hwf).
  reflexivity.
Qed.

(** X3. [saveBookings] never throws and touches nothing but the
    [bookings] slot and the console: when the storage accepts the write
    the slot holds the serialized list and nothing is logged, when it
    refuses the storage is exactly as before and one error is logged; the
    other slots, the requests and the timers stay as they are. *)
Theorem saveBookings_never_throws B w :
  eval (saveBookings B) w = Ok tt
  /\ requests (exec (saveBookings B) w) = requests w
  /\ timers (exec (saveBookings B) w) = timers w
  /\ (forall k, k <> "bookings" ->
        items (localStorage (exec (saveBookings B) w)) !! k
        = items (localStorage w) !! k)
  /\ match setItem "bookings" (stringify B) (localStorage w) with
     | Ok _ =>
         items (localStorage (exec (saveBookings B) w)) !! "bookings"
         = Some (stringify B)
         /\ console (exec (saveBookings B) w) = console w
     | Throw e =>
         localStorage (exec (saveBookings B) w) = localStorage w
         /\ console (exec (saveBookings B) w)
            = (console w ++ [Errored "Error saving bookings:" e])%list
     end.
Proof.
  unfold eval, exec. rewrite saveBookings_unfold.
  destruct (setItem "bookings" (stringify B) (localStorage w)) as [st|e] eqn:Hset;
    cbn [fst snd requests timers localStorage console with_storage with_log].
  - destruct (setItem_items _ _ _ _ Hset) as (Hi & _ & _). rewrite Hi.
    repeat split; try reflexivity.
    + intros k Hk. apply lookup_insert_ne. congruence.
    + apply lookup_insert_eq.
  - repeat split; reflexivity.
Qed.

(** X4. [getBookings] only reads: the storage, the requests and the
    timers are as before, at most one line is added to the console, and
    a second call returns what the first returned. A slot that is
    malformed is never repaired or removed. *)
Theorem getBookings_read_only w :
  localStorage (exec getBookings w) = localStorage w
  /\ requests (exec getBookings w) = requests w
  /\ timers (exec getBookings w) = timers w
  /\ (console (exec getBookings w) = console w
      \/ exists e, console (exec getBookings w)
                   = (console w ++ [Errored "Error retrieving bookings:" e])%list)
  /\ eval getBookings (exec getBookings w) = eval getBookings w.
Proof.
  assert (Hst : localStorage (exec getBookings w) = localStorage w).
  { unfold exec. rewrite getBookings_unfold.
    destruct (getItem "bookings" (localStorage w)) as [[text|]|e]; try reflexivity.
    destruct (String.eqb text ""); [reflexivity|].
    destruct (Json.parse text); reflexivity. }
  split; [exact Hst|].
  split; [|split; [|split]].
  - unfold exec. rewrite getBookings_unfold.
    destruct (getItem "bookings" (localStorage w)) as [[text|]|e]; try reflexivity.
    destruct (String.eqb text ""); [reflexivity|].
    destruct (Json.parse text); reflexivity.
  - unfold exec. rewrite getBookings_unfold.
    destruct (getItem "bookings" (localStorage w)) as [[text|]|e]; try reflexivity.
    destruct (String.eqb text ""); [reflexivity|].
    destruct (Json.parse text); reflexivity.
  - unfold exec. rewrite getBookings_unfold.
    destruct (getItem "bookings" (localStorage w)) as [[text|]|e]; eauto.
    destruct (String.eqb text ""); eauto.
    destruct (Json.parse text); eauto.
  - unfold eval. rewrite !getBookings_unfold, Hst.
    destruct (getItem "bookings" (localStorage w)) as [[text|]|e]; try reflexivity.
    destruct (String.eqb text ""); [reflexivity|].
    destruct (Json.parse text); reflexivity.
Qed.

(** X5. A save that the storage refuses leaves the list of the last
    accepted save in the slot: after [saveBookings A] was accepted and
    [saveBookings B] was refused, [getBookings] returns [A]. *)
Theorem failed_save_keeps_previous A B w st e :
  wf A = true ->
  setItem "bookings" (stringify A) (localStorage w) = Ok st ->
  setItem "bookings" (stringify B) st = Throw e ->
  eval getBookings (exec (saveBookings B) (exec (saveBookings A) w)) = Ok A.
Proof.
  intros Hwf HA HB. unfold eval, exec.
  rewrite (saveBookings_unfold A w), HA. cbn [snd].
  rewrite saveBookings_unfold. cbn [localStorage with_storage]. rewrite HB. cbn [snd].
  rewrite getBookings_unfold. cbn [localStorage with_storage with_log].
  rewrite (getItem_setItem _ _ _ _ HA), stringify_not_empty, (parse_stringify A Hwf).
  reflexivity.
Qed.

Lemma failed_save_keeps_previous_witness :
  wf (JArr []) = true
  /\ setItem "bookings" (stringify (JArr []))
             (localStorage (fresh_world tight_storage meddata))
     = Ok {| items := <["bookings" := stringify (JArr [])]> ∅; quota := 20;
             denied := false |}
  /\ setItem "bookings" (stringify (JArr [sample_booking]))
             {| items := <["bookings" := stringify (JArr [])]> ∅; quota := 20;
                denied := false |}
     = Throw QuotaExceededError
  /\ eval getBookings
       (exec (saveBookings (JArr [sample_booking]))
          (exec (saveBookings (JArr [])) (fresh_world tight_storage meddata)))
     = Ok (JArr []).
Proof.
  assert (H1 : wf (JArr []) = true) by reflexivity.
  assert (H2 : setItem "bookings" (stringify (JArr []))
                 (localStorage (fresh_world tight_storage meddata))
               = Ok {| items := <["bookings" := stringify (JArr [])]> ∅; quota := 20;
                       denied := false |}) by (vm_compute; reflexivity).
  assert (H3 : setItem "bookings" (stringify (JArr [sample_booking]))
                 {| items := <["bookings" := stringify (JArr [])]> ∅; quota := 20;
                    denied := false |}
               = Throw QuotaExceededError) by (vm_compute; reflexivity).
  repeat (split; [assumption|]).
  exact (failed_save_keeps_previous _ _ _ _ _ H1 H2 H3).
Defined.

(** ** More on the bookings *)

Lemma mount_unfold w :
  bookings (ui (mount w))
  = match eval getBookings w with Ok v => v | Throw _ => JArr [] end
  /\ world (mount w) = with_request (states_url, JObj []) (exec getBookings w)
  /\ pending (mount w)
     = [(FetchStates, Some (length (requests (exec getBookings w))))].
Proof.
  unfold mount, eval, exec. destruct (getBookings w) as [r w'].
  repeat split; reflexivity.
Qed.

Lemma handleBook_unfold b sys :
  exec (handleBook b) sys
  = match spread (bookings (ui sys)) with
    | Ok l =>
        {| ui := ui (exec (setBookings (JArr (l ++ [b]))) sys);
           world := exec (saveBookings (JArr (l ++ [b]))) (world sys);
           pending := pending sys |}
    | Throw _ => sys
    end.
Proof.
  unfold handleBook, exec, mbind, M_bind, bind, get, lift.
  destruct (spread (bookings (ui sys))) as [l|e]; [|reflexivity].
  unfold setBookings, modify, browser, zoom. cbn [world with_ui].
  destruct (saveBookings _ _) as [r w']. reflexivity.
Qed.

Lemma handleCancelBooking_unfold i sys :
  exec (handleCancelBooking i) sys
  = match bookings (ui sys) with
    | JArr l =>
        {| ui := ui (exec (setBookings (JArr (remove_index 0 i l))) sys);
           world := exec (saveBookings (JArr (remove_index 0 i l))) (world sys);
           pending := pending sys |}
    | _ => sys
    end.
Proof.
  unfold handleCancelBooking, exec, mbind, M_bind, bind, get, throw.
  destruct (bookings (ui sys)); try reflexivity.
  unfold setBookings, modify, browser, zoom. cbn [world with_ui].
  destruct (saveBookings _ _) as [r w']. reflexivity.
Qed.

Lemma remove_index_past l :
  forall a b, (b < a)%nat -> remove_index a b l = l.
Proof.
  induction l as [|z l IH]; intros a b Hab; [reflexivity|].
  cbn [remove_index].
  replace (Nat.eqb a b) with false by (symmetry; apply Nat.eqb_neq; lia).
  f_equal. apply IH. lia.
Qed.

Lemma remove_index_from l :
  forall i j, remove_index j (j + i) l = delete i l.
Proof.
  induction l as [|x l IH]; intros i j; [destruct i; reflexivity|].
  cbn [remove_index]. destruct i as [|i].
  - rewrite Nat.add_0_r, Nat.eqb_refl. cbn [delete list_delete].
    apply remove_index_past. lia.
  - replace (Nat.eqb j (j + S i)) with false by (symmetry; apply Nat.eqb_neq; lia).
    cbn [delete list_delete]. f_equal.
    replace (j + S i)%nat with (S j + i)%nat by lia. apply IH.
Qed.

(** The filter of [handleCancelBooking] deletes one position. *)
Lemma remove_index_delete l i : remove_index 0 i l = delete i l.
Proof. exact (remove_index_from l i 0). Qed.

(** X6. [handleCancelBooking] removes the booking at the given position
    and no other, the rest keeping its order; a position past the end
    removes nothing. The list that results is also the one handed to
    [saveBookings]. *)
Theorem cancel_removes_position sys l i :
  bookings (ui sys) = JArr l ->
  bookings (ui (step (CancelBooking i) sys)) = JArr (delete i l)
  /\ world (step (CancelBooking i) sys)
     = exec (saveBookings (JArr (delete i l))) (world sys)
  /\ ((length l <= i)%nat -> bookings (ui (step (CancelBooking i) sys)) = JArr l)
  /\ ((i < length l)%nat ->
      exists l', bookings (ui (step (CancelBooking i) sys)) = JArr l'
                 /\ S (length l') = length l).
Proof.
  intros H. cbn [step]. rewrite handleCancelBooking_unfold, H.
  rewrite (remove_index_delete l i). cbn [ui world bookings].
  split; [reflexivity|]. split; [reflexivity|]. split.
  - intros Hi. rewrite delete_take_drop, take_ge, drop_ge by lia.
    rewrite app_nil_r. reflexivity.
  - intros Hi. exists (delete i l). split; [reflexivity|].
    rewrite length_delete by (apply lookup_lt_is_Some; exact Hi). lia.
Qed.

Lemma cancel_removes_position_witness :
  bookings (ui booked) = JArr [sample_booking]
  /\ bookings (ui (step (CancelBooking 0) booked)) = JArr []
  /\ bookings (ui (step (CancelBooking 7) booked)) = JArr [sample_booking].
Proof.
  assert (H : bookings (ui booked) = JArr [sample_booking]) by (vm_compute; reflexivity).
  split; [exact H|]. split.
  - exact (proj1 (cancel_removes_position booked [sample_booking] 0 H)).
  - exact (proj1 (cancel_removes_position booked [sample_booking] 7 H)).
Defined.

(** X7. A booking outlives a reload: when the storage accepts the write
    that [handleBook] makes, a component mounted afterwards on the same
    browser starts with the list that has the new booking at its end;
    the same holds for the list that a cancellation leaves. *)
Theorem bookings_survive_reload sys l :
  bookings (ui sys) = JArr l ->
  (forall b st,
     wf (JArr (l ++ [b])) = true ->
     setItem "bookings" (stringify (JArr (l ++ [b]))) (localStorage (world sys)) = Ok st ->
     bookings (ui (mount (world (step (Book b) sys)))) = JArr (l ++ [b]))
  /\ (forall i st,
        wf (JArr (delete i l)) = true ->
        setItem "bookings" (stringify (JArr (delete i l))) (localStorage (world sys))
        = Ok st ->
        bookings (ui (mount (world (step (CancelBooking i) sys)))) = JArr (delete i l)).
Proof.
  intros H. split.
  - intros b st Hwf Hset. cbn [step]. rewrite handleBook_unfold, H. cbn [spread world].
    destruct (mount_unfold (exec (saveBookings (JArr (l ++ [b]))) (world sys)))
      as (Hb & _). rewrite Hb. unfold eval.
    rewrite (load_after_accepted_save _ _ _ Hwf Hset). reflexivity.
  - intros i st Hwf Hset. cbn [step]. rewrite handleCancelBooking_unfold, H.
    rewrite (remove_index_delete l i). cbn [world].
    destruct (mount_unfold (exec (saveBookings (JArr (delete i l))) (world sys)))
      as (Hb & _). rewrite Hb. unfold eval.
    rewrite (load_after_accepted_save _ _ _ Hwf Hset). reflexivity.
Qed.

Lemma bookings_survive_reload_witness :
  bookings (ui searched) = JArr []
  /\ wf (JArr ([] ++ [sample_booking])) = true
  /\ setItem "bookings" (stringify (JArr ([] ++ [sample_booking])))
             (localStorage (world searched))
     = Ok (stored [sample_booking])
  /\ bookings (ui (mount (world (step (Book sample_booking) searched))))
     = JArr ([] ++ [sample_booking]).
Proof.
  assert (H1 : bookings (ui searched) = JArr []) by (vm_compute; reflexivity).
  assert (H2 : wf (JArr ([] ++ [sample_booking])) = true) by reflexivity.
  assert (H3 : setItem "bookings" (stringify (JArr ([] ++ [sample_booking])))
                 (localStorage (world searched))
               = Ok (stored [sample_booking])) by (vm_compute; reflexivity).
  repeat (split; [assumption|]).
  exact (proj1 (bookings_survive_reload searched [] H1) sample_booking _ H2 H3).
Defined.

(** X8. [getBookings] takes any JSON for a booking list. When the slot
    holds JSON that is neither an array nor a string, the component
    starts with that value as its bookings, and from then on a booking
    or a cancellation throws before anything is changed or saved: the
    state and the storage stay as they are. *)
Theorem odd_slot_blocks_booking w text v :
  getItem "bookings" (localStorage w) = Ok (Some text) ->
  JSON_parse text = Ok v ->
  not_iterable v = true ->
  bookings (ui (mount w)) = v
  /\ (forall b, step (Book b) (mount w) = mount w)
  /\ (forall i, step (CancelBooking i) (mount w) = mount w)
  /\ eval (handleBook (JObj [])) (mount w) = Throw TypeError.
Proof.
  intros Hget Hparse Hv.
  assert (Hb : bookings (ui (mount w)) = v).
  { destruct (mount_unfold w) as (Hb & _). rewrite Hb. unfold eval.
    rewrite getBookings_unfold, Hget. unfold JSON_parse in Hparse.
    destruct (String.eqb text "") eqn:E.
    - apply String.eqb_eq in E. subst text. discriminate.
    - destruct (Json.parse text); [|discriminate]. injection Hparse as ->. reflexivity. }
  split; [exact Hb|]. split; [|split].
  - intros b. cbn [step]. rewrite handleBook_unfold, Hb.
    destruct v; try discriminate; reflexivity.
  - intros i. cbn [step]. rewrite handleCancelBooking_unfold, Hb.
    destruct v; try discriminate; reflexivity.
  - unfold eval, handleBook, mbind, M_bind, bind, get, lift. rewrite Hb.
    destruct v; try discriminate; reflexivity.
Qed.

Lemma odd_slot_blocks_booking_witness :
  getItem "bookings" (localStorage (fresh_world odd_storage meddata))
  = Ok (Some (stringify (JObj [("version", JNum 2)])))
  /\ JSON_parse (stringify (JObj [("version", JNum 2)]))
     = Ok (JObj [("version", JNum 2)])
  /\ not_iterable (JObj [("version", JNum 2)]) = true
  /\ step (Book sample_booking) (mount (fresh_world odd_storage meddata))
     = mount (fresh_world odd_storage meddata).
Proof.
  assert (H1 : getItem "bookings" (localStorage (fresh_world odd_storage meddata))
               = Ok (Some (stringify (JObj [("version", JNum 2)]))))
    by (vm_compute; reflexivity).
  assert (H2 : JSON_parse (stringify (JObj [("version", JNum 2)]))
               = Ok (JObj [("version", JNum 2)])) by (vm_compute; reflexivity).
  assert (H3 : not_iterable (JObj [("version", JNum 2)]) = true) by reflexivity.
  repeat (split; [assumption|]).
  exact (proj1 (proj2 (odd_slot_blocks_booking _ _ _ H1 H2 H3)) sample_booking).
Defined.

(** ** More on the three stages *)

Lemma exec_bind_modify {A} (f : System -> System) (k : M System A) s :
  exec (modify f;; k) s = exec k (f s).
Proof. reflexivity. Qed.

Lemma fetchStates_resume_unfold call sys :
  exec (fetchStates_resume call) sys
  = match handled (array_map (fun item => get_prop item "state"))
            (eval (fetchWithRetry_default_resume states_url call) (world sys)) with
    | Ok l =>
        exec (setStates (sort_holes l);; setIsLoading (Loading.set_states false))
             (with_world
                (exec (fetchWithRetry_default_resume states_url call) (world sys))
                sys)
    | Throw e =>
        exec (setIsLoading (Loading.set_states false))
             (with_world
                (with_log (Errored "Failed to fetch states:" e)
                   (exec (fetchWithRetry_default_resume states_url call)
                         (world sys)))
                sys)
    end.
Proof.
  unfold fetchStates_resume. rewrite exec_finally_setIsLoading.
  unfold try_catch, exec, eval, mbind, M_bind, bind, browser, zoom, lift, handled.
  destruct (fetchWithRetry_default_resume states_url call (world sys)) as [[d|e] w'];
    cbn [fst snd]; [|reflexivity].
  destruct (array_map _ d); reflexivity.
Qed.

Lemma fetchCities_resume_unfold s call sys :
  exec (fetchCities_resume s call) sys
  = match handled array_sort
            (eval (fetchWithRetry_default_resume (cities_url s) call)
                  (world sys)) with
    | Ok l =>
        exec (setCities l;; setIsLoading (Loading.set_cities false))
             (with_world
                (exec (fetchWithRetry_default_resume (cities_url s) call)
                      (world sys))
                sys)
    | Throw e =>
        exec (setIsLoading (Loading.set_cities false))
             (with_world
                (with_log (Errored "Failed to fetch cities:" e)
                   (exec (fetchWithRetry_default_resume (cities_url s) call)
                         (world sys)))
                sys)
    end.
Proof.
  unfold fetchCities_resume. rewrite exec_finally_setIsLoading.
  unfold try_catch, exec, eval, mbind, M_bind, bind, browser, zoom, lift, handled.
  destruct (fetchWithRetry_default_resume (cities_url s) call (world sys))
    as [[d|e] w']; cbn [fst snd]; [|reflexivity].
  destruct (array_sort d); reflexivity.
Qed.

Lemma handleSearch_resume_unfold s c call sys :
  exec (handleSearch_resume s c call) sys
  = match handled (array_map project)
            (eval (fetchWithRetry_default_resume (hospitals_url s c) call)
                  (world sys)) with
    | Ok projected =>
        exec (setSearchResults (List.filter has_name projected);;
              setIsLoading (Loading.set_hospitals false))
             (with_world
                (exec (fetchWithRetry_default_resume (hospitals_url s c) call)
                      (world sys))
                sys)
    | Throw e =>
        exec (setSearchResults [];; setIsLoading (Loading.set_hospitals false))
             (with_world
                (with_log (Errored "Failed to fetch hospitals:" e)
                   (exec (fetchWithRetry_default_resume (hospitals_url s c) call)
                         (world sys)))
                sys)
    end.
Proof.
  unfold handleSearch_resume. rewrite exec_finally_setIsLoading.
  unfold try_catch, exec, eval, mbind, M_bind, bind, browser, zoom, lift, handled.
  destruct (fetchWithRetry_default_resume (hospitals_url s c) call (world sys))
    as [[d|e] w']; cbn [fst snd]; [|reflexivity].
  destruct (array_map project d); reflexivity.
Qed.

(** X9. A stage whose fetch fails, or whose response is not the array
    it expects, ends quietly: one error is logged with the message of the
    stage, the states or the cities stay as they were, the search results
    are emptied, and nothing is thrown to the caller. *)
Theorem stage_failure sys call e :
  (handled (array_map (fun item => get_prop item "state"))
     (eval (fetchWithRetry_default_resume states_url call) (world sys))
   = Throw e ->
   eval (fetchStates_resume call) sys = Ok tt
   /\ states (ui (exec (fetchStates_resume call) sys)) = states (ui sys)
   /\ console (world (exec (fetchStates_resume call) sys))
      = (console (exec (fetchWithRetry_default_resume states_url call) (world sys))
         ++ [Errored "Failed to fetch states:" e])%list)
  /\ (forall s,
        handled array_sort
          (eval (fetchWithRetry_default_resume (cities_url s) call) (world sys))
        = Throw e ->
        eval (fetchCities_resume s call) sys = Ok tt
        /\ cities (ui (exec (fetchCities_resume s call) sys)) = cities (ui sys)
        /\ console (world (exec (fetchCities_resume s call) sys))
           = (console (exec (fetchWithRetry_default_resume (cities_url s) call)
                            (world sys))
              ++ [Errored "Failed to fetch cities:" e])%list)
  /\ (forall s c,
        handled (array_map project)
          (eval (fetchWithRetry_default_resume (hospitals_url s c) call)
                (world sys))
        = Throw e ->
        eval (handleSearch_resume s c call) sys = Ok tt
        /\ searchResults (ui (exec (handleSearch_resume s c call) sys)) = []
        /\ console (world (exec (handleSearch_resume s c call) sys))
           = (console (exec (fetchWithRetry_default_resume (hospitals_url s c) call)
                            (world sys))
              ++ [Errored "Failed to fetch hospitals:" e])%list).
Proof.
  split; [|split].
  - intros H. split; [|rewrite fetchStates_resume_unfold, H; split; reflexivity].
    unfold handled, eval in *. unfold fetchStates_resume, try_finally, try_catch,
      mbind, M_bind, bind, browser, zoom, lift.
    destruct (fetchWithRetry_default_resume states_url call (world sys))
      as [[d|e'] w']; cbn [fst snd] in *; [|reflexivity].
    rewrite H. reflexivity.
  - intros s H. split; [|rewrite fetchCities_resume_unfold, H; split; reflexivity].
    unfold handled, eval in *. unfold fetchCities_resume, try_finally, try_catch,
      mbind, M_bind, bind, browser, zoom, lift.
    destruct (fetchWithRetry_default_resume (cities_url s) call (world sys))
      as [[d|e'] w']; cbn [fst snd] in *; [|reflexivity].
    rewrite H. reflexivity.
  - intros s c H. split; [|rewrite handleSearch_resume_unfold, H; split; reflexivity].
    unfold handled, eval in *. unfold handleSearch_resume, try_finally, try_catch,
      mbind, M_bind, bind, browser, zoom, lift.
    destruct (fetchWithRetry_default_resume (hospitals_url s c) call (world sys))
      as [[d|e'] w']; cbn [fst snd] in *; [|reflexivity].
    rewrite H. reflexivity.
Qed.

Lemma stage_failure_witness :
  handled (array_map project)
    (eval (fetchWithRetry_default_resume (hospitals_url "Texas" "Austin")
             (Some 2%nat))
          (world cut_off))
  = Throw (NetworkError "Failed to fetch")
  /\ searchResults
       (ui (exec (handleSearch_resume "Texas" "Austin" (Some 2%nat)) cut_off))
     = [].
Proof.
  assert (H : handled (array_map project)
                (eval (fetchWithRetry_default_resume
                         (hospitals_url "Texas" "Austin") (Some 2%nat))
                      (world cut_off))
              = Throw (NetworkError "Failed to fetch")) by (vm_compute; reflexivity).
  split; [exact H|].
  exact (proj1 (proj2 (proj2 (proj2 (stage_failure cut_off (Some 2%nat) _))
                         "Texas" "Austin" H))).
Defined.

(** ** What holds in every state the component reaches *)

Lemma run_app es1 es2 s : run (es1 ++ es2) s = run es2 (run es1 s).
Proof. unfold run. apply fold_left_app. Qed.

(** Induction over the states reached. *)
Lemma reachable_ind' (P : System -> Prop) :
  (forall w, P (mount w)) ->
  (forall e s, P s -> P (step e s)) ->
  forall s, reachable s -> P s.
Proof.
  intros Hmount Hstep s (w & es & ->).
  induction es as [|e es IH] using rev_ind; [apply Hmount|].
  rewrite run_app. cbn. apply Hstep, IH.
Qed.

Lemma filter_delete_length {A} (P : A -> bool) (l : list A) :
  forall k t,
    l !! k = Some t ->
    length (List.filter P l)
    = ((if P t then 1 else 0) + length (List.filter P (delete k l)))%nat.
Proof.
  induction l as [|x l IH]; intros k t H; [destruct k; discriminate|].
  destruct k as [|k].
  - injection H as ->. change (delete 0 (t :: l)) with l. cbn [List.filter].
    destruct (P t); reflexivity.
  - change (delete (S k) (x :: l)) with (x :: delete k l).
    cbn [List.filter]. cbn in H. specialize (IH k t H).
    destruct (P x), (P t); cbn [length] in *; lia.
Qed.

Lemma filter_snoc_length {A} (P : A -> bool) (l : list A) t :
  length (List.filter P (l ++ [t]))
  = (length (List.filter P l) + (if P t then 1 else 0))%nat.
Proof.
  rewrite List.filter_app, length_app. cbn [List.filter]. destruct (P t); reflexivity.
Qed.

Lemma settle_unfold sys k t call :
  pending sys !! k = Some (t, call) ->
  step (Settle k) sys = exec (resume t call) (with_pending (delete k) sys).
Proof. intros H. cbn [step]. rewrite H. reflexivity. Qed.

(** What settling a call changes besides the list of its stage. *)
Lemma resume_frame t call sys :
  pending (exec (resume t call) sys) = pending sys
  /\ selectedState (ui (exec (resume t call) sys)) = selectedState (ui sys)
  /\ selectedCity (ui (exec (resume t call) sys)) = selectedCity (ui sys)
  /\ bookings (ui (exec (resume t call) sys)) = bookings (ui sys)
  /\ bookingHospital (ui (exec (resume t call) sys)) = bookingHospital (ui sys)
  /\ isLoading (ui (exec (resume t call) sys))
     = match t with
       | FetchStates => Loading.set_states false (isLoading (ui sys))
       | FetchCities _ => Loading.set_cities false (isLoading (ui sys))
       | SearchHospitals _ _ => Loading.set_hospitals false (isLoading (ui sys))
       end
  /\ (is_search (t, call) = false ->
      searchResults (ui (exec (resume t call) sys)) = searchResults (ui sys))
  /\ exists m,
       (m <= 2)%nat
       /\ requests (world (exec (resume t call) sys))
          = (requests (world sys) ++ replicate m (url_of t, JObj []))%list.
Proof.
  destruct (fetchWithRetry_resume_requests (url_of t) (JObj []) 3 call (world sys))
    as (m & Hm & H).
  change (Z.to_nat 3 - 1)%nat with 2%nat in Hm.
  destruct t as [|s|s c]; cbn [resume is_search fst url_of] in *.
  - rewrite fetchStates_resume_unfold.
    destruct (handled _ _); cbn; repeat split; try reflexivity; exists m; auto.
  - rewrite fetchCities_resume_unfold.
    destruct (handled _ _); cbn; repeat split; try reflexivity; exists m; auto.
  - rewrite handleSearch_resume_unfold.
    destruct (handled _ _); cbn; repeat split; try reflexivity; try discriminate;
      exists m; auto.
Qed.

Lemma settle_or_not e : (exists k, e = Settle k) \/ (forall k, e <> Settle k).
Proof. destruct e; try (right; intros ?; discriminate). left. eauto. Qed.

Lemma saveBookings_requests B w : requests (exec (saveBookings B) w) = requests w.
Proof.
  unfold exec. rewrite saveBookings_unfold.
  destruct (setItem "bookings" (stringify B) (localStorage w)); reflexivity.
Qed.

Lemma getBookings_requests w : requests (exec getBookings w) = requests w.
Proof.
  unfold exec. rewrite getBookings_unfold.
  destruct (getItem "bookings" (localStorage w)) as [[text|]|e]; try reflexivity.
  destruct (String.eqb text ""); [reflexivity|]. destruct (Json.parse text); reflexivity.
Qed.

(** What an event other than a settling call changes: it may start one
    call, whose request it makes, and only a search sets the flag of the
    hospitals. *)
Lemma handler_frame e sys :
  (forall k, e <> Settle k) ->
  Loading.states (isLoading (ui (step e sys))) = Loading.states (isLoading (ui sys))
  /\ (searchResults (ui (step e sys)) = searchResults (ui sys)
      \/ searchResults (ui (step e sys)) = [])
  /\ ((pending (step e sys) = pending sys
       /\ requests (world (step e sys)) = requests (world sys)
       /\ Loading.hospitals (isLoading (ui (step e sys)))
          = Loading.hospitals (isLoading (ui sys)))
      \/ (exists s,
            s <> ""
            /\ pending (step e sys)
               = (pending sys
                  ++ [(FetchCities s, Some (length (requests (world sys))))])%list
            /\ requests (world (step e sys))
               = (requests (world sys) ++ [(cities_url s, JObj [])])%list
            /\ Loading.hospitals (isLoading (ui (step e sys)))
               = Loading.hospitals (isLoading (ui sys)))
      \/ (exists s c,
            s <> "" /\ c <> ""
            /\ pending (step e sys)
               = (pending sys
                  ++ [(SearchHospitals s c, Some (length (requests (world sys))))])%list
            /\ requests (world (step e sys))
               = (requests (world sys) ++ [(hospitals_url s c, JObj [])])%list
            /\ Loading.hospitals (isLoading (ui sys)) = false
            /\ Loading.hospitals (isLoading (ui (step e sys))) = true)).
Proof.
  intros Hns. destruct e as [v|v| |k|h| |b|i]; cbn [step].
  - destruct (same v (selectedState (ui sys))); [auto 10|].
    destruct v as [s|]; cbn [selectedState_effect]; [|cbn; auto 10].
    destruct (String.eqb s "") eqn:E; [cbn; auto 10|].
    apply String.eqb_neq in E. cbn. repeat split; eauto 10.
  - cbn. auto 10.
  - destruct (search_disabled (ui sys)) eqn:E; [auto 10|].
    destruct (search_enabled sys E) as (s & c & Hs & Hc & Es & Ec & Hl).
    rewrite (handleSearch_begin_unfold sys s c Hs Hc Es Ec).
    apply String.eqb_neq in Es, Ec. cbn.
    split; [reflexivity|]. split; [auto|]. right; right. exists s, c. auto 10.
  - exfalso. exact (Hns k eq_refl).
  - cbn. auto 10.
  - cbn. auto 10.
  - rewrite handleBook_unfold. destruct (spread _); cbn; rewrite ?saveBookings_requests;
      auto 10.
  - rewrite handleCancelBooking_unfold. destruct (bookings (ui sys)); cbn;
      rewrite ?saveBookings_requests; auto 10.
Qed.

Lemma task_ok_grow w w' extra p :
  requests w' = (requests w ++ extra)%list -> task_ok w p -> task_ok w' p.
Proof.
  intros H [Hok (n & Hn & Hr)]. split; [exact Hok|]. exists n. split; [exact Hn|].
  rewrite H. apply lookup_app_l_Some. exact Hr.
Qed.

Lemma task_ok_new w w' t :
  match t with
  | FetchStates => True
  | FetchCities s => s <> ""
  | SearchHospitals s c => s <> "" /\ c <> ""
  end ->
  requests w' = (requests w ++ [(url_of t, JObj [])])%list ->
  task_ok w' (t, Some (length (requests w))).
Proof.
  intros Hok H. split; [exact Hok|]. exists (length (requests w)).
  split; [reflexivity|]. rewrite H. cbn [fst]. apply list_lookup_middle. reflexivity.
Qed.

(** X10. In every state the component reaches, at most one search for
    hospitals is in flight, and one is in flight exactly when the flag
    [isLoading.hospitals] is set; the same holds for the fetch of the
    states. No call in flight asks for an empty state or an empty city,
    and each of them has made its request: the call of [fetch] that it
    waits for is among the calls made, with the URL of its stage. *)
Theorem flights_match_flags s :
  reachable s ->
  length (List.filter is_search (pending s))
  = (if Loading.hospitals (isLoading (ui s)) then 1 else 0)%nat
  /\ length (List.filter is_states (pending s))
     = (if Loading.states (isLoading (ui s)) then 1 else 0)%nat
  /\ Forall (task_ok (world s)) (pending s).
Proof.
  revert s. apply reachable_ind'.
  - intros w. destruct (mount_unfold w) as (_ & Hw & Hp). rewrite Hp.
    assert (Hl : Loading.hospitals (isLoading (ui (mount w))) = false
                 /\ Loading.states (isLoading (ui (mount w))) = true).
    { unfold mount. destruct (getBookings w) as [r w']. split; reflexivity. }
    destruct Hl as [-> ->]. split; [reflexivity|]. split; [reflexivity|].
    constructor; [|constructor].
    apply (task_ok_new (exec getBookings w) (world (mount w)) FetchStates I).
    rewrite Hw. reflexivity.
  - intros e s (Hsearch & Hstates & Hok).
    destruct (settle_or_not e) as [[k ->]|Hns].
    + cbn [step]. destruct (pending s !! k) as [[t call]|] eqn:Hk; [|auto].
      destruct (resume_frame t call (with_pending (delete k) s))
        as (Hp & _ & _ & _ & _ & Hl & _ & m & _ & Hr).
      rewrite Hp, Hl. cbn [pending with_pending ui].
      pose proof (filter_delete_length is_search _ _ _ Hk) as Cs.
      pose proof (filter_delete_length is_states _ _ _ Hk) as Ct.
      change (is_search (t, call))
        with (match t with SearchHospitals _ _ => true | _ => false end) in Cs.
      change (is_states (t, call))
        with (match t with FetchStates => true | _ => false end) in Ct.
      split; [|split].
      * destruct t;
          cbn [Loading.hospitals Loading.set_states Loading.set_cities
               Loading.set_hospitals];
          destruct (Loading.hospitals (isLoading (ui s))); lia.
      * destruct t;
          cbn [Loading.states Loading.set_states Loading.set_cities
               Loading.set_hospitals];
          destruct (Loading.states (isLoading (ui s))); lia.
      * apply Forall_delete. eapply Forall_impl; [exact Hok|]. intros p.
        apply (task_ok_grow _ _ _ _ Hr).
    + destruct (handler_frame e s Hns) as (Fst & _ & Fp).
      rewrite Fst.
      destruct Fp as [(Fp & Fr & Fh)
                     | [(c & Hc & Fp & Fr & Fh)
                       | (c1 & c2 & H1 & H2 & Fp & Fr & Hoff & Hon)]].
      * rewrite Fp, Fh. split; [assumption|]. split; [assumption|].
        eapply Forall_impl; [exact Hok|]. intros p.
        apply (task_ok_grow _ _ []). rewrite app_nil_r. exact Fr.
      * rewrite Fp, Fh, !filter_snoc_length. cbn [is_search is_states fst].
        rewrite !Nat.add_0_r. split; [assumption|]. split; [assumption|].
        apply Forall_app. split.
        -- eapply Forall_impl; [exact Hok|]. intros p. apply (task_ok_grow _ _ _ _ Fr).
        -- constructor; [|constructor].
           apply (task_ok_new (world s) _ (FetchCities c) Hc Fr).
      * rewrite Fp, Hon, !filter_snoc_length. rewrite Hoff in Hsearch.
        cbn [is_search is_states fst]. rewrite Hsearch, Nat.add_0_r.
        split; [reflexivity|]. split; [assumption|].
        apply Forall_app. split.
        -- eapply Forall_impl; [exact Hok|]. intros p. apply (task_ok_grow _ _ _ _ Fr).
        -- constructor; [|constructor].
           apply (task_ok_new (world s) _ (SearchHospitals c1 c2) (conj H1 H2) Fr).
Qed.

Lemma flights_match_flags_witness :
  reachable searching
  /\ length (List.filter is_search (pending searching))
     = (if Loading.hospitals (isLoading (ui searching)) then 1 else 0)%nat
  /\ Forall (task_ok (world searching)) (pending searching).
Proof.
  assert (H : reachable searching).
  { exists (fresh_world empty_storage meddata),
      [SelectState (Some "Texas"); Settle 1; SelectCity (Some "Austin"); ClickSearch].
    reflexivity. }
  split; [exact H|].
  split; [exact (proj1 (flights_match_flags searching H))
         |exact (proj2 (proj2 (flights_match_flags searching H)))].
Defined.

(** ** More on the search results *)

Lemma project_as_props x y : project x = Ok y -> y = project_props (props_of x).
Proof.
  destruct x; cbn; intros H; try discriminate; injection H as <-; reflexivity.
Qed.

Lemma array_map_project_elements d projected :
  array_map project d = Ok projected ->
  Forall (fun y => exists h, y = project_props h) projected.
Proof.
  unfold array_map. destruct d as [[| | | |l|]|]; try discriminate.
  revert projected. induction l as [|x l IH]; intros projected H.
  - injection H as <-. constructor.
  - cbn [foldr] in H. destruct (project x) as [y|] eqn:Hx; [|discriminate].
    destruct (foldr _ _ l) as [ys|]; [|discriminate]. injection H as <-.
    constructor; [eexists; apply (project_as_props _ _ Hx) | apply IH; reflexivity].
Qed.

Lemma or_else_defaulted o : defaulted (or_else o (JStr "")).
Proof.
  unfold defaulted, or_else. destruct o as [v|]; [|auto].
  destruct (truthy v) eqn:E; auto.
Qed.

Lemma card_ready_project h : named h = true -> card_ready (project_props h).
Proof.
  intros Hn. unfold card_ready, project_props. do 5 eexists. split; [reflexivity|].
  split; [|auto using or_else_defaulted].
  unfold named in Hn. destruct (assoc "Hospital Name" h) as [v|]; [|discriminate].
  cbn in *. rewrite Hn. exact Hn.
Qed.

Lemma filter_has_name_ready projected :
  Forall (fun y => exists h, y = project_props h) projected ->
  Forall card_ready (List.filter has_name projected).
Proof.
  induction 1 as [|y l [h ->] _ IH]; [constructor|].
  cbn [List.filter]. destruct (has_name (project_props h)) eqn:E; [|exact IH].
  constructor; [|exact IH]. apply card_ready_project. rewrite <- has_name_project. exact E.
Qed.

(** X11. In every state the component reaches, each search result is an
    object with exactly the five fields of the projection, in their
    order, its name is truthy, and each other field is truthy or the
    empty string. *)
Theorem results_card_ready s :
  reachable s -> Forall card_ready (searchResults (ui s)).
Proof.
  revert s. apply reachable_ind'.
  - intros w. unfold mount. destruct (getBookings w) as [r w']. cbn. constructor.
  - intros e s IH. destruct (settle_or_not e) as [[k ->]|Hns].
    + cbn [step]. destruct (pending s !! k) as [[t call]|] eqn:Hk; [|exact IH].
      destruct t as [|s0|s0 c0].
      * destruct (resume_frame FetchStates call (with_pending (delete k) s))
          as (_ & _ & _ & _ & _ & _ & Hr & _). rewrite (Hr eq_refl). exact IH.
      * destruct (resume_frame (FetchCities s0) call (with_pending (delete k) s))
          as (_ & _ & _ & _ & _ & _ & Hr & _). rewrite (Hr eq_refl). exact IH.
      * cbn [resume]. rewrite handleSearch_resume_unfold.
        destruct (handled _ _) as [projected|e] eqn:Hh; cbn; [|constructor].
        apply filter_has_name_ready.
        unfold handled in Hh. destruct (eval _ _) as [d|e]; [|discriminate].
        exact (array_map_project_elements _ _ Hh).
    + destruct (handler_frame e s Hns) as (_ & [Hr|Hr] & _); rewrite Hr;
        [exact IH | constructor].
Qed.

Lemma results_card_ready_witness :
  reachable searched /\ Forall card_ready (searchResults (ui searched)).
Proof.
  assert (H : reachable searched).
  { exists (fresh_world empty_storage meddata),
      [SelectState (Some "Texas"); Settle 1; SelectCity (Some "Austin"); ClickSearch;
       Settle 1].
    reflexivity. }
  split; [exact H|]. exact (results_card_ready searched H).
Defined.

(** ** More on the lists of the dropdowns *)

Lemma insert_sorted_perm x l : Permutation (insert_sorted x l) (x :: l).
Proof.
  induction l as [|y l IH]; [reflexivity|]. cbn [insert_sorted].
  destruct (String.leb (to_string x) (to_string y)); [reflexivity|].
  rewrite IH. apply perm_swap.
Qed.

Lemma sort_perm l : Permutation (Js.sort l) l.
Proof.
  induction l as [|x l IH]; [reflexivity|].
  unfold Js.sort in *. cbn [foldr]. rewrite insert_sorted_perm, IH. reflexivity.
Qed.

Lemma insert_sorted_hd x y l :
  string_order y x -> HdRel string_order y l -> HdRel string_order y (insert_sorted x l).
Proof.
  intros Hyx Hl. destruct l as [|z l]; cbn [insert_sorted]; [constructor; exact Hyx|].
  destruct (String.leb (to_string x) (to_string z)); constructor; [exact Hyx|].
  inversion Hl; assumption.
Qed.

Lemma insert_sorted_sorted x l :
  Sorted string_order l -> Sorted string_order (insert_sorted x l).
Proof.
  induction 1 as [|y l Hs IH Hhd]; [repeat constructor|].
  cbn [insert_sorted].
  destruct (String.leb (to_string x) (to_string y)) eqn:E.
  - constructor; [constructor; assumption | constructor; exact E].
  - constructor; [exact IH|]. apply insert_sorted_hd; [|exact Hhd].
    unfold string_order.
    destruct (String.leb_total (to_string x) (to_string y)) as [H|H]; congruence.
Qed.

Lemma sort_sorted l : Sorted string_order (Js.sort l).
Proof.
  induction l as [|x l IH]; [constructor|].
  unfold Js.sort in *. cbn [foldr]. apply insert_sorted_sorted, IH.
Qed.

Lemma omap_id_length (l : list (option json)) : (length (omap id l) <= length l)%nat.
Proof. induction l as [|[v|] l IH]; cbn; lia. Qed.

Lemma holes_replicate (l : list (option json)) :
  filter (fun o => o = None) l = replicate (length l - length (omap id l)) None.
Proof.
  induction l as [|[v|] l IH].
  - reflexivity.
  - rewrite filter_cons_False by discriminate. rewrite IH. reflexivity.
  - rewrite filter_cons_True by reflexivity. rewrite IH.
    change (omap id (None :: l)) with (omap id l).
    pose proof (omap_id_length l).
    replace (length (None :: l) - length (omap id l))%nat
      with (S (length l - length (omap id l))) by (cbn [length]; lia).
    reflexivity.
Qed.

(** X12. When the fetch of the cities settles with an array, the
    cities list holds exactly the elements of the response, each as often
    as the response has it, in ascending order of their string forms;
    when the fetch of the states settles with an array of objects, the
    states list holds the [state] fields that the items have, in
    ascending order of their string forms, followed by one [undefined]
    for every item without the field. *)
Theorem lists_sorted sys k call :
  (forall s l,
     pending sys !! k = Some (FetchCities s, call) ->
     eval (fetchWithRetry_default_resume (cities_url s) call) (world sys)
     = Ok (Some (JArr l)) ->
     Permutation (cities (ui (step (Settle k) sys))) l
     /\ Sorted string_order (cities (ui (step (Settle k) sys))))
  /\ (forall hs,
        pending sys !! k = Some (FetchStates, call) ->
        eval (fetchWithRetry_default_resume states_url call) (world sys)
        = Ok (Some (JArr (map JObj hs))) ->
        exists named_states,
          states (ui (step (Settle k) sys))
          = (map Some named_states
             ++ replicate (length hs - length named_states) None)%list
          /\ Permutation named_states (omap (assoc "state") hs)
          /\ Sorted string_order named_states).
Proof.
  split.
  - intros s l Hk Hf. rewrite (settle_unfold _ _ _ _ Hk). cbn [resume].
    rewrite fetchCities_resume_unfold. cbn [world with_pending].
    rewrite Hf. cbn. split; [apply sort_perm | apply sort_sorted].
  - intros hs Hk Hf. rewrite (settle_unfold _ _ _ _ Hk). cbn [resume].
    rewrite fetchStates_resume_unfold. cbn [world with_pending].
    rewrite Hf. cbn [handled].
    assert (Hm : array_map (fun item => get_prop item "state") (Some (JArr (map JObj hs)))
                 = Ok (map (assoc "state") hs)).
    { clear. unfold array_map. induction hs as [|h hs IH]; [reflexivity|].
      cbn [map foldr get_prop]. rewrite IH. reflexivity. }
    rewrite Hm.
    change (states (ui (exec (setStates ?v;; ?k) ?s))) with v.
    exists (Js.sort (omap id (map (assoc "state") hs))).
    assert (Ho : omap id (map (assoc "state") hs) = omap (assoc "state") hs).
    { clear. induction hs as [|h hs IH]; [reflexivity|].
      cbn. destruct (assoc "state" h); cbn; rewrite ?IH; reflexivity. }
    split; [|rewrite <- Ho; split; [apply sort_perm | apply sort_sorted]].
    unfold sort_holes. f_equal.
    rewrite (Permutation_length (sort_perm _)), holes_replicate, length_map.
    reflexivity.
Qed.

Lemma lists_sorted_witness :
  pending overtaken !! 1%nat = Some (FetchCities "Texas", Some 1%nat)
  /\ eval (fetchWithRetry_default_resume (cities_url "Texas") (Some 1%nat))
          (world overtaken)
     = Ok (Some (JArr [JStr "Dallas"; JStr "Austin"]))
  /\ Sorted string_order (cities (ui (step (Settle 1) overtaken))).
Proof.
  assert (H1 : pending overtaken !! 1%nat = Some (FetchCities "Texas", Some 1%nat))
    by (vm_compute; reflexivity).
  assert (H2 : eval (fetchWithRetry_default_resume (cities_url "Texas") (Some 1%nat))
          (world overtaken)
               = Ok (Some (JArr [JStr "Dallas"; JStr "Austin"])))
    by (vm_compute; reflexivity).
  repeat (split; [assumption|]).
  exact (proj2 (proj1 (lists_sorted overtaken 1 (Some 1%nat)) "Texas" _ H1 H2)).
Defined.

(** ** More on what the page shows *)

Lemma select_state_frame sys v :
  v <> selectedState (ui sys) ->
  selectedCity (ui (step (SelectState v) sys)) = None
  /\ searchResults (ui (step (SelectState v) sys)) = []
  /\ selectedState (ui (step (SelectState v) sys)) = v
  /\ Loading.hospitals (isLoading (ui (step (SelectState v) sys)))
     = Loading.hospitals (isLoading (ui sys))
  /\ exists new, pending (step (SelectState v) sys) = (pending sys ++ new)%list
                 /\ Forall (fun t => is_search t = false) new.
Proof.
  intros Hne. unfold step. rewrite (same_neq _ _ Hne).
  destruct v as [s|]; cbn [selectedState_effect].
  - destruct (String.eqb s ""); cbn; repeat split; try reflexivity.
    + exists []. rewrite app_nil_r. auto.
    + eexists [_]. split; [reflexivity|]. repeat constructor.
  - cbn. repeat split; try reflexivity. exists []. rewrite app_nil_r. auto.
Qed.

(** X13. A search that settles after the selected state has changed
    breaks the page: the stale hospitals become the search results while
    the selected city is [null], and the heading of the results, which
    calls [selectedCity.toLowerCase()], throws. *)
Theorem stale_search_breaks_heading sys k s c call v hs :
  pending sys !! k = Some (SearchHospitals s c, call) ->
  v <> selectedState (ui sys) ->
  eval (fetchWithRetry_default_resume (hospitals_url s c) call)
       (world (step (SelectState v) sys))
  = Ok (Some (JArr (map JObj hs))) ->
  List.filter named hs <> [] ->
  selectedCity (ui (step (Settle k) (step (SelectState v) sys))) = None
  /\ searchResults (ui (step (Settle k) (step (SelectState v) sys)))
     = map project_props (List.filter named hs)
  /\ Render.results_heading (ui (step (Settle k) (step (SelectState v) sys)))
     = Throw TypeError.
Proof.
  intros Hk Hne Hf Hnamed.
  destruct (select_state_frame sys v Hne) as (Hc & _ & _ & _ & new & Hp & _).
  assert (Hk' : pending (step (SelectState v) sys) !! k
                = Some (SearchHospitals s c, call)).
  { rewrite Hp. apply lookup_app_l_Some. exact Hk. }
  rewrite (settle_unfold _ _ _ _ Hk').
  destruct (resume_frame (SearchHospitals s c) call
              (with_pending (delete k) (step (SelectState v) sys)))
    as (_ & _ & Hcity & _).
  cbn [ui with_pending] in Hcity.
  assert (Hres : searchResults
                   (ui (exec (resume (SearchHospitals s c) call)
                          (with_pending (delete k) (step (SelectState v) sys))))
                 = map project_props (List.filter named hs)).
  { cbn [resume]. rewrite handleSearch_resume_unfold. cbn [world with_pending].
    rewrite Hf. cbn [handled]. rewrite array_map_project_objects. cbn.
    apply filter_project. }
  split; [rewrite Hcity; exact Hc|]. split; [exact Hres|].
  unfold Render.results_heading. rewrite Hres, Hcity, Hc.
  destruct (List.filter named hs); [contradiction|]. reflexivity.
Qed.

Lemma stale_search_breaks_heading_witness :
  pending searching !! 1%nat = Some (SearchHospitals "Texas" "Austin", Some 2%nat)
  /\ Some "Alabama" <> selectedState (ui searching)
  /\ eval (fetchWithRetry_default_resume (hospitals_url "Texas" "Austin") (Some 2%nat))
          (world (step (SelectState (Some "Alabama")) searching))
     = Ok (Some (JArr (map JObj austin_records)))
  /\ List.filter named austin_records <> []
  /\ Render.results_heading
       (ui (step (Settle 1) (step (SelectState (Some "Alabama")) searching)))
     = Throw TypeError.
Proof.
  assert (H1 : pending searching !! 1%nat
               = Some (SearchHospitals "Texas" "Austin", Some 2%nat))
    by (vm_compute; reflexivity).
  assert (H2 : Some "Alabama" <> selectedState (ui searching))
    by (vm_compute; discriminate).
  assert (H3 : eval (fetchWithRetry_default_resume (hospitals_url "Texas" "Austin")
                       (Some 2%nat))
                 (world (step (SelectState (Some "Alabama")) searching))
               = Ok (Some (JArr (map JObj austin_records))))
    by (vm_compute; reflexivity).
  assert (H4 : List.filter named austin_records <> []) by (vm_compute; discriminate).
  repeat (split; [assumption|]).
  exact (proj2 (proj2 (stale_search_breaks_heading _ _ _ _ _ _ _ H1 H2 H3 H4))).
Defined.

(** X14. The page says that no medical centers were found before any
    search has been made. After a state has been chosen, its cities have
    arrived and one of them has been chosen, the results are empty, both
    selections are set and no search is loading, so the message shows;
    the only requests made on the way are those for the cities, and no
    call has been added to those in flight. *)
Theorem no_results_before_search sys s c l :
  s <> "" -> c <> "" ->
  Some s <> selectedState (ui sys) ->
  Loading.hospitals (isLoading (ui sys)) = false ->
  let chosen := step (SelectState (Some s)) sys in
  let arrived := step (Settle (length (pending sys))) chosen in
  eval (fetchWithRetry_default_resume (cities_url s)
          (Some (length (requests (world sys)))))
       (world chosen)
  = Ok (Some (JArr l)) ->
  In (JStr c) l ->
  In (JStr c) (cities (ui arrived))
  /\ Loading.cities (isLoading (ui arrived)) = false
  /\ Render.no_results_message (ui (step (SelectCity (Some c)) arrived)) = true
  /\ pending (step (SelectCity (Some c)) arrived) = pending sys
  /\ exists m,
       (1 <= m <= 3)%nat
       /\ requests (world (step (SelectCity (Some c)) arrived))
          = (requests (world sys) ++ replicate m (cities_url s, JObj []))%list.
Proof.
  intros Hs Hc Hne Hl chosen arrived Hf Hin.
  assert (Es : String.eqb s "" = false) by (apply String.eqb_neq; exact Hs).
  assert (E : chosen
              = {| ui := ui (exec (setSelectedState (Some s);;
                                   setIsLoading (Loading.set_cities true);;
                                   setCities [];; setSelectedCity None;;
                                   setSearchResults []) sys);
                   world := with_request (cities_url s, JObj []) (world sys);
                   pending :=
                     (pending sys
                      ++ [(FetchCities s, Some (length (requests (world sys))))])%list
                |}).
  { unfold chosen, step. rewrite (same_neq _ _ Hne). unfold selectedState_effect.
    rewrite Es. reflexivity. }
  assert (Hk : pending chosen !! length (pending sys)
               = Some (FetchCities s, Some (length (requests (world sys))))).
  { rewrite E. cbn. apply list_lookup_middle. reflexivity. }
  assert (Ea : arrived
               = exec (resume (FetchCities s) (Some (length (requests (world sys)))))
                   (with_pending (delete (length (pending sys))) chosen))
    by (apply settle_unfold; exact Hk).
  destruct (resume_frame (FetchCities s) (Some (length (requests (world sys))))
              (with_pending (delete (length (pending sys))) chosen))
    as (Hp & Hst & Hct & _ & _ & Hfl & Hres & m & Hm & Hrq).
  rewrite <- Ea in Hp, Hst, Hct, Hfl, Hres, Hrq. specialize (Hres eq_refl).
  assert (Hcities : cities (ui arrived) = Js.sort l).
  { rewrite Ea. cbn [resume]. apply fetchCities_resume_ok. exact Hf. }
  assert (Hdel : delete (length (pending sys)) (pending chosen) = pending sys).
  { rewrite E. cbn [pending]. rewrite delete_middle. apply app_nil_r. }
  cbn [pending with_pending ui world] in Hp, Hst, Hct, Hfl, Hres, Hrq.
  split; [rewrite Hcities; apply (Permutation_in _ (Permutation_sym (sort_perm l)));
          exact Hin|].
  split; [rewrite Hfl; reflexivity|].
  split; [|split].
  - unfold Render.no_results_message. cbn [step].
    change (searchResults (ui (exec (setSelectedCity (Some c)) arrived)))
      with (searchResults (ui arrived)).
    change (selectedState (ui (exec (setSelectedCity (Some c)) arrived)))
      with (selectedState (ui arrived)).
    change (selectedCity (ui (exec (setSelectedCity (Some c)) arrived)))
      with (Some c).
    change (isLoading (ui (exec (setSelectedCity (Some c)) arrived)))
      with (isLoading (ui arrived)).
    rewrite Hres, Hst, Hfl, E. clear - Hs Hc Hl.
    destruct s as [|a s]; [contradiction|]. destruct c as [|b c]; [contradiction|].
    destruct sys as [[? ? ? ? ? ? ? [? ? ?]] ? ?]. cbn in *. subst. reflexivity.
  - cbn [step]. change (pending (exec (setSelectedCity (Some c)) arrived))
      with (pending arrived). rewrite Hp. exact Hdel.
  - exists (S m). split; [lia|]. cbn [step].
    change (world (exec (setSelectedCity (Some c)) arrived)) with (world arrived).
    rewrite Hrq, E. cbn [world url_of requests with_request].
    rewrite <- app_assoc. reflexivity.
Qed.

Lemma no_results_before_search_witness :
  In (Some (JStr "Texas")) (states (ui loaded))
  /\ "Texas" <> "" /\ "Austin" <> ""
  /\ Some "Texas" <> selectedState (ui loaded)
  /\ Loading.hospitals (isLoading (ui loaded)) = false
  /\ eval (fetchWithRetry_default_resume (cities_url "Texas") (Some 1%nat))
          (world (step (SelectState (Some "Texas")) loaded))
     = Ok (Some (JArr [JStr "Dallas"; JStr "Austin"]))
  /\ In (JStr "Austin") [JStr "Dallas"; JStr "Austin"]
  /\ Render.no_results_message
       (ui (run [SelectState (Some "Texas"); Settle 0; SelectCity (Some "Austin")]
              loaded))
     = true.
Proof.
  assert (H0 : In (Some (JStr "Texas")) (states (ui loaded)))
    by (vm_compute; right; left; reflexivity).
  assert (H1 : "Texas" <> "") by discriminate.
  assert (H2 : "Austin" <> "") by discriminate.
  assert (H3 : Some "Texas" <> selectedState (ui loaded))
    by (vm_compute; discriminate).
  assert (H4 : Loading.hospitals (isLoading (ui loaded)) = false)
    by (vm_compute; reflexivity).
  assert (H5 : eval (fetchWithRetry_default_resume (cities_url "Texas") (Some 1%nat))
                 (world (step (SelectState (Some "Texas")) loaded))
               = Ok (Some (JArr [JStr "Dallas"; JStr "Austin"])))
    by (vm_compute; reflexivity).
  assert (H6 : In (JStr "Austin") [JStr "Dallas"; JStr "Austin"])
    by (right; left; reflexivity).
  repeat (split; [assumption|]).
  exact (proj1 (proj2 (proj2 (no_results_before_search loaded
                                "Texas" "Austin" _ H1 H2 H3 H4 H5 H6)))).
Defined.

(** ** The dropdown *)

Lemma strip_prefix_spec p :
  forall s r, strip_prefix p s = Some r <-> s = p ++ r.
Proof.
  induction p as [|a p IH]; intros s r; cbn [strip_prefix].
  - rewrite app_empty_l. split; congruence.
  - rewrite app_String. destruct s as [|b s]; [split; discriminate|].
    destruct (Ascii.eqb_spec a b) as [->|Hab].
    + rewrite IH. split; congruence.
    + split; [discriminate | congruence].
Qed.

Lemma includes_spec s t :
  includes s t = true <-> exists a b, s = a ++ t ++ b.
Proof.
  split.
  - induction s as [|c s IH]; cbn [includes];
      destruct (strip_prefix t _) as [r|] eqn:E;
      try (apply strip_prefix_spec in E; intros _; exists "", r;
           rewrite app_empty_l; exact E);
      [discriminate|].
    intros H. destruct (IH H) as (a & b & ->). exists (String c a), b.
    rewrite app_String. reflexivity.
  - intros (a & b & ->). induction a as [|c a IH].
    + rewrite app_empty_l. destruct (t ++ b) eqn:E; cbn [includes];
        rewrite <- E, (proj2 (strip_prefix_spec t (t ++ b) b) eq_refl); reflexivity.
    + rewrite app_String. cbn [includes]. rewrite IH.
      destruct (strip_prefix t _); reflexivity.
Qed.

Lemma toLowerCase_app a b : toLowerCase (a ++ b) = toLowerCase a ++ toLowerCase b.
Proof.
  induction a as [|c a IH]; [reflexivity|].
  rewrite app_String. cbn [toLowerCase]. rewrite IH, app_String. reflexivity.
Qed.

Lemma lower_char_idem c : lower_char (lower_char c) = lower_char c.
Proof. destruct c as [[] [] [] [] [] [] [] []]; reflexivity. Qed.

Lemma toLowerCase_idem s : toLowerCase (toLowerCase s) = toLowerCase s.
Proof.
  induction s as [|c s IH]; [reflexivity|].
  cbn [toLowerCase]. rewrite lower_char_idem, IH. reflexivity.
Qed.

Lemma includes_empty s : includes s "" = true.
Proof. destruct s; reflexivity. Qed.

Lemma listed_iff options term o :
  In o (Dropdown.filteredOptions options term)
  <-> In o options
      /\ exists s, o = Some (JStr s)
                   /\ exists a b, toLowerCase s = a ++ toLowerCase term ++ b.
Proof.
  unfold Dropdown.filteredOptions. rewrite filter_In. split.
  - intros [Hin H]. split; [exact Hin|].
    destruct o as [[| | |s| |]|]; try discriminate.
    exists s. split; [reflexivity|]. apply includes_spec. exact H.
  - intros [Hin (s & -> & H)]. split; [exact Hin|]. apply includes_spec. exact H.
Qed.

(** X15. The dropdown offers exactly the options that are strings and
    contain the search term, upper and lower case taken as the same, in
    the order of the options; with an empty search box these are all the
    strings among the options; the case of the search term does not
    matter. *)
Theorem dropdown_lists options term :
  (forall o,
     In o (Dropdown.filteredOptions options term)
     <-> In o options
         /\ exists s, o = Some (JStr s)
                      /\ exists a b, toLowerCase s = a ++ toLowerCase term ++ b)
  /\ sublist (Dropdown.filteredOptions options term) options
  /\ Dropdown.filteredOptions options "" = List.filter is_string options
  /\ Dropdown.filteredOptions options (toLowerCase term)
     = Dropdown.filteredOptions options term.
Proof.
  split; [intros o; apply listed_iff|]. split; [|split].
  - unfold Dropdown.filteredOptions. induction options as [|o l IH]; [constructor|].
    cbn [List.filter]. destruct (match o with Some (JStr _) => _ | _ => _ end);
      [apply sublist_skip | apply sublist_cons]; exact IH.
  - unfold Dropdown.filteredOptions. apply filter_ext. intros [[| | |s| |]|]; try reflexivity.
    cbn [toLowerCase is_string]. apply includes_empty.
  - unfold Dropdown.filteredOptions. rewrite toLowerCase_idem. reflexivity.
Qed.

(** X16. Typing on narrows the list: what is offered for a longer
    search term is offered for each part of it, and filtering the list
    already shown gives the same as filtering all the options. *)
Theorem dropdown_narrows options t u :
  (forall o,
     In o (Dropdown.filteredOptions options (t ++ u)) ->
     In o (Dropdown.filteredOptions options t)
     /\ In o (Dropdown.filteredOptions options u))
  /\ Dropdown.filteredOptions (Dropdown.filteredOptions options t) (t ++ u)
     = Dropdown.filteredOptions options (t ++ u).
Proof.
  assert (Hpart : forall s, includes (toLowerCase s) (toLowerCase (t ++ u)) = true ->
                    includes (toLowerCase s) (toLowerCase t) = true
                    /\ includes (toLowerCase s) (toLowerCase u) = true).
  { intros s H. apply includes_spec in H as (a & b & H).
    rewrite toLowerCase_app in H. split; apply includes_spec.
    - exists a, (toLowerCase u ++ b). rewrite H, !string_app_assoc. reflexivity.
    - exists (a ++ toLowerCase t), b. rewrite H, !string_app_assoc. reflexivity. }
  split.
  - intros o Ho. apply listed_iff in Ho as (Hin & s & -> & H).
    apply includes_spec in H. destruct (Hpart s H) as [H1 H2].
    split; apply listed_iff; (split; [exact Hin|]); exists s;
      (split; [reflexivity|]); apply includes_spec; assumption.
  - unfold Dropdown.filteredOptions.
    induction options as [|o l IH]; [reflexivity|].
    cbn [List.filter].
    destruct o as [[| | |s| |]|]; try exact IH.
    destruct (includes (toLowerCase s) (toLowerCase (t ++ u))) eqn:E.
    + destruct (Hpart s E) as [H1 _]. rewrite H1. cbn [List.filter]. rewrite E, IH.
      reflexivity.
    + destruct (includes (toLowerCase s) (toLowerCase t)); [|exact IH].
      cbn [List.filter]. rewrite E. exact IH.
Qed.

(** X17. Only what the dropdown lists can be chosen: a click has an
    effect only while the dropdown is open and its options are not
    loading, what it hands to [onSelect] is a string among the options
    that contains the search term, and the dropdown is closed afterwards
    with its search term kept. *)
Theorem dropdown_click options isLoading i d o d' :
  Dropdown.click options isLoading i d = Some (o, d') ->
  Dropdown.isOpen d = true /\ isLoading = false
  /\ Dropdown.filteredOptions options (Dropdown.searchTerm d) !! i = Some o
  /\ In o options
  /\ (exists s, o = Some (JStr s)
                /\ includes (toLowerCase s) (toLowerCase (Dropdown.searchTerm d)) = true)
  /\ Dropdown.isOpen d' = false
  /\ Dropdown.searchTerm d' = Dropdown.searchTerm d.
Proof.
  unfold Dropdown.click. intros H.
  destruct (Dropdown.isOpen d); [|discriminate].
  destruct isLoading; [discriminate|]. cbn [andb negb] in H.
  destruct (Dropdown.filteredOptions options (Dropdown.searchTerm d) !! i) as [o0|] eqn:E;
    [|discriminate].
  injection H as <- <-.
  assert (Hin : In o0 (Dropdown.filteredOptions options (Dropdown.searchTerm d))).
  { apply list_elem_of_In. apply list_elem_of_lookup. eauto. }
  apply listed_iff in Hin as (Hin & s & -> & Hs).
  repeat split; try reflexivity; try assumption.
  exists s. split; [reflexivity|]. apply includes_spec. exact Hs.
Qed.

Lemma dropdown_click_witness :
  Dropdown.click [Some (JStr "Alabama"); None; Some (JStr "Texas")] false 0
    {| Dropdown.isOpen := true; Dropdown.searchTerm := "TEX" |}
  = Some (Some (JStr "Texas"),
          {| Dropdown.isOpen := false; Dropdown.searchTerm := "TEX" |})
  /\ In (Some (JStr "Texas")) [Some (JStr "Alabama"); None; Some (JStr "Texas")].
Proof.
  assert (H : Dropdown.click [Some (JStr "Alabama"); None; Some (JStr "Texas")] false 0
                {| Dropdown.isOpen := true; Dropdown.searchTerm := "TEX" |}
              = Some (Some (JStr "Texas"),
                      {| Dropdown.isOpen := false; Dropdown.searchTerm := "TEX" |}))
    by (vm_compute; reflexivity).
  split; [exact H|].
  exact (proj1 (proj2 (proj2 (proj2 (dropdown_click _ _ _ _ _ _ H))))).
Defined.

(** ** The booking modal *)

Lemma assoc_obj_set k v ps :
  assoc k (obj_set k v ps) = Some v
  /\ forall k', k' <> k -> assoc k' (obj_set k v ps) = assoc k' ps.
Proof.
  induction ps as [|[k0 v0] ps [IH1 IH2]]; cbn [obj_set assoc].
  - rewrite String.eqb_refl. split; [reflexivity|].
    intros k' Hk. apply String.eqb_neq in Hk. rewrite Hk. reflexivity.
  - destruct (String.eqb_spec k k0) as [->|Hk0]; cbn [assoc].
    + rewrite String.eqb_refl. split; [reflexivity|].
      intros k' Hk. apply String.eqb_neq in Hk. rewrite Hk. reflexivity.
    + apply String.eqb_neq in Hk0. rewrite Hk0. split; [exact IH1|].
      intros k' Hk. destruct (String.eqb k' k0); [reflexivity|]. apply IH2, Hk.
Qed.

Lemma mem_obj_set k' k v ps :
  mem_string k' (map fst (obj_set k v ps))
  = mem_string k' (map fst ps) || String.eqb k' k.
Proof.
  induction ps as [|[k0 v0] ps IH]; cbn [obj_set map fst mem_string].
  - rewrite orb_false_r. reflexivity.
  - destruct (String.eqb_spec k k0) as [->|Hk0]; cbn [map fst mem_string].
    + destruct (String.eqb k' k0), (mem_string k' (map fst ps)); reflexivity.
    + rewrite IH.
      destruct (String.eqb k' k0), (mem_string k' (map fst ps)), (String.eqb k' k);
        reflexivity.
Qed.

Lemma obj_set_nodup k v ps :
  nodup_keys (map fst ps) = true -> nodup_keys (map fst (obj_set k v ps)) = true.
Proof.
  induction ps as [|[k0 v0] ps IH]; cbn [obj_set map fst nodup_keys]; [reflexivity|].
  intros H. apply andb_true_iff in H as [H1 H2].
  destruct (String.eqb_spec k k0) as [->|Hk0]; cbn [map fst nodup_keys].
  - rewrite H1, H2. reflexivity.
  - rewrite mem_obj_set, (IH H2).
    apply negb_true_iff in H1. rewrite H1.
    assert (E : String.eqb k0 k = false) by (apply String.eqb_neq; congruence).
    rewrite E. reflexivity.
Qed.

Lemma obj_set_values k v ps :
  wf v = true ->
  forallb (fun kv => wf (snd kv)) ps = true ->
  forallb (fun kv => wf (snd kv)) (obj_set k v ps) = true.
Proof.
  intros Hv. induction ps as [|[k0 v0] ps IH]; cbn [obj_set forallb snd].
  - rewrite Hv. reflexivity.
  - intros H. apply andb_true_iff in H as [H1 H2].
    destruct (String.eqb k k0); cbn [forallb snd].
    + rewrite Hv, H2. reflexivity.
    + rewrite H1, (IH H2). reflexivity.
Qed.

Lemma obj_set_wf k v ps :
  wf v = true -> wf (JObj ps) = true -> wf (JObj (obj_set k v ps)) = true.
Proof.
  cbn [wf]. intros Hv H. apply andb_true_iff in H as [H1 H2].
  rewrite (obj_set_nodup _ _ _ H1), (obj_set_values _ _ _ Hv H2). reflexivity.
Qed.

Lemma confirm_unfold m s hospital slot :
  bookingHospital (ui s) = Some hospital ->
  truthy hospital = true ->
  BookingModal.selectedTimeSlot m = Some slot ->
  slot <> "" ->
  confirm m s
  = exec (handleBook (BookingModal.booking_record hospital
                        (BookingModal.selectedDate m) slot);;
          closeBookingModal) s.
Proof.
  intros Hh Ht Hs Hne. unfold confirm, BookingModal.handleBook.
  apply String.eqb_neq in Hne. rewrite Hh, Ht, Hs, Hne. reflexivity.
Qed.

(** X18. The confirm button of the modal books only when a time slot is
    chosen: without one nothing happens at all. With one, the booking
    list gains one record at its end, made of the hospital of the modal
    with the chosen day and slot, that list is handed to [saveBookings],
    and the modal closes. When the booking list cannot take a record
    ([handleBook] throws), nothing is changed and the modal stays open. *)
Theorem confirm_books m s hospital :
  bookingHospital (ui s) = Some hospital ->
  truthy hospital = true ->
  (falsy (BookingModal.selectedTimeSlot m) = true -> confirm m s = s)
  /\ (forall slot l,
        BookingModal.selectedTimeSlot m = Some slot -> slot <> "" ->
        bookings (ui s) = JArr l ->
        bookings (ui (confirm m s))
        = JArr (l ++ [BookingModal.booking_record hospital
                        (BookingModal.selectedDate m) slot])
        /\ bookingHospital (ui (confirm m s)) = None
        /\ world (confirm m s)
           = exec (saveBookings
                     (JArr (l ++ [BookingModal.booking_record hospital
                                    (BookingModal.selectedDate m) slot])))
                  (world s))
  /\ (forall slot,
        BookingModal.selectedTimeSlot m = Some slot -> slot <> "" ->
        not_iterable (bookings (ui s)) = true ->
        confirm m s = s).
Proof.
  intros Hh Ht. split; [|split].
  - intros Hf. unfold confirm, BookingModal.handleBook. rewrite Hh, Ht.
    unfold falsy in Hf. destruct (BookingModal.selectedTimeSlot m) as [slot|];
      [rewrite Hf|]; reflexivity.
  - intros slot l Hs Hne Hb. rewrite (confirm_unfold m s hospital slot Hh Ht Hs Hne).
    unfold handleBook, closeBookingModal, exec, mbind, M_bind, bind, get, lift.
    rewrite Hb. cbn [spread]. unfold setBookings, setBookingHospital, modify, browser, zoom.
    cbn [world with_ui]. rewrite saveBookings_unfold.
    destruct (setItem _ _ _); cbn; auto.
  - intros slot Hs Hne Hb. rewrite (confirm_unfold m s hospital slot Hh Ht Hs Hne).
    unfold handleBook, closeBookingModal, exec, mbind, M_bind, bind, get, lift.
    destruct (bookings (ui s)); try discriminate; reflexivity.
Qed.

Lemma confirm_books_witness :
  bookingHospital (ui (step (OpenModal austin_general) searched)) = Some austin_general
  /\ truthy austin_general = true
  /\ BookingModal.selectedTimeSlot
       (BookingModal.setSelectedTimeSlot "02:00 PM" (BookingModal.initial "2026-11-04"))
     = Some "02:00 PM"
  /\ "02:00 PM" <> ""
  /\ bookings (ui (step (OpenModal austin_general) searched)) = JArr []
  /\ bookings
       (ui (confirm
              (BookingModal.setSelectedTimeSlot "02:00 PM"
                 (BookingModal.initial "2026-11-04"))
              (step (OpenModal austin_general) searched)))
     = JArr [sample_booking]
  /\ falsy (BookingModal.selectedTimeSlot (BookingModal.initial "2026-11-04")) = true
  /\ confirm (BookingModal.initial "2026-11-04")
       (step (OpenModal austin_general) searched)
     = step (OpenModal austin_general) searched.
Proof.
  assert (H1 : bookingHospital (ui (step (OpenModal austin_general) searched))
               = Some austin_general) by reflexivity.
  assert (H2 : truthy austin_general = true) by reflexivity.
  assert (H3 : BookingModal.selectedTimeSlot
                 (BookingModal.setSelectedTimeSlot "02:00 PM"
                    (BookingModal.initial "2026-11-04"))
               = Some "02:00 PM") by reflexivity.
  assert (H4 : "02:00 PM" <> "") by discriminate.
  assert (H5 : bookings (ui (step (OpenModal austin_general) searched)) = JArr [])
    by (vm_compute; reflexivity).
  assert (H6 : falsy (BookingModal.selectedTimeSlot (BookingModal.initial "2026-11-04"))
               = true) by reflexivity.
  repeat (split; [assumption|]).
  split.
  - exact (proj1 (proj1 (proj2 (confirm_books _ _ _ H1 H2)) _ _ H3 H4 H5)).
  - split; [exact H6|].
    exact (proj1 (confirm_books (BookingModal.initial "2026-11-04") _ _ H1 H2) H6).
Defined.

(** Within a cycle of 400 years, the year and the day of the year that
    [civil_from_days] computes are in their ranges. *)
Lemma cycle_bounds doe :
  (0 <= doe < 146097)%Z ->
  let yoe := ((doe - doe / 1460 + doe / 36524 - doe / 146096) / 365)%Z in
  let doy := (doe - (365 * yoe + yoe / 4 - yoe / 100))%Z in
  (0 <= yoe <= 399 /\ 0 <= doy <= 366)%Z.
Proof.
  intros H yoe doy. subst doy yoe. Z.to_euclidean_division_equations. lia.
Qed.

(** The first of the month of a day, and the day of the month, give the
    day again. *)
Lemma civil_from_days_inverse z :
  match Dates.civil_from_days z with
  | (y, m, d) =>
      (1 <= m <= 12)%Z /\ (Dates.days_from_civil y m 1 + d - 1 = z)%Z
  end.
Proof.
  unfold Dates.civil_from_days, Dates.days_from_civil. cbv zeta.
  set (era := ((z + 719468) / 146097)%Z).
  set (doe := ((z + 719468) mod 146097)%Z).
  assert (Hd : (0 <= doe < 146097)%Z) by (apply Z.mod_pos_bound; lia).
  destruct (cycle_bounds doe Hd) as [Hy Hdoy].
  set (yoe := ((doe - doe / 1460 + doe / 36524 - doe / 146096) / 365)%Z) in *.
  set (doy := (doe - (365 * yoe + yoe / 4 - yoe / 100))%Z) in *.
  set (mp := ((5 * doy + 2) / 153)%Z).
  assert (Hmp : (0 <= mp <= 11)%Z)
    by (subst mp; Z.to_euclidean_division_equations; lia).
  assert (E : (z + 719468 = 146097 * era + doe)%Z)
    by (apply Z.div_mod; lia).
  destruct (Z.ltb_spec mp 10) as [Hlt|Hge].
  - destruct (Z.leb_spec (mp + 3) 2) as [|_]; [lia|].
    destruct (Z.ltb_spec 2 (mp + 3)) as [_|]; [|lia].
    split; [lia|].
    rewrite Z.div_add, Z.mod_add by lia.
    rewrite (Z.div_small yoe 400), (Z.mod_small yoe 400) by lia.
    replace (mp + 3 - 3)%Z with mp by lia. subst doy. lia.
  - destruct (Z.leb_spec (mp - 9) 2) as [_|]; [|lia].
    destruct (Z.ltb_spec 2 (mp - 9)) as [|_]; [lia|].
    split; [lia|].
    replace (yoe + era * 400 + 1 - 1)%Z with (yoe + era * 400)%Z by lia.
    rewrite Z.div_add, Z.mod_add by lia.
    rewrite (Z.div_small yoe 400), (Z.mod_small yoe 400) by lia.
    replace (mp - 9 + 9)%Z with mp by lia. subst doy. lia.
Qed.

Lemma setDate_later LocalTZA tv i :
  Dates.setDate LocalTZA tv (Dates.getDate LocalTZA tv + i)
  = Dates.UTC LocalTZA (Dates.LocalTime LocalTZA tv + i * Dates.msPerDay)%Z.
Proof.
  unfold Dates.setDate, Dates.getDate, Dates.MakeDate, Dates.MakeDay,
    Dates.YearFromTime, Dates.MonthFromTime, Dates.DateFromTime.
  set (t := Dates.LocalTime LocalTZA tv).
  pose proof (civil_from_days_inverse (Dates.Day t)) as H.
  destruct (Dates.civil_from_days (Dates.Day t)) as [[y m] d]. cbn [fst snd].
  destruct H as [Hm H].
  rewrite (Z.div_small (m - 1) 12), (Z.mod_small (m - 1) 12) by lia.
  replace (y + 0)%Z with y by lia. replace (m - 1 + 1)%Z with m by lia.
  f_equal. unfold Dates.Day, Dates.TimeWithinDay, Dates.msPerDay in *.
  pose proof (Z.div_mod t 86400000 ltac:(lia)). lia.
Qed.

Lemma dates_lookup LocalTZA today i date :
  Dates.dates LocalTZA today !! i = Some date ->
  (i < 7)%nat
  /\ date = Dates.UTC LocalTZA
              (Dates.LocalTime LocalTZA today + Z.of_nat i * Dates.msPerDay)%Z.
Proof.
  unfold Dates.dates. rewrite list_lookup_fmap.
  destruct (seq 0 7 !! i) as [j|] eqn:E; [|discriminate].
  apply lookup_seq in E as [-> Hi]. cbn [fmap option_fmap option_map].
  intros H. injection H as <-. split; [exact Hi|]. apply setDate_later.
Qed.



(** ** The navigation bar and the history of the window *)

Lemma route_of_path_of_route r :
  Navigation.route_of_path (Navigation.path_of_route r) = r.
Proof. destruct r; reflexivity. Qed.

Lemma act_route a n :
  Navigation.route n
  = Navigation.route_of_path (Navigation.pathname (Navigation.history n)) ->
  Navigation.route (Navigation.act a n)
  = Navigation.route_of_path
      (Navigation.pathname (Navigation.history (Navigation.act a n))).
Proof.
  intros H. destruct a as [r| | |]; cbn [Navigation.act].
  - cbn. rewrite route_of_path_of_route. reflexivity.
  - exact H.
  - unfold Navigation.back. destruct (Navigation.behind (Navigation.history n));
      [exact H|reflexivity].
  - unfold Navigation.forward. destruct (Navigation.ahead (Navigation.history n));
      [exact H|reflexivity].
Qed.

(** X20. Whatever the user does with the navigation bar and with the
    back and forward buttons of the browser, from a first render at any
    place of any history, the page shown is the one that the path of the
    window names: [MyBookings] at [/my-bookings], [Home] anywhere
    else. *)
Theorem route_follows_path h actions :
  let n := fold_left (fun n a => Navigation.act a n) actions (Navigation.initial h) in
  Navigation.route n
  = Navigation.route_of_path (Navigation.pathname (Navigation.history n)).
Proof.
  cbv zeta.
  assert (H0 : Navigation.route (Navigation.initial h)
               = Navigation.route_of_path
                   (Navigation.pathname (Navigation.history (Navigation.initial h))))
    by reflexivity.
  revert H0. generalize (Navigation.initial h) as n.
  induction actions as [|a actions IH]; intros n H; cbn [fold_left]; [exact H|].
  apply IH, act_route, H.
Qed.

(** X21. [navigate] always adds an entry to the history, also when the
    page asked for is the one shown, and closes the mobile menu. The back
    button then returns to the path and to the page left, with the menu
    still closed and the history behind as it was, and the forward button
    brings the page asked for again. *)
Theorem navigate_then_back n r :
  Navigation.route n
  = Navigation.route_of_path (Navigation.pathname (Navigation.history n)) ->
  Navigation.mobileMenuOpen (Navigation.navigate r n) = false
  /\ length (Navigation.behind (Navigation.history (Navigation.navigate r n)))
     = S (length (Navigation.behind (Navigation.history n)))
  /\ exists n',
       Navigation.back (Navigation.navigate r n) = Some n'
       /\ Navigation.route n' = Navigation.route n
       /\ Navigation.pathname (Navigation.history n')
          = Navigation.pathname (Navigation.history n)
       /\ Navigation.behind (Navigation.history n')
          = Navigation.behind (Navigation.history n)
       /\ Navigation.mobileMenuOpen n' = false
       /\ exists n'',
            Navigation.forward n' = Some n''
            /\ Navigation.route n'' = r
            /\ Navigation.history n''
               = Navigation.history (Navigation.navigate r n).
Proof.
  intros H. split; [reflexivity|]. split; [reflexivity|].
  eexists. split; [reflexivity|]. cbn.
  split; [symmetry; exact H|]. split; [reflexivity|]. split; [reflexivity|].
  split; [reflexivity|].
  eexists. split; [reflexivity|]. cbn. rewrite route_of_path_of_route.
  split; reflexivity.
Qed.

Lemma navigate_then_back_witness :
  Navigation.route deep_link
  = Navigation.route_of_path (Navigation.pathname (Navigation.history deep_link))
  /\ exists n',
       Navigation.back (Navigation.navigate Navigation.Home deep_link) = Some n'
       /\ Navigation.route n' = Navigation.MyBookings.
Proof.
  assert (H : Navigation.route deep_link
              = Navigation.route_of_path
                  (Navigation.pathname (Navigation.history deep_link)))
    by reflexivity.
  split; [exact H|].
  destruct (navigate_then_back deep_link Navigation.Home H)
    as (_ & _ & n' & Hb & Hr & _).
  exists n'. split; [exact Hb|exact Hr].
Defined.

(** ** What the pages show *)

Lemma title_spec x t :
  Render.title x = Ok t
  <-> exists s, get_prop x "Hospital Name" = Ok (Some (JStr s)) /\ t = toLowerCase s.
Proof.
  unfold Render.title. split.
  - destruct (get_prop x "Hospital Name") as [[[| | |s| |]|]|]; intros H;
      try discriminate.
    injection H as <-. exists s. auto.
  - intros (s & -> & ->). reflexivity.
Qed.

Lemma title_throws x e : Render.title x = Throw e -> e = TypeError.
Proof.
  unfold Render.title, get_prop.
  destruct x as [| | | | |ps]; cbn; try (intros H; injection H as <-; reflexivity).
  destruct (assoc "Hospital Name" ps) as [[| | |s| |]|]; intros H;
    try discriminate; injection H as <-; reflexivity.
Qed.

Lemma titles_cons x l :
  Render.titles (x :: l)
  = match Render.title x with
    | Ok t => match Render.titles l with Ok ts => Ok (t :: ts) | Throw e => Throw e end
    | Throw e => Throw e
    end.
Proof. reflexivity. Qed.

Lemma titles_throws l e : Render.titles l = Throw e -> e = TypeError.
Proof.
  induction l as [|x l IH]; [discriminate|]. rewrite titles_cons.
  destruct (Render.title x) as [t|e'] eqn:Hx.
  - destruct (Render.titles l) as [ts|e'']; [discriminate|].
    intros H. injection H as <-. apply IH. reflexivity.
  - intros H. injection H as <-. exact (title_throws _ _ Hx).
Qed.

Lemma titles_In x l :
  In x l -> Render.title x = Throw TypeError -> Render.titles l = Throw TypeError.
Proof.
  intros Hin Hx. induction l as [|y l IH]; [destruct Hin|]. rewrite titles_cons.
  destruct Hin as [->|Hin].
  - rewrite Hx. reflexivity.
  - rewrite (IH Hin). destruct (Render.title y) as [t|e] eqn:Hy; [reflexivity|].
    rewrite (title_throws _ _ Hy). reflexivity.
Qed.

Lemma titles_app l x ts t :
  Render.titles l = Ok ts -> Render.title x = Ok t ->
  Render.titles (l ++ [x]) = Ok (ts ++ [t])%list.
Proof.
  intros Hl Hx. revert ts Hl. induction l as [|y l IH]; intros ts Hl.
  - injection Hl as <-. cbn [app]. rewrite titles_cons, Hx. reflexivity.
  - cbn [app]. rewrite titles_cons in *. destruct (Render.title y) as [u|]; [|discriminate].
    destruct (Render.titles l) as [us|]; [|discriminate]. injection Hl as <-.
    rewrite (IH us eq_refl). reflexivity.
Qed.

Lemma array_map_project_total items :
  Forall (fun x => x <> JNull) items ->
  array_map project (Some (JArr items))
  = Ok (map (fun x => project_props (props_of x)) items).
Proof.
  unfold array_map. induction 1 as [|x l Hx _ IH]; [reflexivity|].
  cbn [foldr map]. rewrite IH.
  destruct x; try reflexivity. congruence.
Qed.

Lemma title_booking_record ps day slot :
  Render.title (BookingModal.booking_record (JObj ps) day slot)
  = Render.title (JObj ps).
Proof.
  unfold Render.title, BookingModal.booking_record.
  cbn [BookingModal.own_props get_prop].
  destruct (assoc_obj_set "bookingTime" (JStr slot)
              (obj_set "bookingDate" (JStr day) ps)) as [_ T2].
  destruct (assoc_obj_set "bookingDate" (JStr day) ps) as [_ D2].
  rewrite T2, D2 by discriminate. reflexivity.
Qed.

(** X22. The titles of a list of cards, on the home page or on the
    bookings page, can be evaluated exactly when the [Hospital Name] of
    every record is a string; they are then these names in lower case,
    one per record and in the order of the records. Otherwise the
    evaluation throws, and what it throws is a [TypeError]. *)
Theorem titles_spec l :
  (forall ts,
     Render.titles l = Ok ts
     <-> Forall2 (fun x t =>
                    exists s, get_prop x "Hospital Name" = Ok (Some (JStr s))
                              /\ t = toLowerCase s) l ts)
  /\ (forall e, Render.titles l = Throw e -> e = TypeError).
Proof.
  split; [|apply titles_throws].
  induction l as [|x l IH]; intros ts.
  - split.
    + intros H. injection H as <-. constructor.
    + intros H. inversion H. reflexivity.
  - rewrite titles_cons. split.
    + destruct (Render.title x) as [t|] eqn:Hx; [|discriminate].
      destruct (Render.titles l) as [us|] eqn:Hl; [|discriminate].
      intros H. injection H as <-. constructor.
      * apply title_spec, Hx.
      * apply IH. reflexivity.
    + intros H. inversion H as [|x' t l' us Hx Hl]; subst.
      apply title_spec in Hx. rewrite Hx.
      apply IH in Hl. rewrite Hl. reflexivity.
Qed.

(** X23. The projection of [handleSearch] replaces a missing or falsy
    name only. A response whose records are all objects, one of them with
    a [Hospital Name] that is truthy and not a string (a number, [true],
    an array, an object), therefore leaves a search result whose card
    has no title: evaluating the titles of the cards of the home page
    throws a [TypeError]. *)
Theorem odd_name_breaks_cards s c call sys items item v :
  eval (fetchWithRetry_default_resume (hospitals_url s c) call) (world sys)
  = Ok (Some (JArr items)) ->
  Forall (fun x => x <> JNull) items ->
  In item items ->
  get_prop item "Hospital Name" = Ok (Some v) ->
  truthy v = true ->
  is_string (Some v) = false ->
  Render.cards (ui (exec (handleSearch_resume s c call) sys)) = Throw TypeError.
Proof.
  intros Hfetch Hobj Hin Hname Htruthy Hstr. unfold Render.cards.
  rewrite (handleSearch_resume_ok s c call sys _ _ Hfetch (array_map_project_total _ Hobj)).
  destruct item as [| | | | |ps]; try discriminate.
  cbn [get_prop] in Hname. injection Hname as Hname.
  apply (titles_In (project_props ps)).
  - apply filter_In. split.
    + apply in_map_iff. exists (JObj ps). split; [reflexivity|exact Hin].
    + rewrite has_name_project. unfold named. rewrite Hname. exact Htruthy.
  - unfold Render.title, project_props. cbn [get_prop assoc String.eqb Ascii.eqb].
    cbn. rewrite Hname. cbn [or_else]. rewrite Htruthy.
    destruct v; try reflexivity. discriminate.
Qed.

Lemma odd_name_breaks_cards_witness :
  eval (fetchWithRetry_default_resume (hospitals_url "Texas" "Austin") (Some 2%nat))
       (world (with_world (fresh_world empty_storage numbered) searching))
  = Ok (Some (JArr [JObj [("Hospital Name", JNum 7)]]))
  /\ Forall (fun x => x <> JNull) [JObj [("Hospital Name", JNum 7)]]
  /\ In (JObj [("Hospital Name", JNum 7)]) [JObj [("Hospital Name", JNum 7)]]
  /\ get_prop (JObj [("Hospital Name", JNum 7)]) "Hospital Name" = Ok (Some (JNum 7))
  /\ truthy (JNum 7) = true
  /\ is_string (Some (JNum 7)) = false
  /\ Render.cards
       (ui (exec (handleSearch_resume "Texas" "Austin" (Some 2%nat))
              (with_world (fresh_world empty_storage numbered) searching)))
     = Throw TypeError.
Proof.
  assert (H1 : eval (fetchWithRetry_default_resume (hospitals_url "Texas" "Austin")
                       (Some 2%nat))
                 (world (with_world (fresh_world empty_storage numbered) searching))
               = Ok (Some (JArr [JObj [("Hospital Name", JNum 7)]])))
    by (vm_compute; reflexivity).
  assert (H2 : Forall (fun x => x <> JNull) [JObj [("Hospital Name", JNum 7)]])
    by (constructor; [discriminate|constructor]).
  assert (H3 : In (JObj [("Hospital Name", JNum 7)]) [JObj [("Hospital Name", JNum 7)]])
    by (left; reflexivity).
  assert (H4 : get_prop (JObj [("Hospital Name", JNum 7)]) "Hospital Name"
               = Ok (Some (JNum 7))) by reflexivity.
  assert (H5 : truthy (JNum 7) = true) by reflexivity.
  assert (H6 : is_string (Some (JNum 7)) = false) by reflexivity.
  repeat (split; [assumption|]).
  exact (odd_name_breaks_cards _ _ _ _ _ _ _ H1 H2 H3 H4 H5 H6).
Defined.

(** X24. A booking confirmed in the modal appears on the bookings page:
    when the titles of the bookings held and the title of the hospital
    can be evaluated, the titles of the bookings page are afterwards
    those it showed, followed by the title of that hospital. *)
Theorem booked_title_shown m s hospital slot l ts t :
  bookingHospital (ui s) = Some hospital ->
  Render.title hospital = Ok t ->
  BookingModal.selectedTimeSlot m = Some slot ->
  slot <> "" ->
  bookings (ui s) = JArr l ->
  Render.bookings_page (bookings (ui s)) = Ok ts ->
  Render.bookings_page (bookings (ui (confirm m s))) = Ok (ts ++ [t])%list.
Proof.
  intros Hh Ht Hs Hne Hb Hp.
  assert (Hobj : exists ps, hospital = JObj ps).
  { apply title_spec in Ht as (n & Hn & _). destruct hospital; try discriminate.
    eexists. reflexivity. }
  destruct Hobj as [ps ->].
  rewrite (confirm_unfold m s (JObj ps) slot Hh eq_refl Hs Hne).
  assert (E : bookings (ui (exec (handleBook (BookingModal.booking_record (JObj ps)
                                    (BookingModal.selectedDate m) slot);;
                                  closeBookingModal) s))
              = JArr (l ++ [BookingModal.booking_record (JObj ps)
                              (BookingModal.selectedDate m) slot])).
  { unfold handleBook, closeBookingModal, exec, mbind, M_bind, bind, get, lift.
    rewrite Hb. cbn [spread].
    unfold setBookings, setBookingHospital, modify, browser, zoom.
    cbn [world with_ui]. rewrite saveBookings_unfold.
    destruct (setItem _ _ _); reflexivity. }
  rewrite E. rewrite Hb in Hp. cbn [Render.bookings_page] in *.
  apply titles_app; [exact Hp|]. rewrite title_booking_record. exact Ht.
Qed.

Lemma booked_title_shown_witness :
  bookingHospital (ui (step (OpenModal austin_general) searched)) = Some austin_general
  /\ Render.title austin_general = Ok "austin general"
  /\ BookingModal.selectedTimeSlot
       (BookingModal.setSelectedTimeSlot "02:00 PM" (BookingModal.initial "2026-11-04"))
     = Some "02:00 PM"
  /\ "02:00 PM" <> ""
  /\ bookings (ui (step (OpenModal austin_general) searched)) = JArr []
  /\ Render.bookings_page (bookings (ui (step (OpenModal austin_general) searched)))
     = Ok []
  /\ Render.bookings_page
       (bookings
          (ui (confirm
                 (BookingModal.setSelectedTimeSlot "02:00 PM"
                    (BookingModal.initial "2026-11-04"))
                 (step (OpenModal austin_general) searched))))
     = Ok ["austin general"].
Proof.
  assert (H1 : bookingHospital (ui (step (OpenModal austin_general) searched))
               = Some austin_general) by reflexivity.
  assert (H2 : Render.title austin_general = Ok "austin general")
    by (vm_compute; reflexivity).
  assert (H3 : BookingModal.selectedTimeSlot
                 (BookingModal.setSelectedTimeSlot "02:00 PM"
                    (BookingModal.initial "2026-11-04"))
               = Some "02:00 PM") by reflexivity.
  assert (H4 : "02:00 PM" <> "") by discriminate.
  assert (H5 : bookings (ui (step (OpenModal austin_general) searched)) = JArr [])
    by (vm_compute; reflexivity).
  assert (H6 : Render.bookings_page
                 (bookings (ui (step (OpenModal austin_general) searched))) = Ok [])
    by (vm_compute; reflexivity).
  repeat (split; [assumption|]).
  exact (booked_title_shown _ _ _ _ _ _ _ H1 H2 H3 H4 H5 H6).
Defined.

(** ** The URLs of the requests *)

Lemma decode_unit_chunk c y :
  decode_unit
    ((if unreserved c then String c ""
      else if (N_of_ascii c <? 128)%N then percent (N_of_ascii c)
      else percent (192 + N_of_ascii c / 64) ++ percent (128 + N_of_ascii c mod 64))
     ++ y)
  = Some (c, y).
Proof.
  destruct c as [[] [] [] [] [] [] [] []]; vm_compute; reflexivity.
Qed.

Lemma decode_unit_encode c rest x :
  decode_unit (encodeURIComponent (String c rest) ++ x)
  = Some (c, encodeURIComponent rest ++ x).
Proof.
  cbn [encodeURIComponent]. rewrite string_app_assoc. apply decode_unit_chunk.
Qed.

Lemma string_app_inv_head (a x y : string) : a ++ x = a ++ y -> x = y.
Proof.
  induction a as [|c a IH]; rewrite ?app_empty_l, ?app_String; [auto|].
  intros H. injection H as H. auto.
Qed.

Lemma encode_inj s : forall s' x x',
  decode_unit x = None -> decode_unit x' = None ->
  encodeURIComponent s ++ x = encodeURIComponent s' ++ x' ->
  s = s' /\ x = x'.
Proof.
  induction s as [|c s IH]; intros [|c' s'] x x' Hx Hx' H.
  - cbn [encodeURIComponent] in H. rewrite !app_empty_l in H. auto.
  - exfalso. change (encodeURIComponent "") with "" in H. rewrite app_empty_l in H.
    rewrite H, decode_unit_encode in Hx. discriminate.
  - exfalso. change (encodeURIComponent "") with "" in H. rewrite app_empty_l in H.
    rewrite <- H, decode_unit_encode in Hx'. discriminate.
  - apply (f_equal decode_unit) in H. rewrite !decode_unit_encode in H.
    injection H as -> H. destruct (IH _ _ _ Hx Hx' H) as [-> ->]. auto.
Qed.

(** X25. The requests of the component are told apart by their URLs:
    the cities of two states are asked at the same URL only when the
    states are the same, a search at the same URL only when state and city
    are both the same, and no URL serves two kinds of request, whatever
    characters the names hold. *)
Theorem request_urls_distinct :
  (forall s s', cities_url s = cities_url s' -> s = s')
  /\ (forall s c s' c', hospitals_url s c = hospitals_url s' c' -> s = s' /\ c = c')
  /\ (forall s s' c', states_url <> cities_url s
                      /\ states_url <> hospitals_url s' c'
                      /\ cities_url s <> hospitals_url s' c').
Proof.
  split; [|split].
  - intros s s' H. unfold cities_url in H.
    apply string_app_inv_head, string_app_inv_head in H.
    rewrite <- (app_empty_r (encodeURIComponent s)),
            <- (app_empty_r (encodeURIComponent s')) in H.
    exact (proj1 (encode_inj s s' "" "" eq_refl eq_refl H)).
  - intros s c s' c' H. unfold hospitals_url in H.
    apply string_app_inv_head, string_app_inv_head in H.
    destruct (encode_inj s s' ("&city=" ++ encodeURIComponent c)
                ("&city=" ++ encodeURIComponent c') eq_refl eq_refl H) as [-> H'].
    split; [reflexivity|].
    apply string_app_inv_head in H'.
    rewrite <- (app_empty_r (encodeURIComponent c)),
            <- (app_empty_r (encodeURIComponent c')) in H'.
    exact (proj1 (encode_inj c c' "" "" eq_refl eq_refl H')).
  - intros s s' c'. unfold states_url, cities_url, hospitals_url.
    repeat split; intros H; apply string_app_inv_head in H;
      rewrite ?app_String in H; discriminate.
Qed.
